(** * Transcript pipeline of [src/lib/youtube.ts]

    A shallow embedding of the transcript normalisation and caching
    pipeline and of the two AI orchestrators, followed by the properties
    the specification states about them.

    Conventions of the embedding.
    - A JavaScript string is a [string]; one [ascii] stands for one code
      unit, so [String.length] is the [.length] of the source.
    - A JavaScript number is a [JS.Number]: [NaN], an infinity, or a finite
      double held as the rational it denotes.  Arithmetic rounds the exact
      result to the nearest double ([JS.binary64]); the two zeros are not
      told apart.
    - A [Date] object is its time value in milliseconds or an invalid date;
      the time zone of the host is a field of the [World].
    - The collaborators (repositories, session, transcript provider,
      summarizer, generation service, tracker, clock) are fields of a
      [World]; every call is appended to a log, and what a call answers may
      depend on the log so far.  [async] functions become computations of
      the monad [M], whose outcome is a returned value or a thrown error. *)

From Stdlib Require Import List String Ascii Bool Arith ZArith QArith Qround Lia.
From Stdlib Require Import Permutation DecimalString Lqa Qabs.
Import ListNotations.

Close Scope Q_scope.
Open Scope string_scope.
Open Scope nat_scope.

(** ** Outcomes *)

(** The message of a thrown error. *)
Definition Error : Type := string.

(** What evaluating an expression or awaiting a call comes to: a value, or
    a thrown error. *)
Inductive Outcome (A : Type) : Type :=
| Return (a : A)
| Throw (e : Error).
Arguments Return {A} a.
Arguments Throw {A} e.

(** The rest of a computation after a step that may throw. *)
Definition andThen {A B : Type} (o : Outcome A) (k : A -> Outcome B) : Outcome B :=
  match o with
  | Return a => k a
  | Throw e => Throw e
  end.

(** ** The parts of ECMAScript the source relies on *)

Module JS.

(** [\s] of a regular expression, on the code units below 256:
    TAB, LF, VT, FF, CR, SP and NBSP. *)
Definition isWhiteSpace (c : ascii) : bool :=
  let n := nat_of_ascii c in
  (((9 <=? n) && (n <=? 13)) || (n =? 32) || (n =? 160))%nat.

(** [String.prototype.includes]. *)
Fixpoint includes (s sub : string) : bool :=
  String.prefix sub s ||
  match s with
  | EmptyString => false
  | String _ rest => includes rest sub
  end.

(** [Array.prototype.join] on an array of strings. *)
Definition join (sep : string) (l : list string) : string :=
  String.concat sep l.

(** [String.prototype.split(/\s+/)]: the pieces between maximal runs of
    white space.  [cur] is the piece being read; [inRun] tells
    that the last code unit read was white space.  A string that starts
    (ends) with white space yields an empty first (last) piece, and the
    empty string yields one empty piece. *)
Fixpoint splitRun (inRun : bool) (cur : string) (s : string) : list string :=
  match s with
  | EmptyString => [cur]
  | String c rest =>
      if isWhiteSpace c then
        if inRun then splitRun true EmptyString rest
        else cur :: splitRun true EmptyString rest
      else splitRun false (cur ++ String c EmptyString) rest
  end.

Definition splitWhiteSpace (s : string) : list string :=
  splitRun false EmptyString s.

(** [Array.prototype.map] with a callback that reads the index and may
    throw: the first throw ends the loop and is the outcome. *)
Fixpoint mapFrom {A B : Type} (f : A -> nat -> Outcome B) (index : nat)
  (l : list A) : Outcome (list B) :=
  match l with
  | [] => Return []
  | x :: rest =>
      andThen (f x index) (fun y =>
      andThen (mapFrom f (S index) rest) (fun ys =>
      Return (y :: ys)))
  end.

Definition mapi {A B : Type} (f : A -> nat -> Outcome B) (l : list A)
  : Outcome (list B) :=
  mapFrom f 0 l.

(** [Array.prototype.slice(0, n)]. *)
Definition slice0 {A : Type} (n : nat) (l : list A) : list A := firstn n l.

(** *** Numbers and [ToNumber] on strings *)

(** The value of a numeric expression: a finite number, an infinity or
    [NaN]. *)
Inductive Number : Type :=
| NaN
| Infinity (negative : bool)
| Finite (q : Q).

(** [2 ^ e] for any integer [e]. *)
Definition pow2 (e : Z) : Q :=
  if (0 <=? e)%Z then inject_Z (2 ^ e) else (1 # Z.to_pos (2 ^ (- e)))%Q.

(** The binary exponent of a positive rational [a]: the [e] with
    [2 ^ e <= a < 2 ^ (e + 1)]. *)
Definition exponentOf (a : Q) : Z :=
  let e := (Z.log2 (Qnum a) - Z.log2 (Zpos (Qden a)))%Z in
  if Qle_bool (pow2 e) a then e else (e - 1)%Z.

(** The nearest integer, the even one of two that are equally near. *)
Definition roundHalfEven (x : Q) : Z :=
  let f := Qfloor x in
  match (x - inject_Z f ?= 1 # 2)%Q with
  | Lt => f
  | Gt => (f + 1)%Z
  | Eq => if Z.even f then f else (f + 1)%Z
  end.

(** The Number value for a real [x] (IEEE 754 binary64, round to nearest,
    ties to even): 53 significant bits at the exponent of [x], which is
    not below -1022 (subnormals), and an infinity from [2 ^ 1024] on. *)
Definition binary64 (x : Q) : Number :=
  let q := Qred x in
  if Qeq_bool q 0 then Finite 0
  else
    let a := Qabs q in
    let e := Z.max (exponentOf a) (-1022) in
    let ulp := pow2 (e - 52) in
    let r := (inject_Z (roundHalfEven (a / ulp)) * ulp)%Q in
    if Qle_bool (pow2 1024) r then Infinity (Qnum q <? 0)%Z
    else Finite (Qred (if (Qnum q <? 0)%Z then - r else r)).

(** The [+] operator on numbers. *)
Definition add (x y : Number) : Number :=
  match x, y with
  | NaN, _ | _, NaN => NaN
  | Infinity a, Infinity b => if Bool.eqb a b then Infinity a else NaN
  | Infinity a, Finite _ => Infinity a
  | Finite _, Infinity b => Infinity b
  | Finite p, Finite q => binary64 (p + q)
  end.

(** The [-] operator on numbers. *)
Definition sub (x y : Number) : Number :=
  match x, y with
  | NaN, _ | _, NaN => NaN
  | Infinity a, Infinity b => if Bool.eqb a b then NaN else Infinity a
  | Infinity a, Finite _ => Infinity a
  | Finite _, Infinity b => Infinity (negb b)
  | Finite p, Finite q => binary64 (p - q)
  end.

(** The [*] operator on numbers. *)
Definition mul (x y : Number) : Number :=
  match x, y with
  | NaN, _ | _, NaN => NaN
  | Infinity a, Infinity b => Infinity (xorb a b)
  | Infinity a, Finite q | Finite q, Infinity a =>
      if Qeq_bool q 0 then NaN else Infinity (xorb a (Qnum q <? 0)%Z)
  | Finite p, Finite q => binary64 (p * q)
  end.

Definition negate (x : Number) : Number :=
  match x with
  | NaN => NaN
  | Infinity a => Infinity (negb a)
  | Finite q => Finite (- q)%Q
  end.

Definition isDigit (c : ascii) : bool :=
  let n := nat_of_ascii c in (48 <=? n) && (n <=? 57).

(** The value of a digit of a radix up to 16, when [c] is one. *)
Definition digitValue (radix : nat) (c : ascii) : option nat :=
  let n := nat_of_ascii c in
  let v := if (48 <=? n) && (n <=? 57) then Some (n - 48)
           else if (97 <=? n) && (n <=? 102) then Some (n - 87)
           else if (65 <=? n) && (n <=? 70) then Some (n - 55)
           else None in
  match v with
  | Some d => if d <? radix then Some d else None
  | None => None
  end.

(** The longest prefix of [s] whose code units satisfy [p], and the rest. *)
Fixpoint span (p : ascii -> bool) (s : string) : string * string :=
  match s with
  | EmptyString => (EmptyString, EmptyString)
  | String c rest =>
      if p c then let (a, b) := span p rest in (String c a, b)
      else (EmptyString, s)
  end.

(** The mathematical value of a string of digits in [radix]; [None] when a
    code unit is not a digit of that radix. *)
Fixpoint digitsValue (radix : nat) (acc : Z) (s : string) : option Z :=
  match s with
  | EmptyString => Some acc
  | String c rest =>
      match digitValue radix c with
      | Some d => digitsValue radix (Z.of_nat radix * acc + Z.of_nat d) rest
      | None => None
      end
  end.

Fixpoint trimStart (s : string) : string :=
  match s with
  | EmptyString => EmptyString
  | String c rest => if isWhiteSpace c then trimStart rest else s
  end.

Fixpoint trimEnd (s : string) : string :=
  match s with
  | EmptyString => EmptyString
  | String c rest =>
      match trimEnd rest with
      | EmptyString => if isWhiteSpace c then EmptyString else String c EmptyString
      | r => String c r
      end
  end.

Definition trim (s : string) : string := trimEnd (trimStart s).

Definition pow10 (e : Z) : Q :=
  if (0 <=? e)%Z then inject_Z (10 ^ e) else (/ inject_Z (10 ^ (- e)))%Q.

(** [DecimalDigits], all of [s]. *)
Definition DecimalDigits (s : string) : option Z :=
  match s with
  | EmptyString => None
  | _ => digitsValue 10 0 s
  end.

(** [SignedInteger] of an exponent part. *)
Definition SignedInteger (s : string) : option Z :=
  match s with
  | String c d =>
      if Ascii.eqb c "+" then DecimalDigits d
      else if Ascii.eqb c "-" then option_map Z.opp (DecimalDigits d)
      else DecimalDigits s
  | EmptyString => None
  end.

(** [ExponentPart], optional: nothing, or [e] or [E] and a signed integer. *)
Definition ExponentPart (s : string) : option Z :=
  match s with
  | EmptyString => Some 0%Z
  | String c rest =>
      if (Ascii.eqb c "e" || Ascii.eqb c "E")%char then SignedInteger rest
      else None
  end.

(** [StrUnsignedDecimalLiteral]: [Infinity], or digits with an optional
    fraction and an optional exponent, with a digit before or after the
    point. *)
Definition StrUnsignedDecimalLiteral (s : string) : option Number :=
  if (s =? "Infinity")%string then Some (Infinity false)
  else
    let (ip, r1) := span isDigit s in
    let (fp, r2) := match r1 with
                    | String c r =>
                        if Ascii.eqb c "." then span isDigit r
                        else (EmptyString, r1)
                    | EmptyString => (EmptyString, r1)
                    end in
    if ((ip =? "") && (fp =? ""))%string then None
    else
      match digitsValue 10 0 (ip ++ fp), ExponentPart r2 with
      | Some m, Some e =>
          Some (Finite (inject_Z m * pow10 (e - Z.of_nat (String.length fp)))%Q)
      | _, _ => None
      end.

(** The radix a prefix letter announces. *)
Definition radixOf (c : ascii) : option nat :=
  if (Ascii.eqb c "x" || Ascii.eqb c "X")%char then Some 16
  else if (Ascii.eqb c "o" || Ascii.eqb c "O")%char then Some 8
  else if (Ascii.eqb c "b" || Ascii.eqb c "B")%char then Some 2
  else None.

(** [NonDecimalIntegerLiteral]: [0x], [0o] or [0b] and digits. *)
Definition NonDecimalIntegerLiteral (s : string) : option Number :=
  match s with
  | String z (String c ds) =>
      match Ascii.eqb z "0", radixOf c, ds with
      | true, Some r, String _ _ =>
          option_map (fun v => Finite (inject_Z v)) (digitsValue r 0 ds)
      | _, _, _ => None
      end
  | _ => None
  end.

Definition StrNumericLiteral (s : string) : option Number :=
  match NonDecimalIntegerLiteral s with
  | Some v => Some v
  | None =>
      match s with
      | String c r =>
          if Ascii.eqb c "+" then StrUnsignedDecimalLiteral r
          else if Ascii.eqb c "-"
               then option_map negate (StrUnsignedDecimalLiteral r)
               else StrUnsignedDecimalLiteral s
      | EmptyString => None
      end
  end.

(** [StringToNumber]: white space around the literal is dropped, the
    empty string is 0, a string that is no numeric literal is [NaN], and
    the value of a literal is rounded to a double. *)
Definition StringToNumber (s : string) : Number :=
  match trim s with
  | EmptyString => Finite 0
  | t => match StrNumericLiteral t with
         | Some (Finite q) => binary64 q
         | Some v => v
         | None => NaN
         end
  end.

(** *** [Array.prototype.sort] with a comparator *)

(** [SortCompare]: the comparator's answer [v] orders [x] before [y] when
    [v < 0], after when [v > 0], and leaves them as they are when [v] is
    0 or [NaN]. *)
Definition SortCompare {A : Type} (comparefn : A -> A -> Number) (x y : A)
  : comparison :=
  match comparefn x y with
  | NaN => Eq
  | Infinity negative => if negative then Lt else Gt
  | Finite q => (q ?= 0)%Q
  end.

(** The sort is stable (ECMAScript 2019); a stable insertion sort stands
    for it.  [x] comes from an earlier index than the elements of [l]. *)
Fixpoint insert {A : Type} (comparefn : A -> A -> Number) (x : A) (l : list A)
  : list A :=
  match l with
  | [] => [x]
  | y :: rest =>
      match SortCompare comparefn x y with
      | Gt => y :: insert comparefn x rest
      | _ => x :: l
      end
  end.

Definition sort {A : Type} (comparefn : A -> A -> Number) (l : list A) : list A :=
  fold_right (insert comparefn) [] l.

(** *** [Date] objects *)

(** The time value of a [Date] object: an integral number of milliseconds
    since the epoch, or [NaN], which makes the date an invalid one. *)
Inductive Date : Type :=
| InvalidDate
| DateOf (t : Z).

(** [ToIntegerOrInfinity] on a finite number: towards zero. *)
Definition truncate (q : Q) : Z :=
  if Qle_bool 0 q then Qfloor q else Qceiling q.

(** [TimeClip]: no time value beyond 8.64e15 milliseconds. *)
Definition TimeClip (time : Number) : Date :=
  match time with
  | Finite q =>
      if Qle_bool (Qabs q) (inject_Z 8640000000000000) then DateOf (truncate q)
      else InvalidDate
  | _ => InvalidDate
  end.

(** [new Date(value)] for a number. *)
Definition newDate (value : Number) : Date := TimeClip value.

(** [+date]. *)
Definition timeOf (date : Date) : Number :=
  match date with
  | InvalidDate => NaN
  | DateOf t => Finite (inject_Z t)
  end.

(** The time zone of the host: [LocalTZA(t, isUTC)], the offset of local
    time in milliseconds at the time [t], which is a UTC time value when
    [isUTC] is true and a local one when it is false. *)
Record TimeZone : Type := { LocalTZA : Z -> bool -> Z }.

Definition LocalTime (tz : TimeZone) (t : Z) : Z := (t + LocalTZA tz t true)%Z.

Definition UTC (tz : TimeZone) (t : Z) : Z := (t - LocalTZA tz t false)%Z.

Definition msPerDay : Z := 86400000.

Definition Day (t : Z) : Z := (t / msPerDay)%Z.

(** [date.setHours(0, 0, 0, 0)]: local midnight of the local day of
    [date]. *)
Definition setHoursToMidnight (tz : TimeZone) (date : Date) : Date :=
  match date with
  | InvalidDate => InvalidDate
  | DateOf t =>
      TimeClip (Finite (inject_Z (UTC tz (Day (LocalTime tz t) * msPerDay))))
  end.

(** [getHours], [getMinutes] and [getSeconds] of a valid date. *)
Definition getHours (tz : TimeZone) (t : Z) : Z :=
  ((LocalTime tz t / 3600000) mod 24)%Z.

Definition getMinutes (tz : TimeZone) (t : Z) : Z :=
  ((LocalTime tz t / 60000) mod 60)%Z.

Definition getSeconds (tz : TimeZone) (t : Z) : Z :=
  ((LocalTime tz t / 1000) mod 60)%Z.

End JS.

(** ** The parts of date-fns the source relies on

    As in date-fns 3 and 4, where [addSeconds] does not round its amount. *)

Module DateFns.

(** [addMilliseconds(date, amount)]: [new Date(+date + amount)]. *)
Definition addMilliseconds (date : JS.Date) (amount : JS.Number) : JS.Date :=
  JS.newDate (JS.add (JS.timeOf date) amount).

(** [addSeconds(date, amount)]: [addMilliseconds(date, amount * 1000)]. *)
Definition addSeconds (date : JS.Date) (amount : JS.Number) : JS.Date :=
  addMilliseconds date (JS.mul amount (JS.Finite (inject_Z 1000))).

Definition digit (n : Z) : ascii := ascii_of_nat (48 + Z.to_nat n).

(** [addLeadingZeros(n, 2)], for a value from 0 to 99. *)
Definition pad2 (n : Z) : string :=
  String (digit (n / 10)) (String (digit (n mod 10)) EmptyString).

(** [format(date, 'HH:mm:ss')]: a [RangeError] on an invalid date, else
    the hours, minutes and seconds of local time. *)
Definition format_HHmmss (tz : JS.TimeZone) (date : JS.Date) : Outcome string :=
  match date with
  | JS.InvalidDate => Throw "Invalid time value"
  | JS.DateOf t =>
      Return (pad2 (JS.getHours tz t) ++ ":" ++ pad2 (JS.getMinutes tz t)
                ++ ":" ++ pad2 (JS.getSeconds tz t))
  end.

End DateFns.

(** ** Data *)

(** The language of generated text: the union ['en' | 'id']. *)
Inductive Lang : Type := EN | ID.

Record User : Type := { user_id : string }.


Record UserVideo : Type := {
  uv_id : Z;
  uv_userId : string;
  uv_youtubeId : string;
  uv_summary : string
}.

(** An entry of the transcript provider; a missing (or [NaN]) [offset] or
    [duration] is [None], and one that is given is a finite double. *)
Record RawEntry : Type := {
  entry_text : string;
  entry_offset : option Q;
  entry_duration : option Q
}.

Record TranscriptSegment : Type := {
  seg_start : string;
  seg_end : string;
  seg_text : string;
  seg_isChapterStart : bool
}.

(** A stored row of the transcript table. *)
Record Row : Type := {
  row_id : Z;
  row_videoId : string;
  row_start : string;
  row_end : string;
  row_text : string;
  row_isChapterStart : bool
}.

(** What [fetchVideoTranscript] resolves to; [error] and [errorMessage] are
    absent from the object of the successful paths. *)
Record TranscriptResult : Type := {
  segments : list TranscriptSegment;
  error : option bool;
  errorMessage : option string;
  userVideo : option UserVideo
}.

(** The result of [generateObject]: [object] may be undefined. *)
Record GenerateObjectResult : Type := {
  gen_object : option (list string);   (* [object?.questions] *)
  gen_totalTokens : Z
}.

Record UsageInfo : Type := {
  usage_userId : string;
  usage_model : string;
  usage_provider : string;
  usage_operation : string;
  usage_videoId : option string;
  usage_userVideoId : option Z;
  usage_requestDuration : Z
}.

(** ** Effects *)

(** The calls this file makes to its collaborators, with their arguments. *)
Inductive Call : Type :=
| GetCurrentUser
| GetPreferredLanguage (userId : string)
| TranscriptGetByVideoId (videoId : string)
| FetchTranscript (videoId : string)
| TranscriptUpsertSegments (videoId : string) (segs : list TranscriptSegment)
| UserVideoGetByUserAndYoutubeId (userId videoId : string)
| UserVideoUpsert (userId videoId summary : string)
| GenerateSummary (text : string) (language : Lang) (videoId : string)
    (userVideoId : option Z)
| GenerateObject (model : string) (temperature : Z) (prompt : string)
| TrackGenerateTextUsage (result : GenerateObjectResult) (info : UsageInfo)
| UpdateQuickStartQuestions (userVideoId : Z) (questions : list string)
| DateNow
| Console (message : string).

(** A call that came back, or one that raised. *)
Inductive Event : Type :=
| Completed (c : Call)
| Raised (c : Call) (e : Error).

Definition Log : Type := list Event.

(** Everything outside this file: the time zone of the host, the two pure
    helpers imported from [@/lib/utils] and [@/lib/ai/system-prompts], and
    the collaborators, whose answer may depend on the calls made so far. *)
Record World : Type := {
  Summary : Type;
  timeZone : JS.TimeZone;
  formatTime : Q -> string;
  getQuickStartPrompt : Lang -> string;
  getCurrentUser : Log -> Outcome User;
  UserRepository_getPreferredLanguage : Log -> string -> Outcome (option string);
  TranscriptRepository_getByVideoId : Log -> string -> Outcome (list Row);
  fetchTranscript : Log -> string -> Outcome (option (list RawEntry));
  TranscriptRepository_upsertSegments :
    Log -> string -> list TranscriptSegment -> Outcome unit;
  UserVideoRepository_getByUserAndYoutubeId :
    Log -> string -> string -> Outcome (option UserVideo);
  UserVideoRepository_upsert : Log -> string -> string -> string -> Outcome UserVideo;
  generateSummary : Log -> string -> Lang -> string -> option Z -> Outcome Summary;
  generateObject : Log -> string -> Z -> string -> Outcome GenerateObjectResult;
  trackGenerateTextUsage : Log -> GenerateObjectResult -> UsageInfo -> Outcome unit;
  UserVideoRepository_updateQuickStartQuestions :
    Log -> Z -> list string -> Outcome unit;
  Date_now : Log -> Z
}.

(** A computation: from the log so far to an outcome and the log after. *)
Definition M (A : Type) : Type := Log -> Outcome A * Log.

Definition ret {A : Type} (a : A) : M A := fun log => (Return a, log).

Definition bind {A B : Type} (m : M A) (k : A -> M B) : M B :=
  fun log =>
    match m log with
    | (Return a, log') => k a log'
    | (Throw e, log') => (Throw e, log')
    end.

(** [throw new Error(e)]. *)
Definition throw {A : Type} (e : Error) : M A := fun log => (Throw e, log).

(** [try { m } catch (error) { handler error }]. *)
Definition try_catch {A : Type} (m : M A) (handler : Error -> M A) : M A :=
  fun log =>
    match m log with
    | (Return a, log') => (Return a, log')
    | (Throw e, log') => handler e log'
    end.

(** [await] of a collaborator's call [c], answered by [answer]. *)
Definition perform {A : Type} (c : Call) (answer : Log -> Outcome A) : M A :=
  fun log =>
    match answer log with
    | Return a => (Return a, (log ++ [Completed c])%list)
    | Throw e => (Throw e, (log ++ [Raised c e])%list)
    end.

(** [console.log] and [console.error]. *)
Definition console (message : string) : M unit :=
  fun log => (Return tt, (log ++ [Completed (Console message)])%list).

(** An expression that calls no collaborator and may throw. *)
Definition evaluate {A : Type} (o : Outcome A) : M A := fun log => (o, log).

Declare Scope monad_scope.
Delimit Scope monad_scope with monad.
Notation "x <- m ;; k" := (bind m (fun x => k))
  (at level 61, m at next level, right associativity) : monad_scope.
Notation "m ;; k" := (bind m (fun _ => k))
  (at level 61, right associativity) : monad_scope.
Open Scope monad_scope.

(** ** Chapter heuristic (lines 169-172) *)

Definition isChapterStart (text : string) (index : nat) : bool :=
  (String.length text <? 30)%nat &&
  negb (JS.includes text "segment") &&
  negb (text =? "N/A")%string &&
  ((index =? 0) || (index mod 10 =? 0))%nat.

(** ** Collaborator calls, as the source awaits them *)

Definition await_getCurrentUser (w : World) : M User :=
  perform GetCurrentUser (getCurrentUser w).

Definition await_getPreferredLanguage (w : World) (userId : string)
  : M (option string) :=
  perform (GetPreferredLanguage userId)
    (fun log => UserRepository_getPreferredLanguage w log userId).

Definition await_getByVideoId (w : World) (videoId : string) : M (list Row) :=
  perform (TranscriptGetByVideoId videoId)
    (fun log => TranscriptRepository_getByVideoId w log videoId).

Definition await_fetchTranscript (w : World) (videoId : string)
  : M (option (list RawEntry)) :=
  perform (FetchTranscript videoId) (fun log => fetchTranscript w log videoId).

Definition await_upsertSegments (w : World) (videoId : string)
  (segs : list TranscriptSegment) : M unit :=
  perform (TranscriptUpsertSegments videoId segs)
    (fun log => TranscriptRepository_upsertSegments w log videoId segs).

Definition await_getByUserAndYoutubeId (w : World) (userId videoId : string)
  : M (option UserVideo) :=
  perform (UserVideoGetByUserAndYoutubeId userId videoId)
    (fun log => UserVideoRepository_getByUserAndYoutubeId w log userId videoId).

Definition await_upsertUserVideo (w : World) (userId videoId summary : string)
  : M UserVideo :=
  perform (UserVideoUpsert userId videoId summary)
    (fun log => UserVideoRepository_upsert w log userId videoId summary).

Definition await_generateSummary (w : World) (text : string) (language : Lang)
  (videoId : string) (userVideoId : option Z) : M (Summary w) :=
  perform (GenerateSummary text language videoId userVideoId)
    (fun log => generateSummary w log text language videoId userVideoId).

Definition await_generateObject (w : World) (model : string) (temperature : Z)
  (prompt : string) : M GenerateObjectResult :=
  perform (GenerateObject model temperature prompt)
    (fun log => generateObject w log model temperature prompt).

Definition await_trackGenerateTextUsage (w : World)
  (result : GenerateObjectResult) (info : UsageInfo) : M unit :=
  perform (TrackGenerateTextUsage result info)
    (fun log => trackGenerateTextUsage w log result info).

Definition await_updateQuickStartQuestions (w : World) (userVideoId : Z)
  (questions : list string) : M unit :=
  perform (UpdateQuickStartQuestions userVideoId questions)
    (fun log => UserVideoRepository_updateQuickStartQuestions w log userVideoId questions).

Definition now (w : World) : M Z :=
  perform DateNow (fun log => Return (Date_now w log)).

(** ** Language resolution (lines 20-29 and 216-225)

    The two orchestrators carry the same block, which differs in the
    logged message only: [userLanguage] starts as ['en'] and is assigned
    the saved language when that is ['en'] or ['id']. *)

Definition acceptedLanguage (savedLanguage : option string) : Lang :=
  match savedLanguage with
  | Some s => if (s =? "en")%string then EN
              else if (s =? "id")%string then ID
              else EN
  | None => EN
  end.

Definition quickStartMessage : string :=
  "Could not get user language preference for quick start questions, using default:".


Definition resolveUserLanguage (w : World) (message : string) : M Lang :=
  try_catch
    (user <- await_getCurrentUser w ;;
     savedLanguage <- await_getPreferredLanguage w (user_id user) ;;
     ret (acceptedLanguage savedLanguage))
    (fun _ => console message ;; ret EN).

(** The line feed of a template literal. *)
Definition LF : string := String (ascii_of_nat 10) EmptyString.



(** ** [generateUserVideoSummary] (lines 16-34) *)



(** ** [fetchVideoTranscript] (lines 129-207) *)

(** [Number(x || 0)]: a missing, [NaN] or zero field is 0. *)
Definition orZero (x : option Q) : Q :=
  match x with
  | Some q => if Qeq_bool q 0 then 0%Q else q
  | None => 0%Q
  end.

(** Lines 163-164: [new Date(0)], then [setHours(0, 0, 0, 0)]. *)
Definition baseDate (w : World) : JS.Date :=
  JS.setHoursToMidnight (timeZone w) (JS.newDate (JS.Finite 0)).

(** Line 161: [start + Number(item.duration || 0)]. *)
Definition endOf (item : RawEntry) : JS.Number :=
  JS.add (JS.Finite (orZero (entry_offset item)))
         (JS.Finite (orZero (entry_duration item))).

(** The callback of [transcriptResult.map] (lines 159-180).  The object
    of lines 174-179 is built field by field, so the first [format] that
    throws ends the callback. *)
Definition normalizeEntry (w : World) (item : RawEntry) (index : nat)
  : Outcome TranscriptSegment :=
  let start := orZero (entry_offset item) in
  let end_ := endOf item in
  let startTime := DateFns.addSeconds (baseDate w) (JS.Finite start) in
  let endTime := DateFns.addSeconds (baseDate w) end_ in
  let chapter := isChapterStart (entry_text item) index in
  andThen (DateFns.format_HHmmss (timeZone w) startTime) (fun formattedStart =>
  andThen (DateFns.format_HHmmss (timeZone w) endTime) (fun formattedEnd =>
  Return {| seg_start := formattedStart;
            seg_end := formattedEnd;
            seg_text := if negb (entry_text item =? "N/A")%string
                        then entry_text item
                        else "Segment at " ++ formatTime w start;
            seg_isChapterStart := chapter |})).

Definition normalize (w : World) (entries : list RawEntry)
  : Outcome (list TranscriptSegment) :=
  JS.mapi (normalizeEntry w) entries.

(** The callback of [dbSegments.map] (lines 135-140). *)
Definition rowToSegment (item : Row) : TranscriptSegment :=
  {| seg_start := row_start item;
     seg_end := row_end item;
     seg_text := row_text item;
     seg_isChapterStart := row_isChapterStart item |}.

(** The comparator of line 141, [(a, b) => a.start - b.start]: both
    operands are strings, so [-] converts them with [ToNumber]. *)
Definition compareStart (a b : TranscriptSegment) : JS.Number :=
  JS.sub (JS.StringToNumber (seg_start a)) (JS.StringToNumber (seg_start b)).

(** Lines 142-149 and 184-191: look the association up, create it with an
    empty summary when there is none. *)
Definition lookupOrCreateUserVideo (w : World) (user : User) (videoId : string)
  : M UserVideo :=
  found <- await_getByUserAndYoutubeId w (user_id user) videoId ;;
  match found with
  | Some uv => ret uv
  | None => await_upsertUserVideo w (user_id user) videoId ""
  end.

Definition unavailable : TranscriptResult :=
  {| segments := [];
     error := Some true;
     errorMessage := Some "Transcript not available for this video";
     userVideo := None |}.

Definition available (segs : list TranscriptSegment) (uv : UserVideo)
  : TranscriptResult :=
  {| segments := segs; error := None; errorMessage := None;
     userVideo := Some uv |}.

(** The body of the [try] block. *)
Definition fetchVideoTranscript_try (w : World) (videoId : string)
  : M TranscriptResult :=
  user <- await_getCurrentUser w ;;
  dbSegments <- await_getByVideoId w videoId ;;
  if 0 <? List.length dbSegments then
    let segs := JS.sort compareStart (map rowToSegment dbSegments) in
    uv <- lookupOrCreateUserVideo w user videoId ;;
    ret (available segs uv)
  else
    transcriptResult <- await_fetchTranscript w videoId ;;
    match transcriptResult with
    | None | Some [] => throw "No transcript content available"
    | Some entries =>
        segs <- evaluate (normalize w entries) ;;
        await_upsertSegments w videoId segs ;;
        uv <- lookupOrCreateUserVideo w user videoId ;;
        ret (available segs uv)
    end.

Definition fetchVideoTranscript (w : World) (videoId : string)
  : M TranscriptResult :=
  try_catch (fetchVideoTranscript_try w videoId)
    (fun _ => console "Error fetching transcript:" ;; ret unavailable).

(** ** [generateQuickStartQuestions] (lines 209-287) *)

Definition maxWords : nat := Z.to_nat 6000.

(** Lines 228-232. *)
Definition truncatedTranscript (transcriptSegments : list TranscriptSegment)
  : string :=
  let fullTranscript := JS.join " " (map seg_text transcriptSegments) in
  let words := JS.splitWhiteSpace fullTranscript in
  JS.join " " (JS.slice0 maxWords words).

(** A string argument that is given and not empty. *)
Definition truthyString (x : option string) : option string :=
  match x with
  | Some EmptyString | None => None
  | Some s => Some s
  end.

(** Lines 237-243. *)
Definition contextSection (videoTitle videoDescription : option string) : string :=
  match truthyString videoTitle with
  | Some t => "Video Title: " ++ t ++ LF
  | None => ""
  end ++
  match truthyString videoDescription with
  | Some d => "Video Description: " ++ d ++ LF
  | None => ""
  end.

(** What precedes the transcript in the prompt (lines 245-249). *)
Definition promptHead (promptText context : string) : string :=
  promptText ++ LF ++ LF
    ++ (if (context =? "")%string then "" else context ++ LF)
    ++ "Here is the video transcript:" ++ LF ++ LF
    ++ "<transcript>" ++ LF.

Definition promptTail : string := LF ++ "</transcript>" ++ LF.

Definition buildPrompt (w : World) (userLanguage : Lang)
  (transcriptSegments : list TranscriptSegment)
  (videoTitle videoDescription : option string) : string :=
  promptHead (getQuickStartPrompt w userLanguage)
             (contextSection videoTitle videoDescription)
    ++ truncatedTranscript transcriptSegments ++ promptTail.

Definition modelName : string := "gpt-5-nano".

(** The body of the [try] block of lines 265-275. *)
Definition trackUsage (w : World) (result : GenerateObjectResult)
  (userVideoId : option Z) (videoId : option string) (startTime : Z) : M unit :=
  user <- await_getCurrentUser w ;;
  finished <- now w ;;
  await_trackGenerateTextUsage w result
    {| usage_userId := user_id user;
       usage_model := modelName;
       usage_provider := "openai";
       usage_operation := "quick_start_questions";
       usage_videoId := videoId;
       usage_userVideoId := userVideoId;
       usage_requestDuration := (finished - startTime)%Z |}.

Definition trackingMessage : string :=
  "Failed to track quick start questions token usage:".

(** Lines 265-278. *)
Definition trackUsageBestEffort (w : World) (result : GenerateObjectResult)
  (userVideoId : option Z) (videoId : option string) (startTime : Z) : M unit :=
  try_catch (trackUsage w result userVideoId videoId startTime)
    (fun _ => console trackingMessage).

(** Line 280, [result.object?.questions || []]. *)
Definition questionsOf (result : GenerateObjectResult) : list string :=
  match gen_object result with
  | Some qs => qs
  | None => []
  end.

(** Lines 282-284: [userVideoId] is tested for truthiness, so an absent or
    zero id skips the update. *)
Definition persistQuestions (w : World) (userVideoId : option Z)
  (questions : list string) : M unit :=
  match userVideoId with
  | Some uvid =>
      if negb (uvid =? 0)%Z && (0 <? List.length questions)
      then await_updateQuickStartQuestions w uvid questions
      else ret tt
  | None => ret tt
  end.

(** Lines 265-286, what follows the generation call. *)
Definition afterGeneration (w : World) (result : GenerateObjectResult)
  (userVideoId : option Z) (videoId : option string) (startTime : Z)
  : M (list string) :=
  trackUsageBestEffort w result userVideoId videoId startTime ;;
  let questions := questionsOf result in
  persistQuestions w userVideoId questions ;;
  ret questions.

Definition generateQuickStartQuestions (w : World)
  (transcriptSegments : list TranscriptSegment)
  (videoTitle videoDescription : option string)
  (userVideoId : option Z) (videoId : option string) : M (list string) :=
  userLanguage <- resolveUserLanguage w quickStartMessage ;;
  let prompt := buildPrompt w userLanguage transcriptSegments
                  videoTitle videoDescription in
  startTime <- now w ;;
  result <- await_generateObject w modelName 1 prompt ;;
  afterGeneration w result userVideoId videoId startTime.

(** ** Spec-side notions *)

(** Whether the code unit [c] occurs in [s]. *)
Fixpoint occurs (c : ascii) (s : string) : bool :=
  match s with
  | EmptyString => false
  | String d rest => Ascii.eqb d c || occurs c rest
  end.

(** Two decimal digits, for a value from 0 to 99. *)
Definition twoDigits (n : Z) : string :=
  String (ascii_of_nat (48 + Z.to_nat (n / 10)))
    (String (ascii_of_nat (48 + Z.to_nat (n mod 10))) EmptyString).

(** The [TimeFormatter] of the specification: the HH:mm:ss string of a
    number of seconds cut to whole seconds, on a 24-hour clock that wraps
    and knows no calendar and no time zone. *)
Definition TimeFormatter (seconds : Q) : string :=
  let s := Qfloor seconds in
  twoDigits ((s / 3600) mod 24) ++ ":" ++ twoDigits ((s / 60) mod 60)
    ++ ":" ++ twoDigits (s mod 60).

(** A time zone whose offset from UTC never changes. *)
Definition fixedOffset (tz : JS.TimeZone) : Prop :=
  exists offset, forall t isUTC, JS.LocalTZA tz t isUTC = offset.

(** A number of seconds, not negative, that is a whole number of
    milliseconds within the range of dates. *)
Definition wholeMilliseconds (seconds : Q) : Prop :=
  exists ms : Z,
    (seconds * inject_Z 1000 == inject_Z ms)%Q /\
    (0 <= ms)%Z /\ (ms <= 8640000000000000)%Z.

(** A real that is a double: rounding leaves it as it is. *)
Definition isDouble (x : Q) : Prop :=
  exists r, JS.binary64 x = JS.Finite r /\ (r == x)%Q.

(** A missing number read as 0. *)
Definition defaultZero (x : option Q) : Q :=
  match x with
  | Some q => q
  | None => 0%Q
  end.

(** The white-space-delimited tokens of a string: its maximal runs of code
    units that are not white space, in order.  [cur] is the token being
    read. *)
Fixpoint tokensFrom (cur : string) (s : string) : list string :=
  match s with
  | EmptyString => match cur with
                   | EmptyString => []
                   | _ => [cur]
                   end
  | String c rest =>
      if JS.isWhiteSpace c then
        match cur with
        | EmptyString => tokensFrom EmptyString rest
        | _ => cur :: tokensFrom EmptyString rest
        end
      else tokensFrom (cur ++ String c EmptyString) rest
  end.

Definition tokens (s : string) : list string := tokensFrom EmptyString s.

Definition tokenCount (s : string) : nat := List.length (tokens s).

Definition startsWithWhiteSpace (s : string) : bool :=
  match s with
  | String c _ => JS.isWhiteSpace c
  | EmptyString => false
  end.

Definition nonEmpty (s : string) : bool :=
  match s with
  | EmptyString => false
  | String _ _ => true
  end.

Fixpoint noWhiteSpace (s : string) : bool :=
  match s with
  | EmptyString => true
  | String c rest => negb (JS.isWhiteSpace c) && noWhiteSpace rest
  end.

(** ** Events of interest *)

Definition callOf (ev : Event) : Call :=
  match ev with
  | Completed c => c
  | Raised c _ => c
  end.

(** The event of a call that raised. *)
Definition raised (ev : Event) : Prop := exists c e, ev = Raised c e.



Definition isGenerateObject (c : Call) : bool :=
  match c with
  | GenerateObject _ _ _ => true
  | _ => false
  end.

Definition isUpdate (c : Call) : bool :=
  match c with
  | UpdateQuickStartQuestions _ _ => true
  | _ => false
  end.

(** The event of a questions update that raised. *)
Definition raisedUpdate (ev : Event) : bool :=
  match ev with
  | Raised (UpdateQuickStartQuestions _ _) _ => true
  | _ => false
  end.

(** ** Worlds for examples *)

(** What the collaborators answer in an example. *)
Record Script : Type := {
  script_rows : list Row;
  script_entries : option (list RawEntry);
  script_language : Outcome (option string);
  script_association : option UserVideo;
  script_generation : GenerateObjectResult;
  script_tracker : Outcome unit;
  script_update : Outcome unit
}.

Definition sampleUser : User := {| user_id := "user-1" |}.

Definition sampleUserVideo : UserVideo :=
  {| uv_id := 7; uv_userId := "user-1"; uv_youtubeId := "video-1";
     uv_summary := "" |}.

(** Minutes and seconds, as a stand-in for the imported [formatTime]. *)
Definition sampleFormatTime (seconds : Q) : string :=
  let s := Qfloor seconds in
  DateFns.pad2 (s / 60) ++ ":" ++ DateFns.pad2 (s mod 60).

(** A zone seven hours east of Greenwich that never changes its offset. *)
Definition sevenHoursEast : JS.TimeZone :=
  {| JS.LocalTZA := fun _ _ => 25200000%Z |}.

(** The zone of Greenwich. *)
Definition greenwich : JS.TimeZone := {| JS.LocalTZA := fun _ _ => 0%Z |}.

(** A zone on UTC that moves its clocks an hour forward one hour after the
    epoch. *)
Definition springForward : JS.TimeZone :=
  {| JS.LocalTZA := fun t _ => if (t <? 3600000)%Z then 0%Z else 3600000%Z |}.

Definition scriptedWorld (s : Script) : World :=
  {| Summary := string;
     timeZone := sevenHoursEast;
     formatTime := sampleFormatTime;
     getQuickStartPrompt :=
       fun lang => match lang with
                   | EN => "Suggest questions about this video."
                   | ID => "Sarankan pertanyaan tentang video ini."
                   end;
     getCurrentUser := fun _ => Return sampleUser;
     UserRepository_getPreferredLanguage := fun _ _ => script_language s;
     TranscriptRepository_getByVideoId := fun _ _ => Return (script_rows s);
     fetchTranscript := fun _ _ => Return (script_entries s);
     TranscriptRepository_upsertSegments := fun _ _ _ => Return tt;
     UserVideoRepository_getByUserAndYoutubeId :=
       fun _ _ _ => Return (script_association s);
     UserVideoRepository_upsert := fun _ _ _ _ => Return sampleUserVideo;
     generateSummary := fun _ text _ _ _ => Return text;
     generateObject := fun _ _ _ _ => Return (script_generation s);
     trackGenerateTextUsage := fun _ _ _ => script_tracker s;
     UserVideoRepository_updateQuickStartQuestions := fun _ _ _ => script_update s;
     Date_now := fun log => Z.of_nat (List.length log) |}.

Definition quietScript : Script :=
  {| script_rows := [];
     script_entries := None;
     script_language := Return (Some "id");
     script_association := Some sampleUserVideo;
     script_generation := {| gen_object := Some ["What is it about?"];
                             gen_totalTokens := 120 |};
     script_tracker := Return tt;
     script_update := Return tt |}.

(** Two stored rows, the later one stored first. *)
Definition shuffledRows : list Row :=
  [ {| row_id := 2; row_videoId := "video-1"; row_start := "00:00:10";
       row_end := "00:00:15"; row_text := "second"; row_isChapterStart := false |};
    {| row_id := 1; row_videoId := "video-1"; row_start := "00:00:00";
       row_end := "00:00:10"; row_text := "first"; row_isChapterStart := true |} ].

Definition shuffledScript : Script :=
  {| script_rows := shuffledRows;
     script_entries := script_entries quietScript;
     script_language := script_language quietScript;
     script_association := script_association quietScript;
     script_generation := script_generation quietScript;
     script_tracker := script_tracker quietScript;
     script_update := script_update quietScript |}.

(** Entries as the provider gives them: a fractional offset, a sentinel
    text, a missing duration. *)
Definition sampleEntries : list RawEntry :=
  [ {| entry_text := "Intro"; entry_offset := None;
       entry_duration := Some (25 # 10)%Q |};
    {| entry_text := "N/A"; entry_offset := Some (25 # 10)%Q;
       entry_duration := Some (3 # 1)%Q |};
    {| entry_text := "later on"; entry_offset := Some (36615 # 10)%Q;
       entry_duration := None |} ].

(** Nothing stored, a provider that answers [sampleEntries], and no
    association yet. *)
Definition freshScript : Script :=
  {| script_rows := [];
     script_entries := Some sampleEntries;
     script_language := script_language quietScript;
     script_association := None;
     script_generation := script_generation quietScript;
     script_tracker := script_tracker quietScript;
     script_update := script_update quietScript |}.

(** The tracker is down. *)
Definition failingTrackerScript : Script :=
  {| script_rows := script_rows quietScript;
     script_entries := script_entries quietScript;
     script_language := script_language quietScript;
     script_association := script_association quietScript;
     script_generation := script_generation quietScript;
     script_tracker := Throw "tracker down";
     script_update := script_update quietScript |}.

(** The tracker is down and so is the store of the questions. *)
Definition failingStoreScript : Script :=
  {| script_rows := script_rows quietScript;
     script_entries := script_entries quietScript;
     script_language := script_language quietScript;
     script_association := script_association quietScript;
     script_generation := script_generation quietScript;
     script_tracker := Throw "tracker down";
     script_update := Throw "database down" |}.

(** ** More events of interest *)

(** A call to the transcript provider or to the store of the segments. *)
Definition isProviderOrStore (c : Call) : bool :=
  match c with
  | FetchTranscript _ | TranscriptUpsertSegments _ _ => true
  | _ => false
  end.

Definition isUserVideoUpsert (c : Call) : bool :=
  match c with
  | UserVideoUpsert _ _ _ => true
  | _ => false
  end.

Definition isTracking (c : Call) : bool :=
  match c with
  | TrackGenerateTextUsage _ _ => true
  | _ => false
  end.

(** Whether every code unit of [s] satisfies [p]. *)
Fixpoint allChars (p : ascii -> bool) (s : string) : bool :=
  match s with
  | EmptyString => true
  | String c rest => p c && allChars p rest
  end.

(** ** More worlds for examples *)

(** The row that stores a segment. *)
Definition rowOfSegment (videoId : string) (seg : TranscriptSegment) : Row :=
  {| row_id := 0; row_videoId := videoId;
     row_start := seg_start seg; row_end := seg_end seg;
     row_text := seg_text seg; row_isChapterStart := seg_isChapterStart seg |}.

(** The store holds what the normalizer made of [sampleEntries]. *)
Definition storedScript : Script :=
  {| script_rows :=
       match normalize (scriptedWorld freshScript) sampleEntries with
       | Return segs => map (rowOfSegment "video-1") segs
       | Throw _ => []
       end;
     script_entries := None;
     script_language := script_language quietScript;
     script_association := script_association quietScript;
     script_generation := script_generation quietScript;
     script_tracker := script_tracker quietScript;
     script_update := script_update quietScript |}.



(** An entry that ends the smallest step of a double before 24 hours, as
    reals are added: 86399.5 and 0.5 - 2^-54. *)
Definition lateEntry : RawEntry :=
  {| entry_text := "late"; entry_offset := Some (172799 # 2)%Q;
     entry_duration := Some ((1 # 2) - (1 # 18014398509481984))%Q |}.

(** An entry that starts two hours in. *)
Definition twoHoursEntry : RawEntry :=
  {| entry_text := "two hours in"; entry_offset := Some (inject_Z 7200);
     entry_duration := None |}.

(** A segment with the text [text]. *)
Definition segmentOf (text : string) : TranscriptSegment :=
  {| seg_start := "00:00:00"; seg_end := "00:00:00"; seg_text := text;
     seg_isChapterStart := false |}.

(** 6000 words, the first one after a space. *)
Definition leadingSpaceSegments : list TranscriptSegment :=
  segmentOf " a" :: repeat (segmentOf "a") (Z.to_nat 5999).

(** The tracker answers and the store of the questions is down. *)
Definition failingUpdateScript : Script :=
  {| script_rows := script_rows quietScript;
     script_entries := script_entries quietScript;
     script_language := script_language quietScript;
     script_association := script_association quietScript;
     script_generation := script_generation quietScript;
     script_tracker := Return tt;
     script_update := Throw "database down" |}.

(** The world [w] with the host in the time zone [tz]. *)
Definition inTimeZone (tz : JS.TimeZone) (w : World) : World :=
  {| Summary := Summary w;
     timeZone := tz;
     formatTime := formatTime w;
     getQuickStartPrompt := getQuickStartPrompt w;
     getCurrentUser := getCurrentUser w;
     UserRepository_getPreferredLanguage := UserRepository_getPreferredLanguage w;
     TranscriptRepository_getByVideoId := TranscriptRepository_getByVideoId w;
     fetchTranscript := fetchTranscript w;
     TranscriptRepository_upsertSegments := TranscriptRepository_upsertSegments w;
     UserVideoRepository_getByUserAndYoutubeId :=
       UserVideoRepository_getByUserAndYoutubeId w;
     UserVideoRepository_upsert := UserVideoRepository_upsert w;
     generateSummary := generateSummary w;
     generateObject := generateObject w;
     trackGenerateTextUsage := trackGenerateTextUsage w;
     UserVideoRepository_updateQuickStartQuestions :=
       UserVideoRepository_updateQuickStartQuestions w;
     Date_now := Date_now w |}.

(** The world of [quietScript] with a generation service that is down. *)
Definition failingGenerationWorld : World :=
  let base := scriptedWorld quietScript in
  {| Summary := Summary base;
     timeZone := timeZone base;
     formatTime := formatTime base;
     getQuickStartPrompt := getQuickStartPrompt base;
     getCurrentUser := getCurrentUser base;
     UserRepository_getPreferredLanguage := UserRepository_getPreferredLanguage base;
     TranscriptRepository_getByVideoId := TranscriptRepository_getByVideoId base;
     fetchTranscript := fetchTranscript base;
     TranscriptRepository_upsertSegments := TranscriptRepository_upsertSegments base;
     UserVideoRepository_getByUserAndYoutubeId :=
       UserVideoRepository_getByUserAndYoutubeId base;
     UserVideoRepository_upsert := UserVideoRepository_upsert base;
     generateSummary := generateSummary base;
     generateObject := fun _ _ _ _ => Throw "model overloaded";
     trackGenerateTextUsage := trackGenerateTextUsage base;
     UserVideoRepository_updateQuickStartQuestions :=
       UserVideoRepository_updateQuickStartQuestions base;
     Date_now := Date_now base |}.

(** ** [encodeURIComponent] *)

Module URI.

(** The characters [encodeURIComponent] leaves as they are: letters,
    digits and [- _ . ! ~ * ' ( )]. *)
Definition isUnreserved (c : ascii) : bool :=
  let n := nat_of_ascii c in
  ((65 <=? n) && (n <=? 90)) || ((97 <=? n) && (n <=? 122)) ||
  ((48 <=? n) && (n <=? 57)) ||
  (n =? 45) || (n =? 95) || (n =? 46) || (n =? 33) || (n =? 126) ||
  (n =? 42) || (n =? 39) || (n =? 40) || (n =? 41).

(** An upper-case hexadecimal digit. *)
Definition hexDigit (n : nat) : ascii :=
  if n <? 10 then ascii_of_nat (48 + n) else ascii_of_nat (55 + n).

(** [%XX] for the octet [n]. *)
Definition percent (n : nat) : string :=
  String "%" (String (hexDigit (n / 16)) (String (hexDigit (n mod 16)) EmptyString)).

(** The escape of one code unit: itself when unreserved, else the octets
    of its UTF-8 encoding, one below 128 and two from 128 to 255. *)
Definition encodeUnit (c : ascii) : string :=
  let n := nat_of_ascii c in
  if isUnreserved c then String c EmptyString
  else if n <? 128 then percent n
  else percent (192 + n / 64) ++ percent (128 + n mod 64).

Fixpoint encodeURIComponent (s : string) : string :=
  match s with
  | EmptyString => EmptyString
  | String c rest => encodeUnit c ++ encodeURIComponent rest
  end.

End URI.

(** A code unit that cannot end or split a query parameter: unreserved, or
    the percent sign of an escape. *)
Definition uriSafe (c : ascii) : bool :=
  URI.isUnreserved c || Ascii.eqb c "%".

(** The 256 code units. *)
Definition allUnits : list ascii := map ascii_of_nat (seq 0 256).

(** ** [fetchVideoFromApi] and [fetchVideoDetails] (lines 36-127) *)

Module Details.

(** One size of thumbnail of the provider's answer, [{ url }]. *)
Record Thumbnail : Type := { thumb_url : option string }.

Record Thumbnails : Type := {
  thumbs_maxres : option Thumbnail;
  thumbs_standard : option Thumbnail;
  thumbs_high : option Thumbnail;
  thumbs_medium : option Thumbnail;
  thumbs_default : option Thumbnail
}.

(** The object [{}]. *)
Definition noThumbnails : Thumbnails :=
  {| thumbs_maxres := None; thumbs_standard := None; thumbs_high := None;
     thumbs_medium := None; thumbs_default := None |}.

(** The body of the provider's answer. *)
Record ApiVideo : Type := {
  api_title : string;
  api_description : option string;
  api_channelTitle : option string;
  api_publishedAt : option string;
  api_thumbnails : option Thumbnails;
  api_tags : option (list string)
}.

(** A row of the video table, and the argument of its upsert; a date is a
    [Date] object or null. *)
Record StoredVideo : Type := {
  sv_youtubeId : string;
  sv_title : string;
  sv_description : option string;
  sv_channelTitle : option string;
  sv_publishedAt : option JS.Date;
  sv_thumbnailUrl : option string;
  sv_createdAt : option JS.Date;
  sv_updatedAt : option JS.Date
}.

(** What [fetch] resolves to, as far as the source reads it. *)
Record Response : Type := {
  resp_ok : bool;
  resp_status : nat;
  resp_statusText : string
}.

(** What [fetchVideoDetails] resolves to; [video] is present on the path
    of a stored video only. *)
Record VideoDetails : Type := {
  title : string;
  description : option string;
  channelTitle : option string;
  publishedAt : option string;
  thumbnails : option Thumbnails;
  tags : option (list string);
  userVideo : option UserVideo;
  video : option StoredVideo
}.

Inductive Call : Type :=
| GetCurrentUser
| VideoGetByYoutubeId (videoId : string)
| UserVideoGetByUserAndYoutubeId (userId videoId : string)
| Fetch (url apiKey : string)
| ResponseJson
| VideoUpsert (row : StoredVideo)
| NewDate
| Console (message : string).

Inductive Event : Type :=
| Completed (c : Call)
| Raised (c : Call) (e : Error).

Definition Log : Type := list Event.

Definition callOf (ev : Event) : Call :=
  match ev with
  | Completed c => c
  | Raised c _ => c
  end.

(** The environment, the built-in date functions and the collaborators of
    these two functions.  [Date_parse] is [new Date(text)], which is an
    invalid date when the text cannot be read; [toISOString] is the ISO
    string of the time value of a valid date. *)
Record World : Type := {
  API_BASE_URL : string;
  API_X_HEADER_API_KEY : string;
  Date_parse : string -> JS.Date;
  toISOString : Z -> string;
  getCurrentUser : Log -> Outcome User;
  VideoRepository_getByYoutubeId : Log -> string -> Outcome (option StoredVideo);
  UserVideoRepository_getByUserAndYoutubeId :
    Log -> string -> string -> Outcome (option UserVideo);
  fetch : Log -> string -> string -> Outcome Response;
  Response_json : Log -> Outcome ApiVideo;
  VideoRepository_upsert : Log -> StoredVideo -> Outcome StoredVideo;
  Date_now : Log -> Z
}.

Definition M (A : Type) : Type := Log -> Outcome A * Log.

Definition ret {A : Type} (a : A) : M A := fun log => (Return a, log).

Definition bind {A B : Type} (m : M A) (k : A -> M B) : M B :=
  fun log =>
    match m log with
    | (Return a, log') => k a log'
    | (Throw e, log') => (Throw e, log')
    end.

Definition throw {A : Type} (e : Error) : M A := fun log => (Throw e, log).

Definition try_catch {A : Type} (m : M A) (handler : Error -> M A) : M A :=
  fun log =>
    match m log with
    | (Return a, log') => (Return a, log')
    | (Throw e, log') => handler e log'
    end.

Definition perform {A : Type} (c : Call) (answer : Log -> Outcome A) : M A :=
  fun log =>
    match answer log with
    | Return a => (Return a, (log ++ [Completed c])%list)
    | Throw e => (Throw e, (log ++ [Raised c e])%list)
    end.

Definition console (message : string) : M unit :=
  fun log => (Return tt, (log ++ [Completed (Console message)])%list).

(** An expression that calls no collaborator and may throw. *)
Definition evaluate {A : Type} (o : Outcome A) : M A := fun log => (o, log).

(** [new Date()]: the time value of now. *)
Definition newDate (w : World) : M Z :=
  perform NewDate (fun log => Return (Date_now w log)).

(** [date.toISOString()]: a [RangeError] on an invalid date. *)
Definition Date_toISOString (w : World) (date : JS.Date) : Outcome string :=
  match date with
  | JS.InvalidDate => Throw "Invalid time value"
  | JS.DateOf t => Return (toISOString w t)
  end.

Declare Scope details_scope.
Notation "x <- m ;; k" := (bind m (fun x => k))
  (at level 61, m at next level, right associativity) : details_scope.
Notation "m ;; k" := (bind m (fun _ => k))
  (at level 61, right associativity) : details_scope.
Local Open Scope details_scope.

(** A number inside a template literal. *)
Definition numberToString (n : nat) : string :=
  NilEmpty.string_of_uint (Nat.to_uint n).

(** Lines 37-43: the address asked and the key sent with it. *)
Definition requestUrl (w : World) (videoId : string) : string :=
  let videoUrl := "https://www.youtube.com/watch?v=" ++ videoId in
  let encodedUrl := URI.encodeURIComponent videoUrl in
  API_BASE_URL w ++ "/youtube/video?videoUrl=" ++ encodedUrl.

Definition fetchVideoFromApi (w : World) (videoId : string) : M ApiVideo :=
  response <- perform (Fetch (requestUrl w videoId) (API_X_HEADER_API_KEY w))
                (fun log => fetch w log (requestUrl w videoId)
                              (API_X_HEADER_API_KEY w)) ;;
  if negb (resp_ok response) then
    throw ("Failed to fetch video details: "
             ++ numberToString (resp_status response) ++ " "
             ++ resp_statusText response)
  else perform ResponseJson (Response_json w).

(** [thumbnails?.size?.url]. *)
Definition urlOf (thumbs : option Thumbnails)
  (size : Thumbnails -> option Thumbnail) : option string :=
  match thumbs with
  | Some t => match size t with
              | Some thumb => thumb_url thumb
              | None => None
              end
  | None => None
  end.

(** [a || b || ...] over strings that may be missing: the first one that
    is given and not empty. *)
Fixpoint firstTruthy (candidates : list (option string)) : option string :=
  match candidates with
  | [] => None
  | Some s :: rest => if (s =? "")%string then firstTruthy rest else Some s
  | None :: rest => firstTruthy rest
  end.

(** [x || ""]. *)
Definition orEmptyString (x : option string) : string :=
  match x with
  | Some s => s
  | None => EmptyString
  end.

(** [s ? new Date(s) : null]. *)
Definition dateOrNull (w : World) (s : option string) : option JS.Date :=
  match s with
  | Some EmptyString | None => None
  | Some text => Some (Date_parse w text)
  end.

(** Lines 66-71, the thumbnail kept when a stored video is refreshed. *)
Definition refreshedThumbnail (data : ApiVideo) : option string :=
  firstTruthy [ urlOf (api_thumbnails data) thumbs_high;
                urlOf (api_thumbnails data) thumbs_medium;
                urlOf (api_thumbnails data) thumbs_default ].

(** Lines 96-102, the thumbnail kept when a video is first stored. *)
Definition firstThumbnail (data : ApiVideo) : option string :=
  Some (orEmptyString
          (firstTruthy [ urlOf (api_thumbnails data) thumbs_maxres;
                         urlOf (api_thumbnails data) thumbs_standard;
                         urlOf (api_thumbnails data) thumbs_high;
                         urlOf (api_thumbnails data) thumbs_medium;
                         urlOf (api_thumbnails data) thumbs_default ])).

(** Line 59, [existingVideo.channelTitle === "Unknown Channel"]. *)
Definition isUnknownChannel (existingVideo : StoredVideo) : bool :=
  match sv_channelTitle existingVideo with
  | Some c => (c =? "Unknown Channel")%string
  | None => false
  end.

(** Line 80, [existingVideo.publishedAt?.toISOString()]. *)
Definition publishedAtOf (w : World) (existingVideo : StoredVideo)
  : Outcome (option string) :=
  match sv_publishedAt existingVideo with
  | None => Return None
  | Some date => andThen (Date_toISOString w date) (fun iso => Return (Some iso))
  end.

(** The object of lines 76-85, once [publishedAt] is known. *)
Definition detailsOfStored (existingVideo : StoredVideo)
  (uv : option UserVideo) (published : option string) : VideoDetails :=
  {| title := sv_title existingVideo;
     description := Some (orEmptyString (sv_description existingVideo));
     channelTitle := Some (orEmptyString (sv_channelTitle existingVideo));
     publishedAt := published;
     thumbnails :=
       Some {| thumbs_maxres := None; thumbs_standard := None;
               thumbs_high :=
                 Some {| thumb_url :=
                           Some (orEmptyString (sv_thumbnailUrl existingVideo)) |};
               thumbs_medium := None; thumbs_default := None |};
     tags := Some [];
     userVideo := uv;
     video := Some existingVideo |}.

(** Lines 76-85. *)
Definition storedDetails (w : World) (existingVideo : StoredVideo)
  (uv : option UserVideo) : Outcome VideoDetails :=
  andThen (publishedAtOf w existingVideo) (fun published =>
  Return (detailsOfStored existingVideo uv published)).

(** Lines 105-113. *)
Definition fetchedDetails (data : ApiVideo) (uv : option UserVideo)
  : VideoDetails :=
  {| title := api_title data;
     description := api_description data;
     channelTitle := api_channelTitle data;
     publishedAt := api_publishedAt data;
     thumbnails := api_thumbnails data;
     tags := api_tags data;
     userVideo := uv;
     video := None |}.

(** Lines 117-125. *)
Definition placeholderDetails (videoId : string) (isoNow : string)
  : VideoDetails :=
  {| title := "Video " ++ videoId;
     description := Some "Unable to load video description.";
     channelTitle := Some "Unknown Channel";
     publishedAt := Some isoNow;
     thumbnails := Some noThumbnails;
     tags := Some [];
     userVideo := None;
     video := None |}.

(** The body of the [try] block (lines 54-113). *)
Definition fetchVideoDetails_try (w : World) (videoId : string) : M VideoDetails :=
  user <- perform GetCurrentUser (getCurrentUser w) ;;
  existing <- perform (VideoGetByYoutubeId videoId)
                (fun log => VideoRepository_getByYoutubeId w log videoId) ;;
  uv <- perform (UserVideoGetByUserAndYoutubeId (user_id user) videoId)
          (fun log => UserVideoRepository_getByUserAndYoutubeId w log
                        (user_id user) videoId) ;;
  match existing with
  | Some existingVideo =>
      if isUnknownChannel existingVideo then
        videoDetails <- fetchVideoFromApi w videoId ;;
        createdAt <- newDate w ;;
        updatedAt <- newDate w ;;
        let row :=
          {| sv_youtubeId := videoId;
             sv_title := api_title videoDetails;
             sv_description := api_description videoDetails;
             sv_channelTitle := api_channelTitle videoDetails;
             sv_publishedAt := dateOrNull w (api_publishedAt videoDetails);
             sv_thumbnailUrl := refreshedThumbnail videoDetails;
             sv_createdAt := Some (JS.DateOf createdAt);
             sv_updatedAt := Some (JS.DateOf updatedAt) |} in
        refreshed <- perform (VideoUpsert row)
                       (fun log => VideoRepository_upsert w log row) ;;
        evaluate (storedDetails w refreshed uv)
      else evaluate (storedDetails w existingVideo uv)
  | None =>
      data <- fetchVideoFromApi w videoId ;;
      let row :=
        {| sv_youtubeId := videoId;
           sv_title := api_title data;
           sv_description := api_description data;
           sv_channelTitle := api_channelTitle data;
           sv_publishedAt := dateOrNull w (api_publishedAt data);
           sv_thumbnailUrl := firstThumbnail data;
           sv_createdAt := None;
           sv_updatedAt := None |} in
      perform (VideoUpsert row) (fun log => VideoRepository_upsert w log row) ;;
      ret (fetchedDetails data uv)
  end.

Definition fetchVideoDetails (w : World) (videoId : string) : M VideoDetails :=
  try_catch (fetchVideoDetails_try w videoId)
    (fun _ =>
       console "Error fetching video details:" ;;
       erroredAt <- newDate w ;;
       ret (placeholderDetails videoId (toISOString w erroredAt))).

(** *** Events of interest *)

(** The event of a call that raised. *)
Definition raised (ev : Event) : Prop := exists c e, ev = Raised c e.

(** A request to the provider or a reading of its answer. *)
Definition isNetwork (c : Call) : bool :=
  match c with
  | Fetch _ _ | ResponseJson => true
  | _ => false
  end.

Definition isVideoUpsert (c : Call) : bool :=
  match c with
  | VideoUpsert _ => true
  | _ => false
  end.

(** A url that is missing or empty. *)
Definition noUrl (x : option string) : Prop := x = None \/ x = Some "".

(** *** A world for examples *)

(** What the collaborators of [fetchVideoDetails] answer in an example. *)
Record Script : Type := {
  script_stored : option StoredVideo;
  script_response : Outcome Response;
  script_body : Outcome ApiVideo;
  script_upsert : StoredVideo -> Outcome StoredVideo
}.

Definition scriptedWorld (s : Script) : World :=
  {| API_BASE_URL := "https://api.example.test";
     API_X_HEADER_API_KEY := "secret";
     Date_parse := fun text =>
                     if (text =? "2024-01-02T03:04:05Z")%string
                     then JS.DateOf 1704164645000
                     else JS.InvalidDate;
     toISOString := fun _ => "1970-01-01T00:00:00.000Z";
     getCurrentUser := fun _ => Return sampleUser;
     VideoRepository_getByYoutubeId := fun _ _ => Return (script_stored s);
     UserVideoRepository_getByUserAndYoutubeId := fun _ _ _ => Return None;
     fetch := fun _ _ _ => script_response s;
     Response_json := fun _ => script_body s;
     VideoRepository_upsert := fun _ row => script_upsert s row;
     Date_now := fun log => Z.of_nat (List.length log) |}.

Definition okResponse : Response :=
  {| resp_ok := true; resp_status := 200; resp_statusText := "OK" |}.

Definition notFound : Response :=
  {| resp_ok := false; resp_status := 404; resp_statusText := "Not Found" |}.

(** An answer of the provider with a high and a maxres thumbnail. *)
Definition sampleBody : ApiVideo :=
  {| api_title := "A talk";
     api_description := Some "About things";
     api_channelTitle := Some "A channel";
     api_publishedAt := Some "2024-01-02T03:04:05Z";
     api_thumbnails :=
       Some {| thumbs_maxres := Some {| thumb_url := Some "https://img/maxres.jpg" |};
               thumbs_standard := None;
               thumbs_high := Some {| thumb_url := Some "https://img/high.jpg" |};
               thumbs_medium := None;
               thumbs_default := None |};
     api_tags := Some ["talk"] |}.

(** A stored video whose channel is not known yet. *)
Definition staleVideo : StoredVideo :=
  {| sv_youtubeId := "dQw4w9WgXcQ";
     sv_title := "Video dQw4w9WgXcQ";
     sv_description := None;
     sv_channelTitle := Some "Unknown Channel";
     sv_publishedAt := None;
     sv_thumbnailUrl := None;
     sv_createdAt := Some (JS.DateOf 1);
     sv_updatedAt := Some (JS.DateOf 1) |}.

(** A stored video with its channel, and no description. *)
Definition knownVideo : StoredVideo :=
  {| sv_youtubeId := "dQw4w9WgXcQ";
     sv_title := "A talk";
     sv_description := None;
     sv_channelTitle := Some "A channel";
     sv_publishedAt := Some (JS.DateOf 1704164645000);
     sv_thumbnailUrl := Some "https://img/high.jpg";
     sv_createdAt := Some (JS.DateOf 1);
     sv_updatedAt := Some (JS.DateOf 1) |}.

(** A store that gives back the row it was given. *)
Definition storeAsGiven (row : StoredVideo) : StoredVideo := row.

Definition freshScript : Script :=
  {| script_stored := None;
     script_response := Return okResponse;
     script_body := Return sampleBody;
     script_upsert := fun row => Return row |}.

Definition staleScript : Script :=
  {| script_stored := Some staleVideo;
     script_response := Return okResponse;
     script_body := Return sampleBody;
     script_upsert := fun row => Return row |}.

Definition knownScript : Script :=
  {| script_stored := Some knownVideo;
     script_response := Throw "offline";
     script_body := Throw "offline";
     script_upsert := fun _ => Throw "offline" |}.

(** The provider's answer with a publication date that cannot be read. *)
Definition undatedBody : ApiVideo :=
  {| api_title := api_title sampleBody;
     api_description := api_description sampleBody;
     api_channelTitle := api_channelTitle sampleBody;
     api_publishedAt := Some "not a date";
     api_thumbnails := api_thumbnails sampleBody;
     api_tags := api_tags sampleBody |}.

Definition undatedScript : Script :=
  {| script_stored := Some staleVideo;
     script_response := Return okResponse;
     script_body := Return undatedBody;
     script_upsert := fun row => Return row |}.

Definition notFoundScript : Script :=
  {| script_stored := None;
     script_response := Return notFound;
     script_body := Return sampleBody;
     script_upsert := fun row => Return row |}.

End Details.

(** * Properties *)

Lemma prefix_app (p s : string) :
  String.prefix p s = true <-> exists b, s = p ++ b.
Proof.
  revert s; induction p as [|a p IH]; intros s; simpl.
  - destruct s; split; eauto.
  - destruct s as [|b s]; simpl.
    + split; [discriminate | intros [x Hx]; discriminate].
    + destruct (ascii_dec a b) as [->|Hab].
      * rewrite IH. split; intros [x Hx]; exists x; congruence.
      * split; [discriminate | intros [x Hx]; congruence].
Qed.

Lemma includes_spec (s sub : string) :
  JS.includes s sub = true <-> exists a b, s = a ++ sub ++ b.
Proof.
  induction s as [|c s IH]; cbn [JS.includes].
  - rewrite orb_false_r, prefix_app. split.
    + intros [b Hb]. exists "", b. exact Hb.
    + intros [a [b Hab]]. destruct a; [eauto | discriminate].
  - rewrite orb_true_iff, prefix_app, IH. split.
    + intros [[b Hb] | [a [b Hab]]].
      * exists "", b. exact Hb.
      * exists (String c a), b. simpl. congruence.
    + intros [a [b Hab]]. destruct a as [|c' a]; simpl in Hab.
      * left. eauto.
      * right. exists a, b. congruence.
Qed.

(** The heuristic of lines 169-172 answers true exactly when [t] has fewer
    than 30 code units, does not contain "segment", is not "N/A", and [i]
    is 0 or a multiple of 10. *)
Lemma isChapterStart_iff (t : string) (i : nat) :
  isChapterStart t i = true <->
  (String.length t < 30)%nat /\
  ~ (exists a b, t = a ++ "segment" ++ b) /\
  t <> "N/A" /\
  (i = 0%nat \/ i mod 10 = 0%nat).
Proof.
  unfold isChapterStart.
  rewrite !andb_true_iff, orb_true_iff, !negb_true_iff.
  rewrite Nat.ltb_lt, !Nat.eqb_eq, String.eqb_neq.
  rewrite <- includes_spec, not_true_iff_false.
  tauto.
Qed.

(** ** Running computations *)

Ltac unfold_run :=
  unfold try_catch, bind, ret, throw, console, now, evaluate,
    await_getCurrentUser, await_getPreferredLanguage, await_getByVideoId,
    await_fetchTranscript, await_upsertSegments, await_getByUserAndYoutubeId,
    await_upsertUserVideo, await_generateSummary, await_generateObject,
    await_trackGenerateTextUsage, await_updateQuickStartQuestions, perform.

(** The log after a run, as the log before and the events added. *)
Ltac added_events :=
  repeat rewrite <- app_assoc; cbn [app]; try reflexivity.

(** *** Language resolution *)

Lemma acceptedLanguage_ID (saved : option string) :
  acceptedLanguage saved = ID <-> saved = Some "id".
Proof.
  unfold acceptedLanguage. destruct saved as [s|]; [|split; discriminate].
  destruct (String.eqb_spec s "en") as [->|Hen].
  - split; discriminate.
  - destruct (String.eqb_spec s "id") as [->|Hid].
    + split; reflexivity.
    + split; [discriminate | intros [= ->]; contradiction].
Qed.

Lemma acceptedLanguage_other (saved : option string) :
  saved <> Some "en" -> saved <> Some "id" -> acceptedLanguage saved = EN.
Proof.
  intros Hen Hid. unfold acceptedLanguage. destruct saved as [s|]; [|reflexivity].
  destruct (String.eqb_spec s "en"); [reflexivity|].
  destruct (String.eqb_spec s "id") as [->|]; [contradiction | reflexivity].
Qed.

(** The three ways the resolution can go, with the events each adds. *)
Lemma resolveUserLanguage_run (w : World) (message : string) (log : Log) :
  match getCurrentUser w log with
  | Throw e =>
      resolveUserLanguage w message log =
      (Return EN, (log ++ [Raised GetCurrentUser e; Completed (Console message)])%list)
  | Return user =>
      let call := GetPreferredLanguage (user_id user) in
      match UserRepository_getPreferredLanguage w
              (log ++ [Completed GetCurrentUser])%list (user_id user) with
      | Throw e =>
          resolveUserLanguage w message log =
          (Return EN, (log ++ [Completed GetCurrentUser; Raised call e;
                               Completed (Console message)])%list)
      | Return saved =>
          resolveUserLanguage w message log =
          (Return (acceptedLanguage saved),
           (log ++ [Completed GetCurrentUser; Completed call])%list)
      end
  end.
Proof.
  unfold resolveUserLanguage. unfold_run.
  destruct (getCurrentUser w log) as [user|e]; cbn.
  - destruct (UserRepository_getPreferredLanguage w _ (user_id user)) as [saved|e];
      cbn; f_equal; added_events.
  - f_equal; added_events.
Qed.

(** C8.  Language resolution never raises.  It answers ['id'] exactly when
    the session gives a user and the stored preference of that user is
    ['id']; when the session or the preference lookup raises, or the stored
    value is neither ['en'] nor ['id'], it answers ['en']. *)
Theorem language_resolution (w : World) (message : string) (log : Log) :
  exists (lang : Lang) (log' : Log),
    resolveUserLanguage w message log = (Return lang, log') /\
    (lang = ID <->
       exists user,
         getCurrentUser w log = Return user /\
         UserRepository_getPreferredLanguage w
           (log ++ [Completed GetCurrentUser])%list (user_id user)
         = Return (Some "id")) /\
    ((exists e, getCurrentUser w log = Throw e) -> lang = EN) /\
    (forall user,
        getCurrentUser w log = Return user ->
        (exists e, UserRepository_getPreferredLanguage w
                     (log ++ [Completed GetCurrentUser])%list (user_id user)
                   = Throw e) ->
        lang = EN) /\
    (forall user saved,
        getCurrentUser w log = Return user ->
        UserRepository_getPreferredLanguage w
          (log ++ [Completed GetCurrentUser])%list (user_id user)
        = Return saved ->
        saved <> Some "en" -> saved <> Some "id" -> lang = EN).
Proof.
  pose proof (resolveUserLanguage_run w message log) as Hrun.
  destruct (getCurrentUser w log) as [user|e] eqn:Huser.
  - cbn zeta in Hrun.
    destruct (UserRepository_getPreferredLanguage w _ (user_id user))
      as [saved|e] eqn:Hsaved.
    + exists (acceptedLanguage saved); eexists. split; [exact Hrun|].
      repeat split.
      * intros Hid. exists user. split; [reflexivity|].
        apply acceptedLanguage_ID in Hid. congruence.
      * intros [user' [[= <-] Hid]]. apply acceptedLanguage_ID. congruence.
      * intros [e He]; discriminate.
      * intros user' [= <-] [e He]. congruence.
      * intros user' saved' [= <-] Hsaved' Hen Hid.
        apply acceptedLanguage_other; congruence.
    + exists EN; eexists. split; [exact Hrun|].
      repeat split; try reflexivity; try discriminate.
      intros [user' [[= <-] Hid]]. congruence.
  - exists EN; eexists. split; [exact Hrun|].
    repeat split; try reflexivity; try discriminate.
    intros [user' [Hu _]]; discriminate.
Qed.

(** The resolution adds events to the log and always answers. *)
Lemma resolveUserLanguage_returns (w : World) (message : string) (log : Log) :
  exists (lang : Lang) (added : list Event),
    resolveUserLanguage w message log = (Return lang, (log ++ added)%list) /\
    Forall (fun ev => exists c, (ev = Completed c \/ exists e, ev = Raised c e) /\
                      (c = GetCurrentUser \/ c = Console message \/
                       exists u, c = GetPreferredLanguage u)) added.
Proof.
  pose proof (resolveUserLanguage_run w message log) as Hrun.
  destruct (getCurrentUser w log) as [user|e].
  - cbn zeta in Hrun.
    destruct (UserRepository_getPreferredLanguage w _ (user_id user)) as [saved|e];
      do 2 eexists; (split; [exact Hrun|]);
      repeat constructor; eauto 8.
  - do 2 eexists; (split; [exact Hrun|]); repeat constructor; eauto 8.
Qed.

(** *** The summary orchestrator *)


(** *** The transcript cache *)

(** Destructs the answer of the next collaborator call of a run. *)
Ltac next_answer :=
  match goal with
  | |- context [match ?x with _ => _ end] =>
      lazymatch type of x with
      | Outcome _ => destruct x eqn:?
      | option _ => destruct x eqn:?
      | list _ => destruct x eqn:?
      | bool => destruct x eqn:?
      end
  end.

Ltac run_step := next_answer; cbn -[JS.sort normalize Nat.ltb].








(** *** [ToNumber] of a clock string *)

Lemma occurs_app (c : ascii) (a b : string) :
  occurs c (a ++ b) = occurs c a || occurs c b.
Proof.
  induction a as [|d a IH]; cbn; [reflexivity|].
  rewrite IH. apply orb_assoc.
Qed.

Lemma digitValue_colon (radix : nat) : JS.digitValue radix ":" = None.
Proof. reflexivity. Qed.

Lemma digitsValue_no_colon (radix : nat) (s : string) :
  forall acc v, JS.digitsValue radix acc s = Some v -> occurs ":" s = false.
Proof.
  induction s as [|c s IH]; intros acc v H; cbn in *; [reflexivity|].
  destruct (Ascii.eqb_spec c ":") as [->|Hc].
  - rewrite digitValue_colon in H. discriminate.
  - cbn. destruct (JS.digitValue radix c); [eauto | discriminate].
Qed.

Lemma isDigit_not_colon (c : ascii) : JS.isDigit c = true -> Ascii.eqb c ":" = false.
Proof.
  intros H. destruct (Ascii.eqb_spec c ":") as [->|]; [discriminate H | reflexivity].
Qed.

Lemma span_isDigit (s : string) :
  forall a b, JS.span JS.isDigit s = (a, b) ->
              s = a ++ b /\ occurs ":" a = false.
Proof.
  induction s as [|c s IH]; intros a b H; cbn in H.
  - injection H as <- <-. split; reflexivity.
  - destruct (JS.isDigit c) eqn:Hc.
    + destruct (JS.span JS.isDigit s) as [a' b'] eqn:Hs.
      injection H as <- <-. destruct (IH a' b' eq_refl) as [-> Ha].
      split; [reflexivity|]. cbn. rewrite Ha, (isDigit_not_colon c Hc). reflexivity.
    + injection H as <- <-. split; reflexivity.
Qed.

Lemma DecimalDigits_no_colon (s : string) (v : Z) :
  JS.DecimalDigits s = Some v -> occurs ":" s = false.
Proof.
  unfold JS.DecimalDigits. destruct s; [discriminate|].
  apply digitsValue_no_colon.
Qed.

Lemma SignedInteger_no_colon (s : string) (v : Z) :
  JS.SignedInteger s = Some v -> occurs ":" s = false.
Proof.
  unfold JS.SignedInteger. destruct s as [|c d]; [discriminate|].
  destruct (Ascii.eqb_spec c "+") as [->|Hp].
  - intros H. cbn. eapply DecimalDigits_no_colon; eauto.
  - destruct (Ascii.eqb_spec c "-") as [->|Hm].
    + intros H. cbn. destruct (JS.DecimalDigits d) eqn:Hd; [|discriminate].
      eapply DecimalDigits_no_colon; eauto.
    + apply DecimalDigits_no_colon.
Qed.

Lemma ExponentPart_no_colon (s : string) (v : Z) :
  JS.ExponentPart s = Some v -> occurs ":" s = false.
Proof.
  unfold JS.ExponentPart. destruct s as [|c r]; [reflexivity|].
  destruct (Ascii.eqb c "e" || Ascii.eqb c "E")%bool eqn:He; [|discriminate].
  intros H. cbn. rewrite (SignedInteger_no_colon r v H), orb_false_r.
  apply orb_true_iff in He.
  destruct He as [He|He]; apply Ascii.eqb_eq in He; subst c; reflexivity.
Qed.

Lemma StrUnsignedDecimalLiteral_no_colon (s : string) (v : JS.Number) :
  JS.StrUnsignedDecimalLiteral s = Some v -> occurs ":" s = false.
Proof.
  unfold JS.StrUnsignedDecimalLiteral.
  destruct (String.eqb_spec s "Infinity") as [->|_]; [reflexivity|].
  destruct (JS.span JS.isDigit s) as [ip r1] eqn:Hip.
  destruct (span_isDigit _ _ _ Hip) as [-> Hipc].
  assert (Hfrac : forall fp r2,
             match r1 with
             | String c r => if Ascii.eqb c "." then JS.span JS.isDigit r
                             else (EmptyString, r1)
             | EmptyString => (EmptyString, r1)
             end = (fp, r2) ->
             occurs ":" r2 = false -> occurs ":" r1 = false).
  { intros fp r2 H Hr2. destruct r1 as [|c r]; [reflexivity|].
    destruct (Ascii.eqb_spec c ".") as [->|_].
    - destruct (span_isDigit _ _ _ H) as [-> Hfp].
      cbn. rewrite occurs_app, Hfp, Hr2. reflexivity.
    - injection H as <- <-. exact Hr2. }
  destruct (match r1 with
            | String c r => _
            | EmptyString => _
            end) as [fp r2] eqn:Hfp.
  destruct ((ip =? "") && (fp =? ""))%string; [discriminate|].
  destruct (JS.digitsValue 10 0 (ip ++ fp)); [|discriminate].
  destruct (JS.ExponentPart r2) as [e|] eqn:He; [|discriminate].
  intros _. rewrite occurs_app, Hipc.
  exact (Hfrac fp r2 eq_refl (ExponentPart_no_colon r2 e He)).
Qed.

Lemma radixOf_not_colon (c : ascii) (r : nat) :
  JS.radixOf c = Some r -> Ascii.eqb c ":" = false.
Proof.
  intros H. destruct (Ascii.eqb_spec c ":") as [->|]; [discriminate H | reflexivity].
Qed.

Lemma NonDecimalIntegerLiteral_no_colon (s : string) (v : JS.Number) :
  JS.NonDecimalIntegerLiteral s = Some v -> occurs ":" s = false.
Proof.
  unfold JS.NonDecimalIntegerLiteral.
  destruct s as [|z [|c ds]]; try discriminate.
  destruct (Ascii.eqb_spec z "0") as [->|_]; [|discriminate].
  destruct (JS.radixOf c) as [r|] eqn:Hr; [|discriminate].
  destruct ds as [|d ds]; [discriminate|].
  destruct (JS.digitsValue r 0 (String d ds)) as [n|] eqn:Hn; [|discriminate].
  intros _. cbn [occurs]. rewrite (radixOf_not_colon c r Hr).
  change (Ascii.eqb "0" ":") with false. cbn [orb].
  exact (digitsValue_no_colon r _ _ _ Hn).
Qed.

Lemma StrNumericLiteral_no_colon (s : string) (v : JS.Number) :
  JS.StrNumericLiteral s = Some v -> occurs ":" s = false.
Proof.
  unfold JS.StrNumericLiteral.
  destruct (JS.NonDecimalIntegerLiteral s) as [n|] eqn:Hn.
  - intros _. eapply NonDecimalIntegerLiteral_no_colon; eauto.
  - destruct s as [|c r]; [discriminate|].
    destruct (Ascii.eqb_spec c "+") as [->|_].
    + intros H. cbn. eapply StrUnsignedDecimalLiteral_no_colon; eauto.
    + destruct (Ascii.eqb_spec c "-") as [->|_].
      * destruct (JS.StrUnsignedDecimalLiteral r) eqn:Hr; [|discriminate].
        intros _. cbn. eapply StrUnsignedDecimalLiteral_no_colon; eauto.
      * apply StrUnsignedDecimalLiteral_no_colon.
Qed.

Lemma isWhiteSpace_not_colon (c : ascii) :
  JS.isWhiteSpace c = true -> Ascii.eqb c ":" = false.
Proof.
  intros H. destruct (Ascii.eqb_spec c ":") as [->|]; [discriminate H | reflexivity].
Qed.

Lemma trimStart_occurs (s : string) :
  occurs ":" (JS.trimStart s) = occurs ":" s.
Proof.
  induction s as [|c s IH]; cbn; [reflexivity|].
  destruct (JS.isWhiteSpace c) eqn:Hc; [|reflexivity].
  rewrite IH, (isWhiteSpace_not_colon c Hc). reflexivity.
Qed.

Lemma trimEnd_occurs (s : string) :
  occurs ":" (JS.trimEnd s) = occurs ":" s.
Proof.
  induction s as [|c s IH]; cbn; [reflexivity|].
  destruct (JS.trimEnd s) as [|d r]; cbn in *.
  - rewrite <- IH, orb_false_r.
    destruct (JS.isWhiteSpace c) eqn:Hc; cbn.
    + symmetry. apply isWhiteSpace_not_colon, Hc.
    + apply orb_false_r.
  - rewrite IH. reflexivity.
Qed.

(** A string in which a colon occurs is no numeric literal. *)
Lemma StringToNumber_colon (s : string) :
  occurs ":" s = true -> JS.StringToNumber s = JS.NaN.
Proof.
  intros Hs. unfold JS.StringToNumber, JS.trim.
  assert (Ht : occurs ":" (JS.trimEnd (JS.trimStart s)) = true)
    by (rewrite trimEnd_occurs, trimStart_occurs; exact Hs).
  destruct (JS.trimEnd (JS.trimStart s)) as [|c t]; [discriminate Ht|].
  destruct (JS.StrNumericLiteral (String c t)) as [v|] eqn:Hv; [|reflexivity].
  apply StrNumericLiteral_no_colon in Hv. congruence.
Qed.

(** What [format(_, 'HH:mm:ss')] writes has a colon in it. *)
Lemma format_HHmmss_colon (tz : JS.TimeZone) (d : JS.Date) (text : string) :
  DateFns.format_HHmmss tz d = Return text -> occurs ":" text = true.
Proof.
  destruct d as [|t]; [discriminate|].
  unfold DateFns.format_HHmmss, DateFns.pad2. intros H. injection H as <-.
  cbn. rewrite !orb_true_r. reflexivity.
Qed.

(** *** The sort of line 141 *)

Lemma sort_incomparable {A : Type} (comparefn : A -> A -> JS.Number) (l : list A) :
  (forall x y, In x l -> In y l -> comparefn x y = JS.NaN) ->
  JS.sort comparefn l = l.
Proof.
  induction l as [|x l IH]; intros Hnan; cbn; [reflexivity|].
  fold (JS.sort comparefn l). rewrite IH by (intros; apply Hnan; right; assumption).
  destruct l as [|y l]; cbn; [reflexivity|].
  unfold JS.SortCompare. rewrite Hnan; [reflexivity | left | right; left]; reflexivity.
Qed.

(** Segments whose [start] is a clock string come out of the sort of
    line 141 in the order they went in. *)
Lemma sort_clock_strings (segs : list TranscriptSegment) :
  Forall (fun seg => occurs ":" (seg_start seg) = true) segs ->
  JS.sort compareStart segs = segs.
Proof.
  intros Hclock. apply sort_incomparable. intros x y Hx Hy.
  rewrite Forall_forall in Hclock. unfold compareStart.
  rewrite (StringToNumber_colon _ (Hclock x Hx)). reflexivity.
Qed.

(** Where the [start] fields are numeric literals the same comparator does
    order the segments, by their numeric value. *)
Example sort_numeric_starts :
  map seg_start
    (JS.sort compareStart
       (map (fun s => {| seg_start := s; seg_end := s; seg_text := "";
                         seg_isChapterStart := false |})
            ["10"; "2.5"; " 7 "; "0x03"])) =
  ["2.5"; "0x03"; " 7 "; "10"].
Proof. vm_compute. reflexivity. Qed.

(** C1, at a failing input.  Two rows are stored with the later one first;
    both [start] fields are HH:mm:ss strings.  The cached path answers
    them in the stored order, the segment starting at 00:00:10 before the
    one starting at 00:00:00: the comparator subtracts two strings that
    are no numeric literals, so it answers [NaN] and the sort moves
    nothing. *)
Theorem stored_order_is_returned :
  fst (fetchVideoTranscript (scriptedWorld shuffledScript) "video-1" []) =
  Return (available
            [ {| seg_start := "00:00:10"; seg_end := "00:00:15";
                 seg_text := "second"; seg_isChapterStart := false |};
              {| seg_start := "00:00:00"; seg_end := "00:00:10";
                 seg_text := "first"; seg_isChapterStart := true |} ]
            sampleUserVideo).
Proof. vm_compute. reflexivity. Qed.

(** The same for every stored list of rows whose [start] fields are clock
    strings: the cached path answers the rows in the stored order. *)
Lemma cached_path_keeps_stored_order (w : World) (videoId : string) (log : Log)
  (user : User) (rows : list Row) (uv : UserVideo) :
  getCurrentUser w log = Return user ->
  TranscriptRepository_getByVideoId w (log ++ [Completed GetCurrentUser])%list
    videoId = Return rows ->
  rows <> [] ->
  Forall (fun r => occurs ":" (row_start r) = true) rows ->
  UserVideoRepository_getByUserAndYoutubeId w
    ((log ++ [Completed GetCurrentUser])
       ++ [Completed (TranscriptGetByVideoId videoId)])%list
    (user_id user) videoId = Return (Some uv) ->
  fst (fetchVideoTranscript w videoId log) =
  Return (available (map rowToSegment rows) uv).
Proof.
  intros Huser Hrows Hne Hclock Hfound.
  unfold fetchVideoTranscript, fetchVideoTranscript_try, lookupOrCreateUserVideo.
  unfold_run. rewrite Huser, Hrows.
  destruct rows as [|r rows]; [contradiction|].
  cbn -[JS.sort]. rewrite Hfound. cbn -[JS.sort].
  rewrite sort_clock_strings; [reflexivity|].
  change (rowToSegment r :: map rowToSegment rows) with (map rowToSegment (r :: rows)).
  rewrite Forall_map. exact Hclock.
Qed.

(** *** Doubles *)

Lemma binary64_comp (p q : Q) : (p == q)%Q -> JS.binary64 p = JS.binary64 q.
Proof. intros H. unfold JS.binary64. rewrite (Qred_complete p q H). reflexivity. Qed.

Lemma Qred_inject_Z (z : Z) : Qred (inject_Z z) = inject_Z z.
Proof.
  unfold Qred, inject_Z.
  pose proof (Z.ggcd_gcd z 1) as Hg.
  pose proof (Z.ggcd_correct_divisors z 1) as Hd.
  destruct (Z.ggcd z 1) as [g [aa bb]]. cbn [fst snd] in *.
  rewrite Z.gcd_1_r in Hg. subst g. destruct Hd as [Ha Hb].
  rewrite Z.mul_1_l in Ha, Hb. subst aa bb. reflexivity.
Qed.

Lemma roundHalfEven_integer (x : Q) (k : Z) :
  (x == inject_Z k)%Q -> JS.roundHalfEven x = k.
Proof.
  intros Hx. unfold JS.roundHalfEven.
  rewrite (Qfloor_comp x (inject_Z k) Hx), Qfloor_Z.
  assert (Hlt : (x - inject_Z k < 1 # 2)%Q)
    by (rewrite Hx; unfold Qminus; rewrite Qplus_opp_r; reflexivity).
  rewrite Qlt_alt in Hlt. rewrite Hlt. reflexivity.
Qed.

Lemma pow2_nonneg (e : Z) : (0 <= e)%Z -> JS.pow2 e = inject_Z (2 ^ e).
Proof. intros He. unfold JS.pow2. apply Z.leb_le in He. rewrite He. reflexivity. Qed.

Lemma pow2_shift (e : Z) :
  (e <= 0)%Z -> (JS.pow2 e * inject_Z (2 ^ (- e)) == 1)%Q.
Proof.
  intros He. unfold JS.pow2. destruct (0 <=? e)%Z eqn:H0.
  - apply Z.leb_le in H0. assert (e = 0%Z) as -> by lia. reflexivity.
  - assert (Hpos : (0 < 2 ^ (- e))%Z) by (apply Z.pow_pos_nonneg; lia).
    unfold Qeq, Qmult, inject_Z. cbn [Qnum Qden].
    rewrite Pos.mul_1_r, Z2Pos.id by lia. lia.
Qed.

(** A whole number below [2 ^ 53] in magnitude is a double. *)
Lemma binary64_integer (z : Z) :
  (Z.abs z < 2 ^ 53)%Z -> JS.binary64 (inject_Z z) = JS.Finite (inject_Z z).
Proof.
  intros Hz. unfold JS.binary64. rewrite Qred_inject_Z. cbv zeta.
  destruct (Z.eq_dec z 0) as [->|Hnz]; [reflexivity|].
  assert (Hq0 : Qeq_bool (inject_Z z) 0 = false).
  { apply not_true_iff_false. intros H. apply Qeq_bool_iff in H.
    unfold Qeq, inject_Z in H. cbn in H. lia. }
  rewrite Hq0.
  set (k := Z.log2 (Z.abs z)).
  assert (Habs : Qabs (inject_Z z) = inject_Z (Z.abs z)) by reflexivity.
  rewrite Habs.
  assert (Hk : (0 <= k < 53)%Z).
  { split; [apply Z.log2_nonneg|]. apply Z.log2_lt_pow2; lia. }
  assert (Hspec : (2 ^ k <= Z.abs z < 2 ^ (Z.succ k))%Z)
    by (apply Z.log2_spec; lia).
  assert (He : JS.exponentOf (inject_Z (Z.abs z)) = k).
  { unfold JS.exponentOf, inject_Z. cbn [Qnum Qden]. change (Z.log2 1) with 0%Z.
    rewrite Z.sub_0_r. fold k. rewrite pow2_nonneg by lia.
    assert (Hle : Qle_bool (inject_Z (2 ^ k)) (Z.abs z # 1) = true).
    { apply Qle_bool_iff. change (Z.abs z # 1)%Q with (inject_Z (Z.abs z)).
      rewrite <- Zle_Qle. lia. }
    rewrite Hle. reflexivity. }
  rewrite He. rewrite Z.max_l by lia.
  pose proof (pow2_shift (k - 52) ltac:(lia)) as Hs.
  replace (- (k - 52))%Z with (52 - k)%Z in Hs by lia.
  assert (Hne : ~ (JS.pow2 (k - 52) == 0)%Q).
  { intros H0. rewrite H0 in Hs. discriminate Hs. }
  assert (Hdiv : (inject_Z (Z.abs z) / JS.pow2 (k - 52)
                  == inject_Z (Z.abs z * 2 ^ (52 - k)))%Q).
  { rewrite inject_Z_mult.
    apply (Qmult_inj_r _ _ (JS.pow2 (k - 52)) Hne).
    unfold Qdiv. rewrite <- Qmult_assoc, (Qmult_comm (/ _)), Qmult_inv_r by exact Hne.
    rewrite <- Qmult_assoc, (Qmult_comm (inject_Z (2 ^ (52 - k)))), Hs. reflexivity. }
  rewrite (roundHalfEven_integer _ _ Hdiv).
  assert (Hr : (inject_Z (Z.abs z * 2 ^ (52 - k)) * JS.pow2 (k - 52)
                == inject_Z (Z.abs z))%Q).
  { rewrite inject_Z_mult.
    rewrite <- Qmult_assoc, (Qmult_comm (inject_Z (2 ^ (52 - k)))), Hs. ring. }
  assert (Hfin : Qle_bool (JS.pow2 1024)
                   (inject_Z (Z.abs z * 2 ^ (52 - k)) * JS.pow2 (k - 52)) = false).
  { apply not_true_iff_false. intros H. apply Qle_bool_iff in H.
    rewrite Hr, pow2_nonneg in H by lia. rewrite <- Zle_Qle in H.
    assert ((2 ^ 53 < 2 ^ 1024)%Z) by (apply Z.pow_lt_mono_r; lia). lia. }
  rewrite Hfin. f_equal. change (Qnum (inject_Z z)) with z.
  transitivity (Qred (inject_Z z)); [|apply Qred_inject_Z]. apply Qred_complete.
  destruct (z <? 0)%Z eqn:Hneg.
  - apply Z.ltb_lt in Hneg. rewrite Hr. rewrite <- inject_Z_opp.
    replace (- Z.abs z)%Z with z by lia. reflexivity.
  - apply Z.ltb_ge in Hneg. rewrite Hr. replace (Z.abs z) with z by lia. reflexivity.
Qed.

(** Some doubles: the one nearest to a tenth, a tie that goes to the even
    neighbour, the largest one, and the overflow from the middle between
    it and [2 ^ 1024] on. *)
Example binary64_samples :
  JS.binary64 (1 # 10) = JS.Finite (3602879701896397 # 36028797018963968) /\
  JS.binary64 (inject_Z (2 ^ 53 + 1)) = JS.Finite (inject_Z (2 ^ 53)) /\
  JS.binary64 (inject_Z (2 ^ 53 + 3)) = JS.Finite (inject_Z (2 ^ 53 + 4)) /\
  JS.binary64 (inject_Z (2 ^ 1024 - 2 ^ 970 - 1))
  = JS.Finite (inject_Z (2 ^ 1024 - 2 ^ 971)) /\
  JS.binary64 (inject_Z (2 ^ 1024 - 2 ^ 970)) = JS.Infinity false /\
  JS.binary64 (1 # 2 ^ 1075) = JS.Finite 0.
Proof. vm_compute. repeat split. Qed.

(** The rounded value of a real that is a whole number. *)
Lemma binary64_whole (x : Q) (z : Z) :
  (x == inject_Z z)%Q -> (Z.abs z < 2 ^ 53)%Z ->
  JS.binary64 x = JS.Finite (inject_Z z).
Proof.
  intros Hx Hz. rewrite (binary64_comp x (inject_Z z) Hx).
  apply binary64_integer, Hz.
Qed.

(** *** Dates *)

Lemma truncate_inject_Z (z : Z) : JS.truncate (inject_Z z) = z.
Proof.
  unfold JS.truncate. destruct (Qle_bool 0 (inject_Z z)).
  - apply Qfloor_Z.
  - apply Qceiling_Z.
Qed.

Lemma TimeClip_integer (z : Z) :
  (Z.abs z <= 8640000000000000)%Z ->
  JS.TimeClip (JS.Finite (inject_Z z)) = JS.DateOf z.
Proof.
  intros Hz. unfold JS.TimeClip.
  assert (Hle : Qle_bool (Qabs (inject_Z z)) (inject_Z 8640000000000000) = true).
  { apply Qle_bool_iff. change (Qabs (inject_Z z)) with (inject_Z (Z.abs z)).
    rewrite <- Zle_Qle. exact Hz. }
  rewrite Hle, truncate_inject_Z. reflexivity.
Qed.

(** In a zone that keeps one offset, the base date is the last local
    midnight at or before the epoch. *)
Lemma baseDate_fixedOffset (w : World) (offset : Z) :
  (forall t isUTC, JS.LocalTZA (timeZone w) t isUTC = offset) ->
  baseDate w = JS.DateOf (- (offset mod 86400000))%Z.
Proof.
  intros Hzone. unfold baseDate, JS.newDate.
  change (JS.Finite 0) with (JS.Finite (inject_Z 0)).
  rewrite TimeClip_integer by (cbn; lia).
  unfold JS.setHoursToMidnight, JS.UTC, JS.LocalTime, JS.Day, JS.msPerDay.
  rewrite !Hzone.
  pose proof (Z.mod_pos_bound offset 86400000 ltac:(lia)) as Hb.
  pose proof (Z.div_mod offset 86400000 ltac:(lia)) as Hd.
  replace (0 + offset)%Z with offset by lia.
  replace (offset / 86400000 * 86400000 - offset)%Z
    with (- (offset mod 86400000))%Z by lia.
  apply TimeClip_integer. lia.
Qed.

(** Adding a whole number of milliseconds, given in seconds, to the base
    date is exact. *)
Lemma addSeconds_whole (w : World) (offset : Z) (seconds : Q) (ms : Z) :
  (forall t isUTC, JS.LocalTZA (timeZone w) t isUTC = offset) ->
  (seconds * inject_Z 1000 == inject_Z ms)%Q ->
  (0 <= ms)%Z -> (ms <= 8640000000000000)%Z ->
  DateFns.addSeconds (baseDate w) (JS.Finite seconds)
  = JS.DateOf (ms - offset mod 86400000)%Z.
Proof.
  intros Hzone Hms Hlo Hhi.
  rewrite (baseDate_fixedOffset w offset Hzone).
  pose proof (Z.mod_pos_bound offset 86400000 ltac:(lia)) as Hb.
  assert (H53 : (2 ^ 53 = 9007199254740992)%Z) by reflexivity.
  unfold DateFns.addSeconds, DateFns.addMilliseconds, JS.newDate, JS.timeOf, JS.mul.
  rewrite (binary64_whole _ ms Hms) by lia.
  unfold JS.add.
  rewrite (binary64_whole _ (ms - offset mod 86400000)%Z).
  - apply TimeClip_integer. lia.
  - rewrite <- inject_Z_plus. apply inject_Z_injective. lia.
  - lia.
Qed.

Lemma twoDigits_pad2 (n : Z) : DateFns.pad2 n = twoDigits n.
Proof. reflexivity. Qed.

(** The local clock at a whole number of milliseconds after the base date,
    in a zone that keeps one offset, is the clock of the specification. *)
Lemma format_whole (tz : JS.TimeZone) (offset : Z) (seconds : Q) (ms : Z) :
  (forall t isUTC, JS.LocalTZA tz t isUTC = offset) ->
  (seconds * inject_Z 1000 == inject_Z ms)%Q ->
  DateFns.format_HHmmss tz (JS.DateOf (ms - offset mod 86400000)%Z)
  = Return (TimeFormatter seconds).
Proof.
  intros Hzone Hms.
  assert (Hfloor : Qfloor seconds = (ms / 1000)%Z).
  { assert (Hs : (seconds == inject_Z ms / inject_Z 1000)%Q).
    { rewrite <- Hms. field. }
    rewrite (Qfloor_comp _ _ Hs).
    unfold Qfloor, Qdiv, Qmult, Qinv, inject_Z. cbn [Qnum Qden].
    rewrite Z.mul_1_r, Pos.mul_1_l. reflexivity. }
  unfold DateFns.format_HHmmss, TimeFormatter, JS.getHours, JS.getMinutes,
    JS.getSeconds, JS.LocalTime.
  rewrite Hzone, Hfloor, !twoDigits_pad2.
  set (s := (ms / 1000)%Z).
  assert (Hh : ((ms - offset mod 86400000 + offset) / 3600000 mod 24
                = s / 3600 mod 24)%Z).
  { unfold s. Z.div_mod_to_equations. lia. }
  assert (Hm : ((ms - offset mod 86400000 + offset) / 60000 mod 60
                = s / 60 mod 60)%Z).
  { unfold s. Z.div_mod_to_equations. lia. }
  assert (Hsec : ((ms - offset mod 86400000 + offset) / 1000 mod 60
                  = s mod 60)%Z).
  { unfold s. Z.div_mod_to_equations. lia. }
  rewrite Hh, Hm, Hsec. reflexivity.
Qed.

(** *** The normalizer *)

Lemma orZero_defaultZero (x : option Q) : (orZero x == defaultZero x)%Q.
Proof.
  destruct x as [q|]; cbn; [|reflexivity].
  destruct (Qeq_bool q 0) eqn:Hq; [|reflexivity].
  apply Qeq_bool_iff in Hq. symmetry. exact Hq.
Qed.

(** A [map] that returns answers as many elements, each the callback's
    answer at its index. *)
Lemma mapFrom_Return {A B : Type} (f : A -> nat -> Outcome B) (l : list A) :
  forall k ys,
    JS.mapFrom f k l = Return ys ->
    List.length ys = List.length l /\
    forall i x, nth_error l i = Some x ->
                exists y, nth_error ys i = Some y /\ f x (k + i) = Return y.
Proof.
  induction l as [|x0 l IH]; intros k ys Hrun; cbn [JS.mapFrom] in Hrun.
  - injection Hrun as <-. split; [reflexivity|].
    intros i x Hi. destruct i; discriminate Hi.
  - destruct (f x0 k) as [y0|e] eqn:Hy0; [|discriminate Hrun].
    cbn [andThen] in Hrun.
    destruct (JS.mapFrom f (S k) l) as [ys0|e] eqn:Hrest; [|discriminate Hrun].
    cbn [andThen] in Hrun. injection Hrun as <-.
    destruct (IH (S k) ys0 Hrest) as [Hlen Hnth].
    split; [cbn; rewrite Hlen; reflexivity|].
    intros [|i] x Hi; cbn in Hi.
    + injection Hi as <-. exists y0. rewrite Nat.add_0_r. split; [reflexivity | exact Hy0].
    + destruct (Hnth i x Hi) as [y [Hy Hf]]. exists y. split; [exact Hy|].
      replace (k + S i) with (S k + i) by lia. exact Hf.
Qed.


(** A [map] whose callback throws at some index throws. *)
Lemma mapFrom_throws {A B : Type} (f : A -> nat -> Outcome B) (l : list A) :
  forall k i x e,
    nth_error l i = Some x -> f x (k + i) = Throw e ->
    exists e', JS.mapFrom f k l = Throw e'.
Proof.
  induction l as [|x0 l IH]; intros k i x e Hi Hf.
  - destruct i; discriminate Hi.
  - cbn [JS.mapFrom]. destruct i as [|i]; cbn in Hi.
    + injection Hi as ->. rewrite Nat.add_0_r in Hf. rewrite Hf. exists e. reflexivity.
    + destruct (f x0 k) as [y0|e0]; [|exists e0; reflexivity]. cbn [andThen].
      replace (k + S i) with (S k + i) in Hf by lia.
      destruct (IH (S k) i x e Hi Hf) as [e' He']. rewrite He'.
      exists e'. reflexivity.
Qed.

Lemma normalize_length (w : World) (entries : list RawEntry)
  (segs : list TranscriptSegment) :
  normalize w entries = Return segs -> List.length segs = List.length entries.
Proof. intros H. exact (proj1 (mapFrom_Return _ _ _ _ H)). Qed.

(** The segment at index [i] is the callback's answer for the entry at
    index [i]. *)
Lemma normalize_nth_error (w : World) (entries : list RawEntry)
  (segs : list TranscriptSegment) (i : nat) (item : RawEntry) :
  normalize w entries = Return segs ->
  nth_error entries i = Some item ->
  exists seg, nth_error segs i = Some seg /\ normalizeEntry w item i = Return seg.
Proof.
  intros H Hi. exact (proj2 (mapFrom_Return _ _ _ _ H) i item Hi).
Qed.

(** The segment at an index comes from the entry at that index. *)
Lemma normalize_nth_entry (w : World) (entries : list RawEntry)
  (segs : list TranscriptSegment) (i : nat) (seg : TranscriptSegment) :
  normalize w entries = Return segs ->
  nth_error segs i = Some seg ->
  exists item, nth_error entries i = Some item /\
               normalizeEntry w item i = Return seg.
Proof.
  intros H Hi.
  assert (Hlt : i < List.length entries).
  { rewrite <- (normalize_length w entries segs H).
    apply nth_error_Some. congruence. }
  destruct (nth_error entries i) as [item|] eqn:Hitem;
    [|apply nth_error_None in Hitem; lia].
  destruct (normalize_nth_error w entries segs i item H Hitem) as [seg' [Hseg' Hentry]].
  exists item. split; [reflexivity|]. congruence.
Qed.

(** What the callback answers, field by field. *)
Lemma normalizeEntry_Return (w : World) (item : RawEntry) (index : nat)
  (seg : TranscriptSegment) :
  normalizeEntry w item index = Return seg ->
  DateFns.format_HHmmss (timeZone w)
    (DateFns.addSeconds (baseDate w) (JS.Finite (orZero (entry_offset item))))
  = Return (seg_start seg) /\
  DateFns.format_HHmmss (timeZone w) (DateFns.addSeconds (baseDate w) (endOf item))
  = Return (seg_end seg) /\
  seg_text seg = (if negb (entry_text item =? "N/A")%string
                  then entry_text item
                  else "Segment at " ++ formatTime w (orZero (entry_offset item))) /\
  seg_isChapterStart seg = isChapterStart (entry_text item) index.
Proof.
  unfold normalizeEntry. cbv zeta.
  destruct (DateFns.format_HHmmss (timeZone w)
              (DateFns.addSeconds (baseDate w)
                 (JS.Finite (orZero (entry_offset item))))) as [s|e];
    [|discriminate].
  destruct (DateFns.format_HHmmss (timeZone w)
              (DateFns.addSeconds (baseDate w) (endOf item))) as [s'|e];
    [|discriminate].
  cbn [andThen]. intros H. injection H as <-. cbn. auto.
Qed.

(** Every [start] the normalizer writes is a clock string, so the rows this
    pipeline stores are rows the comparator of line 141 cannot order. *)
Lemma normalize_starts_are_clock_strings (w : World) (entries : list RawEntry)
  (segs : list TranscriptSegment) :
  normalize w entries = Return segs ->
  Forall (fun seg => occurs ":" (seg_start seg) = true) segs.
Proof.
  intros H. apply Forall_forall. intros seg Hin.
  apply In_nth_error in Hin. destruct Hin as [i Hi].
  destruct (normalize_nth_entry w entries segs i seg H Hi) as [item [_ Hentry]].
  apply normalizeEntry_Return in Hentry. destruct Hentry as [Hstart _].
  exact (format_HHmmss_colon _ _ _ Hstart).
Qed.


(** C2.  For every entry with text [t] at index [i] of a transcript that
    is normalized, the chapter-start flag of the segment at index [i] is
    set exactly when [t] has fewer than 30 code units, does not contain
    "segment", is not "N/A", and [i] is 0 or a multiple of 10. *)
Theorem chapter_flag_iff (w : World) (entries : list RawEntry)
  (segs : list TranscriptSegment) (i : nat) (item : RawEntry) :
  normalize w entries = Return segs ->
  nth_error entries i = Some item ->
  exists seg,
    nth_error segs i = Some seg /\
    (seg_isChapterStart seg = true <->
     (String.length (entry_text item) < 30)%nat /\
     ~ (exists a b, entry_text item = a ++ "segment" ++ b) /\
     entry_text item <> "N/A" /\
     (i = 0%nat \/ i mod 10 = 0%nat)).
Proof.
  intros Hnorm Hi.
  destruct (normalize_nth_error w entries segs i item Hnorm Hi) as [seg [Hseg Hentry]].
  exists seg. split; [exact Hseg|].
  apply normalizeEntry_Return in Hentry. destruct Hentry as [_ [_ [_ Hflag]]].
  rewrite Hflag. apply isChapterStart_iff.
Qed.

(** The segments of the sample entries, and the run that fetches them. *)
Example normalize_sampleEntries :
  normalize (scriptedWorld freshScript) sampleEntries =
  Return
    [ {| seg_start := "00:00:00"; seg_end := "00:00:02";
         seg_text := "Intro"; seg_isChapterStart := true |};
      {| seg_start := "00:00:02"; seg_end := "00:00:05";
         seg_text := "Segment at 00:02"; seg_isChapterStart := false |};
      {| seg_start := "01:01:01"; seg_end := "01:01:01";
         seg_text := "later on"; seg_isChapterStart := false |} ].
Proof. vm_compute. reflexivity. Qed.

Lemma chapter_flag_iff_witness :
  exists seg,
    nth_error
      [ {| seg_start := "00:00:00"; seg_end := "00:00:02";
           seg_text := "Intro"; seg_isChapterStart := true |};
        {| seg_start := "00:00:02"; seg_end := "00:00:05";
           seg_text := "Segment at 00:02"; seg_isChapterStart := false |};
        {| seg_start := "01:01:01"; seg_end := "01:01:01";
           seg_text := "later on"; seg_isChapterStart := false |} ] 0
    = Some seg /\
    (seg_isChapterStart seg = true <->
     (String.length "Intro" < 30)%nat /\
     ~ (exists a b, "Intro" = a ++ "segment" ++ b) /\
     "Intro" <> "N/A" /\
     (0 = 0%nat \/ 0 mod 10 = 0%nat)).
Proof.
  apply (chapter_flag_iff (scriptedWorld freshScript) sampleEntries _ 0
           {| entry_text := "Intro"; entry_offset := None;
              entry_duration := Some (25 # 10)%Q |});
    [vm_compute; reflexivity | reflexivity].
Defined.

Example fetch_sampleEntries :
  exists segs,
    normalize (scriptedWorld freshScript) sampleEntries = Return segs /\
    fst (fetchVideoTranscript (scriptedWorld freshScript) "video-1" []) =
    Return (available segs sampleUserVideo).
Proof. eexists. split; vm_compute; reflexivity. Qed.

(** An entry in its place: what the hypotheses of the next theorem give
    for one entry. *)
Lemma normalizeEntry_whole (w : World) (offset : Z) (item : RawEntry) (index : nat) :
  (forall t isUTC, JS.LocalTZA (timeZone w) t isUTC = offset) ->
  wholeMilliseconds (defaultZero (entry_offset item)) ->
  isDouble (defaultZero (entry_offset item) + defaultZero (entry_duration item)) ->
  wholeMilliseconds (defaultZero (entry_offset item)
                     + defaultZero (entry_duration item)) ->
  exists seg,
    normalizeEntry w item index = Return seg /\
    seg_start seg = TimeFormatter (defaultZero (entry_offset item)) /\
    seg_end seg = TimeFormatter (defaultZero (entry_offset item)
                                 + defaultZero (entry_duration item))%Q.
Proof.
  intros Hzone [ms [Hms [Hlo Hhi]]] [r [Hr Hsum]] [ms' [Hms' [Hlo' Hhi']]].
  assert (Hstart : (orZero (entry_offset item) * inject_Z 1000 == inject_Z ms)%Q)
    by (rewrite orZero_defaultZero; exact Hms).
  assert (Hend : endOf item = JS.Finite r).
  { unfold endOf, JS.add. rewrite <- Hr. apply binary64_comp.
    rewrite !orZero_defaultZero. reflexivity. }
  assert (Hend' : (r * inject_Z 1000 == inject_Z ms')%Q)
    by (rewrite Hsum; exact Hms').
  unfold normalizeEntry. cbv zeta.
  rewrite (addSeconds_whole w offset _ ms Hzone Hstart Hlo Hhi).
  rewrite (format_whole (timeZone w) offset _ ms Hzone Hstart).
  rewrite Hend, (addSeconds_whole w offset _ ms' Hzone Hend' Hlo' Hhi').
  rewrite (format_whole (timeZone w) offset _ ms' Hzone Hend').
  cbn [andThen]. eexists. split; [reflexivity|]. cbn [seg_start seg_end]. split.
  - unfold TimeFormatter. rewrite (Qfloor_comp _ _ (orZero_defaultZero _)). reflexivity.
  - unfold TimeFormatter. rewrite (Qfloor_comp _ _ Hsum). reflexivity.
Qed.




(** Why the sum has to be a double.  In the zone of Greenwich an entry
    that starts at 86399.5 and lasts 0.5 - 2^-54 ends, as reals go, before
    24 hours; the sum of line 161 is rounded to 86400, and [end] is
    00:00:00. *)
Example rounded_sum_ends_a_day_later :
  normalize (inTimeZone greenwich (scriptedWorld freshScript)) [lateEntry]
  = Return [ {| seg_start := "23:59:59"; seg_end := "00:00:00";
                seg_text := "late"; seg_isChapterStart := true |} ] /\
  TimeFormatter (defaultZero (entry_offset lateEntry)
                 + defaultZero (entry_duration lateEntry))%Q = "23:59:59".
Proof. vm_compute. split; reflexivity. Qed.

(** Why the zone has to keep its offset.  Where the clocks move an hour
    forward one hour after the epoch, an entry that starts two hours in
    gets the [start] 03:00:00. *)
Example changing_offset_shifts_the_clock :
  normalize (inTimeZone springForward (scriptedWorld freshScript)) [twoHoursEntry]
  = Return [ {| seg_start := "03:00:00"; seg_end := "03:00:00";
                seg_text := "two hours in"; seg_isChapterStart := true |} ] /\
  TimeFormatter (defaultZero (entry_offset twoHoursEntry)) = "02:00:00".
Proof. vm_compute. split; reflexivity. Qed.

(** C6.  An entry whose text is the sentinel "N/A" gives a segment whose
    text is "Segment at " followed by [formatTime] of its start offset;
    its chapter flag is the heuristic's answer on the sentinel itself,
    which is false whatever the index. *)
Theorem sentinel_placeholder (w : World) (entries : list RawEntry)
  (segs : list TranscriptSegment) (i : nat) (item : RawEntry) :
  normalize w entries = Return segs ->
  nth_error entries i = Some item ->
  entry_text item = "N/A" ->
  exists seg,
    nth_error segs i = Some seg /\
    seg_text seg = "Segment at " ++ formatTime w (orZero (entry_offset item)) /\
    seg_isChapterStart seg = isChapterStart "N/A" i /\
    seg_isChapterStart seg = false.
Proof.
  intros Hnorm Hi Hna.
  destruct (normalize_nth_error w entries segs i item Hnorm Hi) as [seg [Hseg Hentry]].
  exists seg. split; [exact Hseg|].
  apply normalizeEntry_Return in Hentry. destruct Hentry as [_ [_ [Htext Hflag]]].
  rewrite Htext, Hflag, Hna. split; [reflexivity|]. split; reflexivity.
Qed.

Lemma sentinel_placeholder_witness :
  exists seg,
    nth_error
      [ {| seg_start := "00:00:00"; seg_end := "00:00:02";
           seg_text := "Intro"; seg_isChapterStart := true |};
        {| seg_start := "00:00:02"; seg_end := "00:00:05";
           seg_text := "Segment at 00:02"; seg_isChapterStart := false |};
        {| seg_start := "01:01:01"; seg_end := "01:01:01";
           seg_text := "later on"; seg_isChapterStart := false |} ] 1
    = Some seg /\
    seg_text seg = "Segment at " ++ formatTime (scriptedWorld freshScript)
                                    (orZero (Some (25 # 10)%Q)) /\
    seg_isChapterStart seg = isChapterStart "N/A" 1 /\
    seg_isChapterStart seg = false.
Proof.
  apply (sentinel_placeholder (scriptedWorld freshScript) sampleEntries _ 1
           {| entry_text := "N/A"; entry_offset := Some (25 # 10)%Q;
              entry_duration := Some (3 # 1)%Q |});
    [vm_compute; reflexivity | reflexivity | reflexivity].
Defined.

(** The heuristic would flag the placeholder of a sentinel entry at index
    0, which is short and holds no "segment"; the flag of the segment is
    false all the same. *)
Example placeholder_is_not_what_is_tested :
  exists seg,
    normalizeEntry (scriptedWorld freshScript)
      {| entry_text := "N/A"; entry_offset := None; entry_duration := None |} 0
    = Return seg /\
    seg_text seg = "Segment at 00:00" /\
    isChapterStart (seg_text seg) 0 = true /\
    seg_isChapterStart seg = false.
Proof. eexists. vm_compute. repeat split. Qed.

(** *** The quick-start orchestrator: the transcript in the prompt *)

Lemma append_empty_r (s : string) : s ++ "" = s.
Proof. induction s as [|c s IH]; cbn; [reflexivity | rewrite IH; reflexivity]. Qed.

Lemma append_assoc (a b c : string) : (a ++ b) ++ c = a ++ b ++ c.
Proof. induction a as [|x a IH]; cbn; [reflexivity | rewrite IH; reflexivity]. Qed.

Lemma noWhiteSpace_app (a b : string) :
  noWhiteSpace (a ++ b) = noWhiteSpace a && noWhiteSpace b.
Proof.
  induction a as [|c a IH]; cbn; [reflexivity|].
  rewrite IH. apply andb_assoc.
Qed.

(** The pieces of a split hold no white space. *)
Lemma splitRun_noWhiteSpace (s : string) :
  forall inRun cur,
    noWhiteSpace cur = true ->
    Forall (fun piece => noWhiteSpace piece = true) (JS.splitRun inRun cur s).
Proof.
  induction s as [|c s IH]; intros inRun cur Hcur; cbn.
  - constructor; [exact Hcur | constructor].
  - destruct (JS.isWhiteSpace c) eqn:Hc.
    + destruct inRun; [apply IH; reflexivity|].
      constructor; [exact Hcur | apply IH; reflexivity].
    + apply IH. rewrite noWhiteSpace_app, Hcur. cbn. rewrite Hc. reflexivity.
Qed.

Lemma Forall_firstn {A : Type} (P : A -> Prop) (n : nat) (l : list A) :
  Forall P l -> Forall P (firstn n l).
Proof.
  revert l; induction n as [|n IH]; intros l Hl; [constructor|].
  destruct Hl; cbn; constructor; auto.
Qed.

Lemma nonEmpty_app_unit (cur : string) (c : ascii) :
  nonEmpty (cur ++ String c EmptyString) = true.
Proof. destruct cur; reflexivity. Qed.

(** The tokens of a string are the pieces of its split that are not
    empty. *)
Lemma tokensFrom_splitRun (s : string) :
  forall inRun cur,
    (inRun = true -> cur = EmptyString) ->
    tokensFrom cur s = filter nonEmpty (JS.splitRun inRun cur s).
Proof.
  induction s as [|c s IH]; intros inRun cur Hrun; cbn [tokensFrom JS.splitRun].
  - destruct cur; reflexivity.
  - destruct (JS.isWhiteSpace c).
    + destruct inRun.
      * rewrite (Hrun eq_refl). apply IH. reflexivity.
      * cbn [filter]. rewrite <- (IH true EmptyString (fun _ => eq_refl)).
        destruct cur; reflexivity.
    + apply IH. discriminate.
Qed.

Lemma tokens_splitWhiteSpace (s : string) :
  tokens s = filter nonEmpty (JS.splitWhiteSpace s).
Proof. apply tokensFrom_splitRun. discriminate. Qed.

(** A piece without white space is read into the token at hand. *)
Lemma tokensFrom_piece (piece : string) :
  noWhiteSpace piece = true ->
  forall cur rest, tokensFrom cur (piece ++ rest) = tokensFrom (cur ++ piece) rest.
Proof.
  induction piece as [|c piece IH]; intros Hp cur rest.
  - rewrite append_empty_r. reflexivity.
  - cbn in Hp. apply andb_true_iff in Hp. destruct Hp as [Hc Hp].
    apply negb_true_iff in Hc. cbn [String.append tokensFrom]. rewrite Hc.
    rewrite (IH Hp), append_assoc. reflexivity.
Qed.

(** Joined by single spaces, pieces without white space have for tokens
    those of them that are not empty. *)
Lemma tokens_join (pieces : list string) :
  Forall (fun piece => noWhiteSpace piece = true) pieces ->
  tokens (JS.join " " pieces) = filter nonEmpty pieces.
Proof.
  unfold tokens, JS.join.
  induction pieces as [|p pieces IH]; intros Hall; [reflexivity|].
  inversion Hall as [|? ? Hp Hrest]; subst.
  destruct pieces as [|p' pieces].
  - cbn [String.concat filter].
    rewrite <- (append_empty_r p) at 1.
    rewrite (tokensFrom_piece p Hp EmptyString EmptyString).
    destruct p; reflexivity.
  - change (String.concat " " (p :: p' :: pieces))
      with (p ++ " " ++ String.concat " " (p' :: pieces)).
    rewrite (tokensFrom_piece p Hp EmptyString _).
    cbn [String.append tokensFrom]. change (JS.isWhiteSpace " ") with true.
    cbn iota. rewrite (IH Hrest). destruct p; reflexivity.
Qed.

(** The pieces of a split: an empty first piece when the string starts
    with white space, pieces that are not empty, and maybe an empty last
    piece. *)
Lemma splitRun_shape (s : string) :
  forall inRun cur,
    (inRun = true -> cur = EmptyString) ->
    exists mid post,
      JS.splitRun inRun cur s
      = ((if negb inRun && negb (nonEmpty cur) && startsWithWhiteSpace s
          then [EmptyString] else [])
           ++ mid ++ post)%list /\
      Forall (fun piece => nonEmpty piece = true) mid /\
      (post = [] \/ post = [EmptyString]).
Proof.
  induction s as [|c s IH]; intros inRun cur Hrun; cbn [JS.splitRun startsWithWhiteSpace].
  - rewrite andb_false_r. destruct cur as [|d cur].
    + exists [], [EmptyString]. repeat split; auto.
    + exists [String d cur], []. repeat split; auto.
  - destruct (JS.isWhiteSpace c) eqn:Hc.
    + destruct (IH true EmptyString (fun _ => eq_refl)) as [mid [post [Hsplit [Hmid Hpost]]]].
      cbn [negb andb app] in Hsplit. rewrite Hsplit.
      destruct inRun.
      * exists mid, post. repeat split; auto.
      * destruct cur as [|d cur].
        -- exists mid, post. repeat split; auto.
        -- exists (String d cur :: mid), post. repeat split; auto.
    + destruct (IH false (cur ++ String c EmptyString) ltac:(discriminate))
        as [mid [post [Hsplit [Hmid Hpost]]]].
      rewrite nonEmpty_app_unit in Hsplit. cbn [negb andb app] in Hsplit.
      rewrite Hsplit, andb_false_r. exists mid, post. repeat split; auto.
Qed.

Lemma filter_nonEmpty_all (l : list string) :
  Forall (fun piece => nonEmpty piece = true) l -> filter nonEmpty l = l.
Proof.
  induction 1 as [|p l Hp _ IH]; cbn; [reflexivity|]. rewrite Hp, IH. reflexivity.
Qed.

Lemma filter_nonEmpty_end (post : list string) :
  post = [] \/ post = [EmptyString] -> filter nonEmpty post = [].
Proof. intros [->| ->]; reflexivity. Qed.

(** The first [n] pieces of such a list, and those of them that are not
    empty. *)
Lemma firstn_shape (n : nat) (pre mid post : list string) :
  List.length pre <= n ->
  Forall (fun piece => nonEmpty piece = true) mid ->
  post = [] \/ post = [EmptyString] ->
  exists post',
    firstn n (pre ++ mid ++ post)
    = (pre ++ firstn (n - List.length pre) mid ++ post')%list /\
    (post' = [] \/ post' = [EmptyString]).
Proof.
  intros Hpre Hmid Hpost.
  rewrite firstn_app, (firstn_all2 (n := n) pre) by exact Hpre.
  rewrite firstn_app.
  exists (firstn (n - List.length pre - List.length mid) post). split; [reflexivity|].
  destruct Hpost as [->| ->]; [left; apply firstn_nil|].
  destruct (n - List.length pre - List.length mid);
    [left; reflexivity | right; cbn; rewrite firstn_nil; reflexivity].
Qed.

Lemma concat_cons (p : string) (l : list string) :
  l <> [] -> String.concat " " (p :: l) = p ++ " " ++ String.concat " " l.
Proof. destruct l; [contradiction | reflexivity]. Qed.

Lemma concat_end (l : list string) :
  l <> [] -> String.concat " " (l ++ [EmptyString]) = String.concat " " l ++ " ".
Proof.
  induction l as [|p l IH]; intros Hne; [contradiction|].
  destruct l as [|p' l].
  - reflexivity.
  - change ((p :: p' :: l) ++ [EmptyString])%list
      with (p :: ((p' :: l) ++ [EmptyString]))%list.
    rewrite concat_cons by (cbn; discriminate). rewrite IH by discriminate.
    rewrite (concat_cons p (p' :: l)) by discriminate.
    rewrite !append_assoc. reflexivity.
Qed.

(** Joined by single spaces, such a list is its pieces that are not empty
    joined by single spaces, with at most a space before and a space
    after. *)
Lemma concat_shape (pre mid post : list string) :
  pre = [] \/ pre = [EmptyString] ->
  post = [] \/ post = [EmptyString] ->
  exists lead trail,
    (lead = "" \/ lead = " ") /\ (trail = "" \/ trail = " ") /\
    String.concat " " (pre ++ mid ++ post) = lead ++ String.concat " " mid ++ trail.
Proof.
  intros Hpre Hpost. destruct mid as [|m mid].
  - destruct Hpre as [->| ->], Hpost as [->| ->]; cbn.
    + exists "", "". auto.
    + exists "", "". auto.
    + exists "", "". auto.
    + exists " ", "". auto.
  - assert (Hend : exists trail, (trail = "" \/ trail = " ") /\
                     String.concat " " ((m :: mid) ++ post)
                     = String.concat " " (m :: mid) ++ trail).
    { destruct Hpost as [->| ->].
      - exists "". split; [auto|]. rewrite app_nil_r, append_empty_r. reflexivity.
      - exists " ". split; [auto|]. apply concat_end. discriminate. }
    destruct Hend as [trail [Htrail Hend]].
    destruct Hpre as [->| ->].
    + exists "", trail. cbn [app String.append]. auto.
    + exists " ", trail. split; [auto|]. split; [auto|].
      change ([EmptyString] ++ (m :: mid) ++ post)%list
        with (EmptyString :: ((m :: mid) ++ post))%list.
      rewrite concat_cons by (cbn; discriminate). rewrite Hend. reflexivity.
Qed.

(** The transcript of the prompt, by its tokens: the first 6000 tokens of
    the joined texts, or the first 5999 when the joined texts start with
    white space, joined by single spaces, with at most a space before and
    a space after. *)
Lemma truncatedTranscript_tokens (segs : list TranscriptSegment) :
  let full := String.concat " " (map seg_text segs) in
  let kept := if startsWithWhiteSpace full then Z.to_nat 5999 else Z.to_nat 6000 in
  tokens (truncatedTranscript segs) = firstn kept (tokens full) /\
  exists lead trail,
    (lead = "" \/ lead = " ") /\ (trail = "" \/ trail = " ") /\
    truncatedTranscript segs
    = lead ++ String.concat " " (tokens (truncatedTranscript segs)) ++ trail.
Proof.
  cbv zeta. unfold truncatedTranscript, JS.slice0, maxWords.
  set (full := JS.join " " (map seg_text segs)).
  change (String.concat " " (map seg_text segs)) with full.
  assert (Hfree : Forall (fun piece => noWhiteSpace piece = true)
                    (JS.splitWhiteSpace full))
    by (apply splitRun_noWhiteSpace; reflexivity).
  rewrite (tokens_join _ (Forall_firstn _ _ _ Hfree)).
  rewrite tokens_splitWhiteSpace.
  destruct (splitRun_shape full false EmptyString ltac:(discriminate))
    as [mid [post [Hsplit [Hmid Hpost]]]].
  cbn [negb nonEmpty andb] in Hsplit. unfold JS.splitWhiteSpace. rewrite Hsplit.
  set (pre := if startsWithWhiteSpace full then [EmptyString] else []) in *.
  assert (Hpre : pre = [] \/ pre = [EmptyString])
    by (unfold pre; destruct (startsWithWhiteSpace full); auto).
  assert (Hlen : List.length pre <= Z.to_nat 6000)
    by (destruct Hpre as [->| ->]; cbn; lia).
  destruct (firstn_shape (Z.to_nat 6000) pre mid post Hlen Hmid Hpost)
    as [post' [Hfirst Hpost']].
  rewrite Hfirst.
  assert (Hmid' : Forall (fun piece => nonEmpty piece = true)
                    (firstn (Z.to_nat 6000 - List.length pre) mid))
    by (apply Forall_firstn; exact Hmid).
  assert (Hfilter : forall a b c : list string,
             (a = [] \/ a = [EmptyString]) ->
             Forall (fun piece => nonEmpty piece = true) b ->
             (c = [] \/ c = [EmptyString]) ->
             filter nonEmpty (a ++ b ++ c) = b).
  { intros a b c Ha Hb Hc. rewrite !filter_app.
    rewrite (filter_nonEmpty_end a Ha), (filter_nonEmpty_end c Hc),
      (filter_nonEmpty_all b Hb), app_nil_r. reflexivity. }
  rewrite (Hfilter _ _ _ Hpre Hmid' Hpost'), (Hfilter _ _ _ Hpre Hmid Hpost).
  split.
  - unfold pre. destruct (startsWithWhiteSpace full); reflexivity.
  - apply concat_shape; assumption.
Qed.
(** *** The quick-start orchestrator: the run *)

Lemma languageEvents_quiet (message : string) (added : list Event) :
  Forall (fun ev => exists c, (ev = Completed c \/ exists e, ev = Raised c e) /\
                    (c = GetCurrentUser \/ c = Console message \/
                     exists u, c = GetPreferredLanguage u)) added ->
  Forall (fun ev => isGenerateObject (callOf ev) = false /\
                    isUpdate (callOf ev) = false) added.
Proof.
  apply Forall_impl. intros ev [c [Hev Hc]].
  assert (callOf ev = c) as -> by (destruct Hev as [->|[e ->]]; reflexivity).
  destruct Hc as [->|[->|[u ->]]]; split; reflexivity.
Qed.

(** The telemetry block always returns; what it adds to the log are
    session, clock, tracker and console events, and the console message
    when its body raised. *)
Lemma trackUsageBestEffort_run (w : World) (result : GenerateObjectResult)
  (userVideoId : option Z) (videoId : option string) (startTime : Z) (log : Log) :
  exists added,
    trackUsageBestEffort w result userVideoId videoId startTime log
    = (Return tt, (log ++ added)%list) /\
    Forall (fun ev => isGenerateObject (callOf ev) = false /\
                      isUpdate (callOf ev) = false) added /\
    ((exists e, fst (trackUsage w result userVideoId videoId startTime log) = Throw e) ->
     In (Completed (Console trackingMessage)) added).
Proof.
  unfold trackUsageBestEffort, trackUsage. unfold_run.
  repeat run_step;
    repeat match goal with u : unit |- _ => destruct u end;
    eexists; (split; [f_equal; added_events|]);
    (split; [repeat constructor|]);
    intros [e' He]; first [discriminate He | cbn; auto 10].
Qed.

(** The persistence step calls the repository once, with the id and the
    questions, when the id is given and not zero and there is a question;
    it does nothing otherwise. *)
Lemma persistQuestions_run (w : World) (userVideoId : option Z)
  (questions : list string) (log : Log) :
  exists outcome added,
    persistQuestions w userVideoId questions log = (outcome, (log ++ added)%list) /\
    ((exists uvid, userVideoId = Some uvid /\ uvid <> 0%Z /\ questions <> [] /\
        let call := UpdateQuickStartQuestions uvid questions in
        (outcome = Return tt /\ added = [Completed call] \/
         exists e, outcome = Throw e /\ added = [Raised call e])) \/
     (~ (exists uvid, userVideoId = Some uvid /\ uvid <> 0%Z /\ questions <> []) /\
      outcome = Return tt /\ added = [])).
Proof.
  unfold persistQuestions.
  destruct userVideoId as [uvid|].
  2: { exists (Return tt), []. split; [unfold ret; f_equal; symmetry; apply app_nil_r|].
       right. split; [intros [u [Hu _]]; discriminate Hu | split; reflexivity]. }
  destruct (Z.eqb_spec uvid 0) as [->|Hnz]; cbn [negb andb].
  { exists (Return tt), []. split; [unfold ret; f_equal; symmetry; apply app_nil_r|].
    right. split; [|split; reflexivity].
    intros [u [[= <-] [Hu _]]]. contradiction. }
  destruct questions as [|q questions]; cbn [List.length Nat.ltb Nat.leb].
  { exists (Return tt), []. split; [unfold ret; f_equal; symmetry; apply app_nil_r|].
    right. split; [|split; reflexivity].
    intros [u [_ [_ Hq]]]. contradiction. }
  unfold await_updateQuickStartQuestions, perform.
  destruct (UserVideoRepository_updateQuickStartQuestions w log uvid (q :: questions))
    as [[]|e]; do 2 eexists; (split; [reflexivity|]); left; exists uvid;
    repeat split; try assumption; try discriminate.
  - left. split; reflexivity.
  - right. exists e. split; reflexivity.
Qed.

(** The run of [generateQuickStartQuestions] up to the generation call
    and, when that call answers, what follows it. *)
Lemma generateQuickStartQuestions_run (w : World)
  (segs : list TranscriptSegment) (videoTitle videoDescription : option string)
  (userVideoId : option Z) (videoId : option string) (log : Log) :
  exists lang added,
    resolveUserLanguage w quickStartMessage log = (Return lang, (log ++ added)%list) /\
    Forall (fun ev => isGenerateObject (callOf ev) = false /\
                      isUpdate (callOf ev) = false) added /\
    let log2 := (log ++ added ++ [Completed DateNow])%list in
    let prompt := buildPrompt w lang segs videoTitle videoDescription in
    let call := GenerateObject modelName 1 prompt in
    match generateObject w log2 modelName 1 prompt with
    | Throw e =>
        generateQuickStartQuestions w segs videoTitle videoDescription
          userVideoId videoId log
        = (Throw e, (log ++ added ++ [Completed DateNow; Raised call e])%list)
    | Return result =>
        generateQuickStartQuestions w segs videoTitle videoDescription
          userVideoId videoId log
        = afterGeneration w result userVideoId videoId
            (Date_now w (log ++ added)%list)
            (log ++ added ++ [Completed DateNow; Completed call])%list
    end.
Proof.
  destruct (resolveUserLanguage_returns w quickStartMessage log)
    as [lang [added [Hrun Hev]]].
  exists lang, added. split; [exact Hrun|].
  split; [exact (languageEvents_quiet _ _ Hev)|].
  cbn zeta.
  unfold generateQuickStartQuestions, bind, now, await_generateObject, perform.
  rewrite Hrun. rewrite <- ?app_assoc. cbn [app].
  destruct (generateObject w _ modelName 1 _) as [result|e];
    cbv beta iota; rewrite <- ?app_assoc; reflexivity.
Qed.

(** What follows the generation call: the telemetry block, which always
    returns, then the persistence step, whose outcome decides the outcome. *)
Lemma afterGeneration_run (w : World) (result : GenerateObjectResult)
  (userVideoId : option Z) (videoId : option string) (startTime : Z) (log : Log) :
  exists tracked outcome persisted,
    Forall (fun ev => isGenerateObject (callOf ev) = false /\
                      isUpdate (callOf ev) = false) tracked /\
    ((exists e, fst (trackUsage w result userVideoId videoId startTime log) = Throw e) ->
     In (Completed (Console trackingMessage)) tracked) /\
    afterGeneration w result userVideoId videoId startTime log =
    (match outcome with
     | Return _ => Return (questionsOf result)
     | Throw e => Throw e
     end, (log ++ tracked ++ persisted)%list) /\
    ((exists uvid, userVideoId = Some uvid /\ uvid <> 0%Z /\ questionsOf result <> [] /\
        let call := UpdateQuickStartQuestions uvid (questionsOf result) in
        (outcome = Return tt /\ persisted = [Completed call] \/
         exists e, outcome = Throw e /\ persisted = [Raised call e])) \/
     (~ (exists uvid, userVideoId = Some uvid /\ uvid <> 0%Z /\ questionsOf result <> []) /\
      outcome = Return tt /\ persisted = [])).
Proof.
  destruct (trackUsageBestEffort_run w result userVideoId videoId startTime log)
    as [tracked [Htrack [Hquiet Hlogged]]].
  destruct (persistQuestions_run w userVideoId (questionsOf result)
              (log ++ tracked)%list) as [outcome [persisted [Hpersist Hcases]]].
  exists tracked, outcome, persisted. repeat split; try assumption.
  unfold afterGeneration, bind. rewrite Htrack, Hpersist.
  rewrite <- app_assoc. destruct outcome; reflexivity.
Qed.

Lemma quiet_is_no_generation (added : list Event) (ev : Event) :
  Forall (fun ev => isGenerateObject (callOf ev) = false /\
                    isUpdate (callOf ev) = false) added ->
  In ev added ->
  isGenerateObject (callOf ev) = false /\ isUpdate (callOf ev) = false.
Proof. intros Hall Hin. rewrite Forall_forall in Hall. exact (Hall ev Hin). Qed.

(** The run of [generateQuickStartQuestions] once the generation call has
    answered [result]. *)
Lemma quickStart_after_generation (w : World) (segs : list TranscriptSegment)
  (videoTitle videoDescription : option string) (userVideoId : option Z)
  (videoId : option string) (log log1 : Log) (lang : Lang)
  (result : GenerateObjectResult) :
  resolveUserLanguage w quickStartMessage log = (Return lang, log1) ->
  let prompt := buildPrompt w lang segs videoTitle videoDescription in
  generateObject w (log1 ++ [Completed DateNow])%list modelName 1 prompt
  = Return result ->
  exists before,
    log1 = (log ++ before)%list /\
    Forall (fun ev => isGenerateObject (callOf ev) = false /\
                      isUpdate (callOf ev) = false) before /\
    generateQuickStartQuestions w segs videoTitle videoDescription
      userVideoId videoId log
    = afterGeneration w result userVideoId videoId (Date_now w log1)
        ((log1 ++ [Completed DateNow])
           ++ [Completed (GenerateObject modelName 1 prompt)])%list.
Proof.
  intros Hlang prompt Hgen.
  destruct (generateQuickStartQuestions_run w segs videoTitle videoDescription
              userVideoId videoId log) as [lang' [before [Hrun [Hquiet Hrest]]]].
  rewrite Hlang in Hrun. injection Hrun as <- ->.
  exists before. split; [reflexivity|]. split; [exact Hquiet|].
  cbn zeta in Hrest. rewrite app_assoc in Hrest. fold prompt in Hrest.
  rewrite Hgen in Hrest. rewrite Hrest. f_equal.
  rewrite <- !app_assoc. reflexivity.
Qed.

(** C4, amended.  The prompt given to the generation service ends with
    the transcript between its tags.  That transcript holds the first
    6000 white-space-delimited tokens of the segment texts joined by
    single spaces, or the first 5999 of them when the joined texts start
    with white space (the split then yields an empty first piece, which
    counts among the 6000 pieces kept): at most 6000 tokens.  It is these
    tokens joined by single spaces, with at most a space before and a
    space after. *)
Theorem prompt_transcript_bound (w : World) (segs : list TranscriptSegment)
  (videoTitle videoDescription : option string) (userVideoId : option Z)
  (videoId : option string) (log : Log) :
  let full := String.concat " " (map seg_text segs) in
  let kept := if startsWithWhiteSpace full then Z.to_nat 5999 else Z.to_nat 6000 in
  let transcript := truncatedTranscript segs in
  tokens transcript = firstn kept (tokens full) /\
  (Z.of_nat (tokenCount transcript) <= 6000)%Z /\
  (exists lead trail,
      (lead = "" \/ lead = " ") /\ (trail = "" \/ trail = " ") /\
      transcript = lead ++ String.concat " " (tokens transcript) ++ trail) /\
  exists (lang : Lang) (outcome : Outcome (list string)) (added : list Event)
         (before : string),
    generateQuickStartQuestions w segs videoTitle videoDescription
      userVideoId videoId log = (outcome, (log ++ added)%list) /\
    let prompt := before ++ "<transcript>" ++ LF ++ transcript ++ LF
                    ++ "</transcript>" ++ LF in
    (exists ev, In ev added /\ callOf ev = GenerateObject modelName 1 prompt) /\
    (forall ev model temperature text,
        In ev added -> callOf ev = GenerateObject model temperature text ->
        text = prompt).
Proof.
  cbv zeta.
  destruct (truncatedTranscript_tokens segs) as [Htokens Hjoined].
  cbv zeta in Htokens. split; [exact Htokens|]. split.
  { unfold tokenCount. rewrite Htokens, length_firstn.
    destruct (startsWithWhiteSpace _); lia. }
  split; [exact Hjoined|].
  destruct (generateQuickStartQuestions_run w segs videoTitle videoDescription
              userVideoId videoId log) as [lang [before [_ [Hquiet Hrun]]]].
  cbn zeta in Hrun.
  set (prompt := buildPrompt w lang segs videoTitle videoDescription) in *.
  assert (Hprompt :
            prompt =
            (getQuickStartPrompt w lang ++ LF ++ LF
               ++ (if (contextSection videoTitle videoDescription =? "")%string
                   then "" else contextSection videoTitle videoDescription ++ LF)
               ++ "Here is the video transcript:" ++ LF ++ LF)
              ++ "<transcript>" ++ LF
              ++ truncatedTranscript segs
              ++ LF ++ "</transcript>" ++ LF).
  { unfold prompt, buildPrompt, promptHead, promptTail.
    rewrite !append_assoc. reflexivity. }
  exists lang.
  destruct (generateObject w _ modelName 1 prompt) as [result|e].
  - destruct (afterGeneration_run w result userVideoId videoId
                (Date_now w (log ++ before)%list)
                (log ++ before ++ [Completed DateNow;
                                   Completed (GenerateObject modelName 1 prompt)])%list)
      as [tracked [outcome [persisted [Htracked [_ [Hafter Hpersist]]]]]].
    rewrite Hafter in Hrun. rewrite <- !app_assoc in Hrun.
    do 3 eexists. split; [exact Hrun|]. rewrite <- Hprompt. split.
    + exists (Completed (GenerateObject modelName 1 prompt)).
      split; [|reflexivity]. apply in_or_app. right. cbn. auto.
    + intros ev model temperature text Hin Hcall.
      assert (Hgen : isGenerateObject (callOf ev) = true)
        by (rewrite Hcall; reflexivity).
      apply in_app_or in Hin. destruct Hin as [Hin|Hin].
      { apply (quiet_is_no_generation _ _ Hquiet) in Hin. destruct Hin. congruence. }
      cbn in Hin. destruct Hin as [<-|[<-|Hin]]; [discriminate Hgen | |].
      { cbn in Hcall. congruence. }
      apply in_app_or in Hin. destruct Hin as [Hin|Hin].
      { apply (quiet_is_no_generation _ _ Htracked) in Hin. destruct Hin. congruence. }
      destruct Hpersist as [[uvid [_ [_ [_ [[_ ->]|[e [_ ->]]]]]]]|[_ [_ ->]]];
        cbn in Hin;
        first [ contradiction
              | destruct Hin as [<-|[]]; discriminate Hgen ].
  - do 3 eexists. split; [exact Hrun|]. rewrite <- Hprompt. split.
    + exists (Raised (GenerateObject modelName 1 prompt) e).
      split; [|reflexivity]. apply in_or_app. right. cbn. auto.
    + intros ev model temperature text Hin Hcall.
      assert (Hgen : isGenerateObject (callOf ev) = true)
        by (rewrite Hcall; reflexivity).
      apply in_app_or in Hin. destruct Hin as [Hin|Hin].
      { apply (quiet_is_no_generation _ _ Hquiet) in Hin. destruct Hin. congruence. }
      cbn in Hin. destruct Hin as [<-|[<-|[]]]; [discriminate Hgen|].
      cbn in Hcall. congruence.
Qed.

(** C4, as stated, fails.  Of 6000 words whose first one follows a
    space the transcript keeps the first 5999 and not the first 6000: the
    empty piece before the space is one of the 6000 pieces kept. *)
Lemma leading_space_costs_a_token :
  tokenCount (String.concat " " (map seg_text leadingSpaceSegments)) = Z.to_nat 6000 /\
  tokenCount (truncatedTranscript leadingSpaceSegments) = Z.to_nat 5999.
Proof. vm_compute. split; reflexivity. Qed.

(** The events of a run that got past the generation call: those before
    it, the clock and the generation call, the telemetry block, the
    persistence step. *)
Lemma quickStart_events (w : World) (segs : list TranscriptSegment)
  (videoTitle videoDescription : option string) (userVideoId : option Z)
  (videoId : option string) (log log1 : Log) (lang : Lang)
  (result : GenerateObjectResult) :
  resolveUserLanguage w quickStartMessage log = (Return lang, log1) ->
  let prompt := buildPrompt w lang segs videoTitle videoDescription in
  generateObject w (log1 ++ [Completed DateNow])%list modelName 1 prompt
  = Return result ->
  let log3 := ((log1 ++ [Completed DateNow])
                 ++ [Completed (GenerateObject modelName 1 prompt)])%list in
  exists quiet outcome persisted,
    Forall (fun ev => isUpdate (callOf ev) = false) quiet /\
    ((exists e, fst (trackUsage w result userVideoId videoId (Date_now w log1) log3)
                = Throw e) ->
     In (Completed (Console trackingMessage)) quiet) /\
    generateQuickStartQuestions w segs videoTitle videoDescription
      userVideoId videoId log
    = (match outcome with
       | Return _ => Return (questionsOf result)
       | Throw e => Throw e
       end, (log ++ quiet ++ persisted)%list) /\
    ((exists uvid, userVideoId = Some uvid /\ uvid <> 0%Z /\ questionsOf result <> [] /\
        let call := UpdateQuickStartQuestions uvid (questionsOf result) in
        (outcome = Return tt /\ persisted = [Completed call] \/
         exists e, outcome = Throw e /\ persisted = [Raised call e])) \/
     (~ (exists uvid, userVideoId = Some uvid /\ uvid <> 0%Z /\ questionsOf result <> []) /\
      outcome = Return tt /\ persisted = [])).
Proof.
  intros Hlang prompt Hgen log3.
  destruct (quickStart_after_generation w segs videoTitle videoDescription
              userVideoId videoId log log1 lang result Hlang Hgen)
    as [before [-> [Hbefore Hrun]]].
  fold prompt in Hrun. fold log3 in Hrun.
  destruct (afterGeneration_run w result userVideoId videoId
              (Date_now w (log ++ before)%list) log3)
    as [tracked [outcome [persisted [Htracked [Hlogged [Hafter Hpersist]]]]]].
  exists (before ++ [Completed DateNow;
                     Completed (GenerateObject modelName 1 prompt)] ++ tracked)%list,
    outcome, persisted.
  split; [|split; [|split]].
  - apply Forall_app. split; [eapply Forall_impl; [|exact Hbefore]; tauto|].
    repeat constructor. eapply Forall_impl; [|exact Htracked]. tauto.
  - intros He. apply in_or_app. right. right. right. exact (Hlogged He).
  - rewrite Hrun, Hafter. f_equal. unfold log3.
    rewrite <- !app_assoc. reflexivity.
  - exact Hpersist.
Qed.

Lemma quiet_is_no_update (quiet : list Event) (ev : Event) :
  Forall (fun ev => isUpdate (callOf ev) = false) quiet ->
  In ev quiet -> isUpdate (callOf ev) = false.
Proof. intros Hall Hin. rewrite Forall_forall in Hall. exact (Hall ev Hin). Qed.


(** C10, amended.  After the generation call answered, the update of the
    stored questions is called exactly when [userVideoId] is given and not
    zero and there is at least one question, with that id and those
    questions; the question list is returned whenever that call does not
    raise, in particular when it is not made, and an empty list is
    returned as it is. *)
Theorem questions_persistence (w : World) (segs : list TranscriptSegment)
  (videoTitle videoDescription : option string) (userVideoId : option Z)
  (videoId : option string) (log log1 : Log) (lang : Lang)
  (result : GenerateObjectResult) :
  resolveUserLanguage w quickStartMessage log = (Return lang, log1) ->
  generateObject w (log1 ++ [Completed DateNow])%list modelName 1
    (buildPrompt w lang segs videoTitle videoDescription) = Return result ->
  exists outcome added,
    generateQuickStartQuestions w segs videoTitle videoDescription
      userVideoId videoId log = (outcome, (log ++ added)%list) /\
    let questions := questionsOf result in
    ((exists ev uvid qs,
         In ev added /\ callOf ev = UpdateQuickStartQuestions uvid qs) <->
     (exists uvid, userVideoId = Some uvid /\ uvid <> 0%Z /\ questions <> [])) /\
    (forall ev uvid qs,
        In ev added -> callOf ev = UpdateQuickStartQuestions uvid qs ->
        userVideoId = Some uvid /\ qs = questions) /\
    ((forall ev, In ev added -> raisedUpdate ev = false) ->
     outcome = Return questions) /\
    (questions = [] -> outcome = Return []).
Proof.
  intros Hlang Hgen.
  destruct (quickStart_events w segs videoTitle videoDescription userVideoId
              videoId log log1 lang result Hlang Hgen)
    as [quiet [outcome [persisted [Hquiet [_ [Hrun Hpersist]]]]]].
  do 2 eexists. split; [exact Hrun|]. cbn zeta.
  assert (Hupdate : forall ev uvid qs,
             In ev (quiet ++ persisted)%list ->
             callOf ev = UpdateQuickStartQuestions uvid qs ->
             In ev persisted).
  { intros ev uvid qs Hin Hcall. apply in_app_or in Hin.
    destruct Hin as [Hin|Hin]; [|exact Hin].
    apply (quiet_is_no_update _ _ Hquiet) in Hin. rewrite Hcall in Hin.
    discriminate Hin. }
  destruct Hpersist
    as [[uvid [Hid [Hnz [Hqs [[-> ->]|[e [-> ->]]]]]]]|[Hnot [-> ->]]].
  - split; [|split; [|split]].
    + split; [intros _; exists uvid; auto|].
      intros _. do 3 eexists. split; [apply in_or_app; right; left|]; reflexivity.
    + intros ev uvid' qs Hin Hcall.
      destruct (Hupdate ev uvid' qs Hin Hcall) as [<-|[]].
      cbn in Hcall. injection Hcall as <- <-. auto.
    + reflexivity.
    + intros Hempty. contradiction.
  - split; [|split; [|split]].
    + split; [intros _; exists uvid; auto|].
      intros _. do 3 eexists. split; [apply in_or_app; right; left|]; reflexivity.
    + intros ev uvid' qs Hin Hcall.
      destruct (Hupdate ev uvid' qs Hin Hcall) as [<-|[]].
      cbn in Hcall. injection Hcall as <- <-. auto.
    + intros Hnone. specialize (Hnone (Raised (UpdateQuickStartQuestions uvid
                                                  (questionsOf result)) e)).
      discriminate Hnone. apply in_or_app. right. left. reflexivity.
    + intros Hempty. contradiction.
  - split; [|split; [|split]].
    + split; [|intros Hwanted; contradiction].
      intros [ev [uvid [qs [Hin Hcall]]]].
      destruct (Hupdate ev uvid qs Hin Hcall).
    + intros ev uvid qs Hin Hcall. destruct (Hupdate ev uvid qs Hin Hcall).
    + reflexivity.
    + intros ->. reflexivity.
Qed.


(** The failure of the update is its own: with a store of the questions
    that is down the outcome is that exception whether the tracker raises
    or answers, and with the tracker alone down the questions are
    returned. *)
Example update_failure_is_its_own :
  fst (generateQuickStartQuestions (scriptedWorld failingStoreScript)
         [] None None (Some 7%Z) None []) = Throw "database down" /\
  fst (generateQuickStartQuestions (scriptedWorld failingUpdateScript)
         [] None None (Some 7%Z) None []) = Throw "database down" /\
  fst (generateQuickStartQuestions (scriptedWorld failingTrackerScript)
         [] None None (Some 7%Z) None []) = Return ["What is it about?"].
Proof. vm_compute. repeat split. Qed.

(** An id is given, a question was produced, the update completes. *)
Lemma questions_persistence_witness :
  exists outcome added,
    generateQuickStartQuestions (scriptedWorld quietScript) [] None None
      (Some 7%Z) None [] = (outcome, ([] ++ added)%list) /\
    ((exists ev uvid qs,
         In ev added /\ callOf ev = UpdateQuickStartQuestions uvid qs) <->
     (exists uvid, Some 7%Z = Some uvid /\ uvid <> 0%Z /\
                   questionsOf (script_generation quietScript) <> [])) /\
    (forall ev uvid qs,
        In ev added -> callOf ev = UpdateQuickStartQuestions uvid qs ->
        Some 7%Z = Some uvid /\ qs = questionsOf (script_generation quietScript)) /\
    ((forall ev, In ev added -> raisedUpdate ev = false) ->
     outcome = Return (questionsOf (script_generation quietScript))) /\
    (questionsOf (script_generation quietScript) = [] -> outcome = Return []).
Proof.
  apply (questions_persistence (scriptedWorld quietScript)
           [] None None (Some 7%Z) None []
           [Completed GetCurrentUser; Completed (GetPreferredLanguage "user-1")]
           ID (script_generation quietScript)).
  - reflexivity.
  - reflexivity.
Defined.

(** C10, as stated, fails.  With the id 0 given and a question produced,
    the list is returned and no update is called; and with the id 7 given
    and an update that raises, the list is not returned. *)
Lemma zero_id_is_not_persisted :
  let run := generateQuickStartQuestions (scriptedWorld quietScript)
               [] None None (Some 0%Z) None [] in
  let failed := generateQuickStartQuestions (scriptedWorld failingStoreScript)
                  [] None None (Some 7%Z) None [] in
  fst run = Return ["What is it about?"] /\
  existsb (fun ev => isUpdate (callOf ev)) (snd run) = false /\
  fst failed = Throw "database down".
Proof. vm_compute. repeat split. Qed.

(** The same call with the id 7: the update is called with the list. *)
Example nonzero_id_is_persisted :
  let run := generateQuickStartQuestions (scriptedWorld quietScript)
               [] None None (Some 7%Z) None [] in
  fst run = Return ["What is it about?"] /\
  In (Completed (UpdateQuickStartQuestions 7 ["What is it about?"])) (snd run).
Proof. vm_compute. split; [reflexivity | auto 10]. Qed.

(** * Further properties *)

(** ** The cached path of [fetchVideoTranscript] *)

Lemma insert_Permutation {A : Type} (comparefn : A -> A -> JS.Number) (x : A)
  (l : list A) :
  Permutation (JS.insert comparefn x l) (x :: l).
Proof.
  induction l as [|y l IH]; cbn; [reflexivity|].
  destruct (JS.SortCompare comparefn x y); try reflexivity.
  rewrite IH. apply perm_swap.
Qed.

Lemma sort_Permutation {A : Type} (comparefn : A -> A -> JS.Number) (l : list A) :
  Permutation (JS.sort comparefn l) l.
Proof.
  induction l as [|x l IH]; cbn; [reflexivity|].
  fold (JS.sort comparefn l). rewrite insert_Permutation. constructor. exact IH.
Qed.

(** X1.  Whatever the [start] fields hold, the cached path answers every
    stored row exactly once: the segments are a permutation of the rows
    mapped to segments. *)
Theorem cached_path_keeps_every_row (w : World) (videoId : string) (log : Log)
  (user : User) (rows : list Row) (uv : UserVideo) :
  getCurrentUser w log = Return user ->
  TranscriptRepository_getByVideoId w (log ++ [Completed GetCurrentUser])%list
    videoId = Return rows ->
  rows <> [] ->
  fst (lookupOrCreateUserVideo w user videoId
         ((log ++ [Completed GetCurrentUser])
            ++ [Completed (TranscriptGetByVideoId videoId)])%list) = Return uv ->
  exists segs,
    fst (fetchVideoTranscript w videoId log) = Return (available segs uv) /\
    Permutation segs (map rowToSegment rows).
Proof.
  intros Huser Hrows Hne Hassoc.
  exists (JS.sort compareStart (map rowToSegment rows)).
  split; [|apply sort_Permutation].
  unfold fetchVideoTranscript, fetchVideoTranscript_try, try_catch, bind.
  unfold await_getCurrentUser, await_getByVideoId, perform.
  rewrite Huser, Hrows.
  destruct rows as [|r rows]; [contradiction|].
  cbn [List.length Nat.ltb Nat.leb].
  destruct (lookupOrCreateUserVideo w user videoId _) as [[uv'|e] log'];
    cbn in Hassoc; [|discriminate Hassoc].
  injection Hassoc as ->. reflexivity.
Qed.

Lemma cached_path_keeps_every_row_witness :
  exists segs,
    fst (fetchVideoTranscript (scriptedWorld shuffledScript) "video-1" [])
    = Return (available segs sampleUserVideo) /\
    Permutation segs (map rowToSegment shuffledRows).
Proof.
  apply (cached_path_keeps_every_row (scriptedWorld shuffledScript) "video-1" []
           sampleUser shuffledRows sampleUserVideo);
    [reflexivity | reflexivity | discriminate | reflexivity].
Defined.

(** X2.  When rows are stored for the video, the transcript provider is not
    called and no segment is written, whatever the later calls answer. *)
Theorem cached_path_calls_no_provider (w : World) (videoId : string) (log : Log)
  (user : User) (rows : list Row) :
  getCurrentUser w log = Return user ->
  TranscriptRepository_getByVideoId w (log ++ [Completed GetCurrentUser])%list
    videoId = Return rows ->
  rows <> [] ->
  exists r added,
    fetchVideoTranscript w videoId log = (Return r, (log ++ added)%list) /\
    Forall (fun ev => isProviderOrStore (callOf ev) = false) added.
Proof.
  intros Huser Hrows Hne.
  unfold fetchVideoTranscript, fetchVideoTranscript_try, lookupOrCreateUserVideo.
  unfold_run. rewrite Huser. cbn -[JS.sort normalize Nat.ltb]. rewrite Hrows.
  destruct rows as [|row rows]; [contradiction|].
  cbn -[JS.sort normalize].
  repeat run_step;
    do 2 eexists; (split; [f_equal; added_events|]); repeat constructor.
Qed.

Lemma cached_path_calls_no_provider_witness :
  exists r added,
    fetchVideoTranscript (scriptedWorld shuffledScript) "video-1" []
    = (Return r, ([] ++ added)%list) /\
    Forall (fun ev => isProviderOrStore (callOf ev) = false) added.
Proof.
  apply (cached_path_calls_no_provider (scriptedWorld shuffledScript) "video-1" []
           sampleUser shuffledRows);
    [reflexivity | reflexivity | discriminate].
Defined.

(** ** The association of a user and a video *)

(** X3.  In a run of [fetchVideoTranscript] the association is upserted at
    most once, for the current user and the requested video with an empty
    summary, and only in a run whose lookup of that pair completed and
    answered that there is none. *)
Theorem association_upsert_discipline (w : World) (videoId : string) (log : Log) :
  exists r added,
    fetchVideoTranscript w videoId log = (Return r, (log ++ added)%list) /\
    List.length (filter (fun ev => isUserVideoUpsert (callOf ev)) added) <= 1 /\
    (forall ev u v s,
        In ev added -> callOf ev = UserVideoUpsert u v s ->
        (exists user, getCurrentUser w log = Return user /\ u = user_id user) /\
        v = videoId /\ s = "" /\
        exists before,
          In (Completed (UserVideoGetByUserAndYoutubeId u videoId)) added /\
          UserVideoRepository_getByUserAndYoutubeId w (log ++ before)%list u videoId
          = Return None).
Proof.
  unfold fetchVideoTranscript, fetchVideoTranscript_try, lookupOrCreateUserVideo.
  unfold_run.
  repeat run_step;
    do 2 eexists; (split; [f_equal; added_events|]);
    (split; [cbn; lia|]);
    intros ev' uId vId sm Hin Hcall; cbn in Hin;
    repeat (destruct Hin as [<-|Hin]; [try discriminate Hcall|]);
    try contradiction;
    cbn in Hcall; injection Hcall as <- <- <-;
    (split; [eexists; split; reflexivity|]);
    (split; [reflexivity|]); (split; [reflexivity|]);
    eexists; (split; [cbn; auto 10|]);
    match goal with
    | H : UserVideoRepository_getByUserAndYoutubeId w ?l _ _ = Return None |- _ =>
        rewrite <- H; f_equal; added_events
    end.
Qed.

(** ** The normalizer, further *)

(** X4.  The sentinel never leaves the normalizer: no segment has the text
    "N/A". *)
Theorem normalize_drops_sentinel (w : World) (entries : list RawEntry)
  (segs : list TranscriptSegment) :
  normalize w entries = Return segs ->
  Forall (fun seg => seg_text seg <> "N/A") segs.
Proof.
  intros Hnorm. apply Forall_forall. intros seg Hin.
  apply In_nth_error in Hin. destruct Hin as [i Hi].
  destruct (normalize_nth_entry w entries segs i seg Hnorm Hi) as [item [_ Hentry]].
  apply normalizeEntry_Return in Hentry. destruct Hentry as [_ [_ [Htext _]]].
  rewrite Htext.
  destruct (String.eqb_spec (entry_text item) "N/A") as [Hna|Hna]; cbn [negb].
  - discriminate.
  - exact Hna.
Qed.

Lemma normalize_drops_sentinel_witness :
  Forall (fun seg => seg_text seg <> "N/A")
    [ {| seg_start := "00:00:00"; seg_end := "00:00:02";
         seg_text := "Intro"; seg_isChapterStart := true |};
      {| seg_start := "00:00:02"; seg_end := "00:00:05";
         seg_text := "Segment at 00:02"; seg_isChapterStart := false |};
      {| seg_start := "01:01:01"; seg_end := "01:01:01";
         seg_text := "later on"; seg_isChapterStart := false |} ].
Proof.
  apply (normalize_drops_sentinel (scriptedWorld freshScript) sampleEntries).
  vm_compute. reflexivity.
Defined.

Lemma mod10_next (k : nat) : (S k + 9) mod 10 <= (k + 9) mod 10 + 1.
Proof.
  pose proof (Nat.div_mod_eq (S k + 9) 10) as H1.
  pose proof (Nat.div_mod_eq (k + 9) 10) as H2.
  pose proof (Nat.mod_upper_bound (S k + 9) 10) as B1.
  pose proof (Nat.mod_upper_bound (k + 9) 10) as B2.
  lia.
Qed.

Lemma mod10_at_ten (k : nat) :
  k mod 10 = 0 -> (k + 9) mod 10 = 9 /\ (S k + 9) mod 10 = 0.
Proof.
  intros Hk.
  pose proof (Nat.div_mod_eq k 10) as H0.
  pose proof (Nat.div_mod_eq (S k + 9) 10) as H1.
  pose proof (Nat.div_mod_eq (k + 9) 10) as H2.
  pose proof (Nat.mod_upper_bound (S k + 9) 10) as B1.
  pose proof (Nat.mod_upper_bound (k + 9) 10) as B2.
  lia.
Qed.

Lemma isChapterStart_index (text : string) (index : nat) :
  isChapterStart text index = true -> index mod 10 = 0.
Proof.
  unfold isChapterStart. rewrite !andb_true_iff, orb_true_iff, !Nat.eqb_eq.
  intros [_ [->|H]]; [reflexivity | exact H].
Qed.

Lemma chapters_from (w : World) (entries : list RawEntry) :
  forall k segs,
    JS.mapFrom (normalizeEntry w) k entries = Return segs ->
    10 * List.length (filter seg_isChapterStart segs)
    <= List.length entries + (k + 9) mod 10.
Proof.
  induction entries as [|item entries IH]; intros k segs Hrun;
    cbn [JS.mapFrom] in Hrun.
  - injection Hrun as <-. cbn. lia.
  - destruct (normalizeEntry w item k) as [seg|e] eqn:Hseg; [|discriminate Hrun].
    cbn [andThen] in Hrun.
    destruct (JS.mapFrom (normalizeEntry w) (S k) entries) as [rest|e] eqn:Hrest;
      [|discriminate Hrun].
    cbn [andThen] in Hrun. injection Hrun as <-.
    specialize (IH (S k) rest Hrest). pose proof (mod10_next k) as Hnext.
    cbn [filter List.length].
    destruct (seg_isChapterStart seg) eqn:Hflag.
    + apply normalizeEntry_Return in Hseg. destruct Hseg as [_ [_ [_ Hchapter]]].
      rewrite Hchapter in Hflag.
      apply isChapterStart_index, mod10_at_ten in Hflag.
      cbn [List.length]. lia.
    + lia.
Qed.

(** X5.  Of the segments the normalizer answers, those flagged as chapter
    starts stand at indexes that are multiples of 10, so there is at most
    one for every ten entries begun. *)
Theorem chapters_are_sparse (w : World) (entries : list RawEntry)
  (segs : list TranscriptSegment) :
  normalize w entries = Return segs ->
  (forall i seg,
      nth_error segs i = Some seg ->
      seg_isChapterStart seg = true -> i mod 10 = 0) /\
  10 * List.length (filter seg_isChapterStart segs) <= List.length entries + 9.
Proof.
  intros Hnorm. split.
  - intros i seg Hi Hflag.
    destruct (normalize_nth_entry w entries segs i seg Hnorm Hi) as [item [_ Hentry]].
    apply normalizeEntry_Return in Hentry. destruct Hentry as [_ [_ [_ Hchapter]]].
    rewrite Hchapter in Hflag. exact (isChapterStart_index _ _ Hflag).
  - exact (chapters_from w entries 0 segs Hnorm).
Qed.

Lemma chapters_are_sparse_witness :
  (forall i seg,
      nth_error
        [ {| seg_start := "00:00:00"; seg_end := "00:00:02";
             seg_text := "Intro"; seg_isChapterStart := true |};
          {| seg_start := "00:00:02"; seg_end := "00:00:05";
             seg_text := "Segment at 00:02"; seg_isChapterStart := false |};
          {| seg_start := "01:01:01"; seg_end := "01:01:01";
             seg_text := "later on"; seg_isChapterStart := false |} ] i = Some seg ->
      seg_isChapterStart seg = true -> i mod 10 = 0) /\
  10 * List.length
         (filter seg_isChapterStart
            [ {| seg_start := "00:00:00"; seg_end := "00:00:02";
                 seg_text := "Intro"; seg_isChapterStart := true |};
              {| seg_start := "00:00:02"; seg_end := "00:00:05";
                 seg_text := "Segment at 00:02"; seg_isChapterStart := false |};
              {| seg_start := "01:01:01"; seg_end := "01:01:01";
                 seg_text := "later on"; seg_isChapterStart := false |} ])
  <= List.length sampleEntries + 9.
Proof.
  apply (chapters_are_sparse (scriptedWorld freshScript) sampleEntries).
  vm_compute. reflexivity.
Defined.

(** ** Storing and reading back *)

(** X6.  Rows that hold what the normalizer wrote are read back unchanged:
    when the stored rows, in the order the store answers them, are the
    segments the normalizer answered, the cached path answers exactly
    those segments in that order. *)
Theorem stored_segments_are_read_back (w w0 : World) (videoId : string) (log : Log)
  (user : User) (rows : list Row) (entries : list RawEntry)
  (segs : list TranscriptSegment) (uv : UserVideo) :
  getCurrentUser w log = Return user ->
  TranscriptRepository_getByVideoId w (log ++ [Completed GetCurrentUser])%list
    videoId = Return rows ->
  entries <> [] ->
  normalize w0 entries = Return segs ->
  map rowToSegment rows = segs ->
  fst (lookupOrCreateUserVideo w user videoId
         ((log ++ [Completed GetCurrentUser])
            ++ [Completed (TranscriptGetByVideoId videoId)])%list) = Return uv ->
  fst (fetchVideoTranscript w videoId log) = Return (available segs uv).
Proof.
  intros Huser Hrows Hne Hnorm Hstored Hassoc.
  unfold fetchVideoTranscript, fetchVideoTranscript_try, try_catch, bind.
  unfold await_getCurrentUser, await_getByVideoId, perform.
  rewrite Huser, Hrows.
  assert (Hlen : (0 <? List.length rows) = true).
  { apply Nat.ltb_lt. rewrite <- (length_map rowToSegment), Hstored.
    rewrite (normalize_length w0 entries segs Hnorm).
    destruct entries; [contradiction | cbn; lia]. }
  rewrite Hlen, Hstored.
  rewrite (sort_clock_strings _
             (normalize_starts_are_clock_strings w0 entries segs Hnorm)).
  destruct (lookupOrCreateUserVideo w user videoId _) as [[uv'|e] log'];
    cbn in Hassoc; [|discriminate Hassoc].
  injection Hassoc as ->. reflexivity.
Qed.

Lemma stored_segments_are_read_back_witness :
  fst (fetchVideoTranscript (scriptedWorld storedScript) "video-1" []) =
  Return
    (available
       [ {| seg_start := "00:00:00"; seg_end := "00:00:02";
            seg_text := "Intro"; seg_isChapterStart := true |};
         {| seg_start := "00:00:02"; seg_end := "00:00:05";
            seg_text := "Segment at 00:02"; seg_isChapterStart := false |};
         {| seg_start := "01:01:01"; seg_end := "01:01:01";
            seg_text := "later on"; seg_isChapterStart := false |} ]
       sampleUserVideo).
Proof.
  apply (stored_segments_are_read_back (scriptedWorld storedScript)
           (scriptedWorld freshScript) "video-1" [] sampleUser
           (script_rows storedScript) sampleEntries _ sampleUserVideo);
    [reflexivity | reflexivity | discriminate | vm_compute; reflexivity
    | vm_compute; reflexivity | reflexivity].
Defined.

(** X7.  When nothing is stored for the video, a transcript that is
    answered is never empty, and it is the very list the normalizer
    answered, written to the store before the association was looked
    up. *)
Theorem fetched_transcript_is_stored (w : World) (videoId : string) (log : Log)
  (user : User) :
  getCurrentUser w log = Return user ->
  TranscriptRepository_getByVideoId w (log ++ [Completed GetCurrentUser])%list
    videoId = Return [] ->
  exists r added,
    fetchVideoTranscript w videoId log = (Return r, (log ++ added)%list) /\
    (r = unavailable \/
     segments r <> [] /\
     (exists entries, normalize w entries = Return (segments r)) /\
     exists before after,
       added = (before
                  ++ Completed (TranscriptUpsertSegments videoId (segments r))
                  :: Completed (UserVideoGetByUserAndYoutubeId (user_id user) videoId)
                  :: after)%list).
Proof.
  intros Huser Hrows.
  unfold fetchVideoTranscript, fetchVideoTranscript_try, lookupOrCreateUserVideo.
  unfold_run. rewrite Huser. cbn -[normalize]. rewrite Hrows. cbn -[normalize].
  repeat run_step;
    do 2 eexists; (split; [f_equal; added_events|]);
    first [ left; reflexivity | right ];
    match goal with
    | H : normalize w ?entries = Return ?segs |- _ =>
        assert (Hsome : segs <> [])
          by (intros ->; apply normalize_length in H; discriminate H);
        (split; [exact Hsome|]);
        (split; [exists entries; exact H|])
    end.
  - exists [Completed GetCurrentUser; Completed (TranscriptGetByVideoId videoId);
            Completed (FetchTranscript videoId)], [].
    reflexivity.
  - exists [Completed GetCurrentUser; Completed (TranscriptGetByVideoId videoId);
            Completed (FetchTranscript videoId)],
      [Completed (UserVideoUpsert (user_id user) videoId "")].
    reflexivity.
Qed.

Lemma fetched_transcript_is_stored_witness :
  exists r added,
    fetchVideoTranscript (scriptedWorld freshScript) "video-1" []
    = (Return r, ([] ++ added)%list) /\
    (r = unavailable \/
     segments r <> [] /\
     (exists entries, normalize (scriptedWorld freshScript) entries
                      = Return (segments r)) /\
     exists before after,
       added = (before
                  ++ Completed (TranscriptUpsertSegments "video-1" (segments r))
                  :: Completed (UserVideoGetByUserAndYoutubeId
                                  (user_id sampleUser) "video-1")
                  :: after)%list).
Proof.
  apply (fetched_transcript_is_stored (scriptedWorld freshScript) "video-1" []
           sampleUser); reflexivity.
Defined.

(** ** The transcript of the prompt, further *)

Lemma splitRun_piece (piece : string) :
  noWhiteSpace piece = true ->
  forall inRun cur rest,
    JS.splitRun inRun cur (piece ++ rest) =
    match piece with
    | EmptyString => JS.splitRun inRun cur rest
    | String _ _ => JS.splitRun false (cur ++ piece) rest
    end.
Proof.
  induction piece as [|c piece IH]; intros Hp inRun cur rest; [reflexivity|].
  cbn in Hp. apply andb_true_iff in Hp. destruct Hp as [Hc Hp].
  apply negb_true_iff in Hc. cbn [String.append JS.splitRun]. rewrite Hc.
  rewrite (IH Hp false). destruct piece as [|d piece].
  - reflexivity.
  - rewrite append_assoc. reflexivity.
Qed.

(** Joining words (not empty, no white space) by single spaces and
    splitting on white space gives the words back. *)
Lemma splitWhiteSpace_join_words (words : list string) :
  words <> [] ->
  Forall (fun word => word <> "" /\ noWhiteSpace word = true) words ->
  JS.splitWhiteSpace (JS.join " " words) = words.
Proof.
  unfold JS.splitWhiteSpace, JS.join. intros Hne Hall.
  destruct words as [|word words]; [contradiction|]. clear Hne.
  enough (Hgen : forall inRun,
             JS.splitRun inRun "" (String.concat " " (word :: words))
             = word :: words) by apply Hgen.
  revert word Hall. induction words as [|word' words IH]; intros word Hall inRun;
    inversion Hall as [|? ? [Hw Hws] Hrest]; subst.
  - cbn [String.concat].
    replace (JS.splitRun inRun "" word) with (JS.splitRun inRun "" (word ++ ""))
      by (rewrite append_empty_r; reflexivity).
    rewrite (splitRun_piece word Hws inRun EmptyString EmptyString).
    destruct word; [contradiction | reflexivity].
  - change (String.concat " " (word :: word' :: words))
      with (word ++ " " ++ String.concat " " (word' :: words)).
    rewrite (splitRun_piece word Hws inRun EmptyString _).
    destruct word as [|c word]; [contradiction|].
    cbn [String.append JS.splitRun].
    change (JS.isWhiteSpace " ") with true. cbn iota.
    rewrite (IH word' Hrest true). reflexivity.
Qed.

(** X8.  When every segment text is a single word, the transcript of the
    prompt is the first 6000 of these words joined by single spaces:
    nothing is lost below the cap and nothing is kept beyond it. *)
Theorem transcript_of_single_words (segs : list TranscriptSegment) :
  Forall (fun seg => seg_text seg <> "" /\ noWhiteSpace (seg_text seg) = true) segs ->
  truncatedTranscript segs
  = String.concat " " (firstn (Z.to_nat 6000) (map seg_text segs)).
Proof.
  intros Hall. unfold truncatedTranscript, JS.slice0, maxWords.
  destruct segs as [|seg segs]; [reflexivity|].
  rewrite splitWhiteSpace_join_words; [reflexivity | discriminate |].
  rewrite Forall_map. exact Hall.
Qed.

Lemma transcript_of_single_words_witness :
  truncatedTranscript
    [ {| seg_start := "00:00:00"; seg_end := "00:00:01"; seg_text := "Hello";
         seg_isChapterStart := true |};
      {| seg_start := "00:00:01"; seg_end := "00:00:02"; seg_text := "world";
         seg_isChapterStart := false |} ]
  = String.concat " "
      (firstn (Z.to_nat 6000)
         (map seg_text
            [ {| seg_start := "00:00:00"; seg_end := "00:00:01";
                 seg_text := "Hello"; seg_isChapterStart := true |};
              {| seg_start := "00:00:01"; seg_end := "00:00:02";
                 seg_text := "world"; seg_isChapterStart := false |} ])).
Proof.
  apply transcript_of_single_words.
  repeat constructor; discriminate.
Defined.

(** ** The quick-start orchestrator, further *)

(** X9.  When the generation service raises, [generateQuickStartQuestions]
    raises the same exception, and neither the usage tracker nor the
    update of the stored questions is called. *)
Theorem generation_failure_propagates (w : World) (segs : list TranscriptSegment)
  (videoTitle videoDescription : option string) (userVideoId : option Z)
  (videoId : option string) (log log1 : Log) (lang : Lang) (e : Error) :
  resolveUserLanguage w quickStartMessage log = (Return lang, log1) ->
  generateObject w (log1 ++ [Completed DateNow])%list modelName 1
    (buildPrompt w lang segs videoTitle videoDescription) = Throw e ->
  exists added,
    generateQuickStartQuestions w segs videoTitle videoDescription
      userVideoId videoId log = (Throw e, (log ++ added)%list) /\
    Forall (fun ev => isTracking (callOf ev) = false /\
                      isUpdate (callOf ev) = false) added.
Proof.
  intros Hlang Hgen.
  destruct (resolveUserLanguage_returns w quickStartMessage log)
    as [lang' [before [Hrun Hev]]].
  rewrite Hlang in Hrun. injection Hrun as <- ->.
  exists (before ++ [Completed DateNow;
                     Raised (GenerateObject modelName 1
                               (buildPrompt w lang segs videoTitle
                                  videoDescription)) e])%list.
  split.
  - unfold generateQuickStartQuestions, bind, now, await_generateObject, perform.
    rewrite Hlang, Hgen. rewrite <- !app_assoc. reflexivity.
  - apply Forall_app. split; [|repeat constructor].
    eapply Forall_impl; [|exact Hev].
    intros ev [c [Hc Hkind]].
    assert (callOf ev = c) as -> by (destruct Hc as [->|[e' ->]]; reflexivity).
    destruct Hkind as [->|[->|[u ->]]]; split; reflexivity.
Qed.

Lemma generation_failure_propagates_witness :
  exists added,
    generateQuickStartQuestions failingGenerationWorld [] None None
      (Some 7%Z) None [] = (Throw "model overloaded", ([] ++ added)%list) /\
    Forall (fun ev => isTracking (callOf ev) = false /\
                      isUpdate (callOf ev) = false) added.
Proof.
  apply (generation_failure_propagates failingGenerationWorld [] None None
           (Some 7%Z) None []
           [Completed GetCurrentUser; Completed (GetPreferredLanguage "user-1")]
           ID "model overloaded").
  - reflexivity.
  - reflexivity.
Defined.

(** ** The clock of a day *)

Lemma Qfloor_add_Z (x : Q) (n : Z) : Qfloor (x + inject_Z n) = (Qfloor x + n)%Z.
Proof.
  destruct x as [a b]. unfold Qfloor, Qplus, inject_Z. cbn [Qnum Qden].
  rewrite Pos.mul_1_r, Z.mul_1_r. apply Z.div_add. discriminate.
Qed.

Lemma TimeFormatter_comp (p q : Q) : (p == q)%Q -> TimeFormatter p = TimeFormatter q.
Proof. intros Hpq. unfold TimeFormatter. rewrite (Qfloor_comp p q Hpq). reflexivity. Qed.

(** The clock of the specification starts over after 24 hours. *)
Lemma TimeFormatter_a_day_later (x : Q) :
  TimeFormatter (x + inject_Z 86400) = TimeFormatter x.
Proof.
  unfold TimeFormatter. rewrite Qfloor_add_Z. cbv zeta.
  set (s := Qfloor x).
  assert (Hh : ((s + 86400) / 3600 mod 24 = s / 3600 mod 24)%Z)
    by (Z.div_mod_to_equations; lia).
  assert (Hm : ((s + 86400) / 60 mod 60 = s / 60 mod 60)%Z)
    by (Z.div_mod_to_equations; lia).
  assert (Hs : ((s + 86400) mod 60 = s mod 60)%Z)
    by (Z.div_mod_to_equations; lia).
  rewrite Hh, Hm, Hs. reflexivity.
Qed.

(** The [start] of an entry whose offset is a whole number of
    milliseconds, in a zone that keeps one offset. *)
Lemma start_whole (w : World) (item : RawEntry) (index : nat)
  (seg : TranscriptSegment) :
  fixedOffset (timeZone w) ->
  wholeMilliseconds (defaultZero (entry_offset item)) ->
  normalizeEntry w item index = Return seg ->
  seg_start seg = TimeFormatter (defaultZero (entry_offset item)).
Proof.
  intros [offset Hzone] [ms [Hms [Hlo Hhi]]] Hseg.
  apply normalizeEntry_Return in Hseg. destruct Hseg as [Hstart _].
  assert (Hms' : (orZero (entry_offset item) * inject_Z 1000 == inject_Z ms)%Q)
    by (rewrite orZero_defaultZero; exact Hms).
  rewrite (addSeconds_whole w offset _ ms Hzone Hms' Hlo Hhi) in Hstart.
  rewrite (format_whole (timeZone w) offset _ ms Hzone Hms') in Hstart.
  injection Hstart as <-. apply TimeFormatter_comp, orZero_defaultZero.
Qed.

(** X10.  The clock strings carry no day.  In a time zone that keeps one
    offset, of two entries whose offsets are whole numbers of
    milliseconds, the second 86400 seconds after the first, the segments
    have the same [start]: from 24 hours on the strings of a transcript
    start over at 00:00:00. *)
Theorem clock_wraps_after_a_day (w : World) (item later : RawEntry)
  (index : nat) (seg seg' : TranscriptSegment) :
  fixedOffset (timeZone w) ->
  wholeMilliseconds (defaultZero (entry_offset item)) ->
  wholeMilliseconds (defaultZero (entry_offset later)) ->
  (defaultZero (entry_offset later)
   == defaultZero (entry_offset item) + inject_Z 86400)%Q ->
  normalizeEntry w item index = Return seg ->
  normalizeEntry w later index = Return seg' ->
  seg_start seg' = seg_start seg.
Proof.
  intros Hzone Hitem Hlater Hday Hseg Hseg'.
  rewrite (start_whole w item index seg Hzone Hitem Hseg).
  rewrite (start_whole w later index seg' Hzone Hlater Hseg').
  rewrite (TimeFormatter_comp _ _ Hday). apply TimeFormatter_a_day_later.
Qed.

Lemma clock_wraps_after_a_day_witness :
  seg_start {| seg_start := "00:00:07"; seg_end := "00:00:07";
               seg_text := "tomorrow"; seg_isChapterStart := false |}
  = seg_start {| seg_start := "00:00:07"; seg_end := "00:00:07";
                 seg_text := "today"; seg_isChapterStart := false |}.
Proof.
  apply (clock_wraps_after_a_day (scriptedWorld freshScript)
           {| entry_text := "today"; entry_offset := Some (75 # 10)%Q;
              entry_duration := None |}
           {| entry_text := "tomorrow"; entry_offset := Some (864075 # 10)%Q;
              entry_duration := None |} 3).
  - exists 25200000%Z. reflexivity.
  - exists 7500%Z. split; [reflexivity | split; lia].
  - exists 86407500%Z. split; [reflexivity | split; lia].
  - reflexivity.
  - vm_compute. reflexivity.
  - vm_compute. reflexivity.
Defined.

(** ** Start and end within a day *)

Lemma digit_compare (x y : Z) :
  (0 <= x <= 9)%Z -> (0 <= y <= 9)%Z ->
  Ascii.compare (DateFns.digit x) (DateFns.digit y) = (x ?= y)%Z.
Proof.
  intros Hx Hy.
  assert (Ex : (x = 0 \/ x = 1 \/ x = 2 \/ x = 3 \/ x = 4 \/ x = 5 \/ x = 6
                \/ x = 7 \/ x = 8 \/ x = 9)%Z) by lia.
  assert (Ey : (y = 0 \/ y = 1 \/ y = 2 \/ y = 3 \/ y = 4 \/ y = 5 \/ y = 6
                \/ y = 7 \/ y = 8 \/ y = 9)%Z) by lia.
  clear Hx Hy.
  repeat (destruct Ex as [Ex|Ex]); subst x;
    repeat (destruct Ey as [Ey|Ey]); subst y; reflexivity.
Qed.

Lemma twoDigits_compare (a b : Z) (r1 r2 : string) :
  (0 <= a < 100)%Z -> (0 <= b < 100)%Z ->
  String.compare (twoDigits a ++ r1) (twoDigits b ++ r2) =
  match (a ?= b)%Z with
  | Eq => String.compare r1 r2
  | Lt => Lt
  | Gt => Gt
  end.
Proof.
  intros Ha Hb.
  change (twoDigits a) with (DateFns.pad2 a).
  change (twoDigits b) with (DateFns.pad2 b).
  unfold DateFns.pad2. cbn [String.append String.compare].
  assert (Da : (0 <= a / 10 <= 9)%Z) by (Z.div_mod_to_equations; lia).
  assert (Db : (0 <= b / 10 <= 9)%Z) by (Z.div_mod_to_equations; lia).
  assert (Ma : (0 <= a mod 10 <= 9)%Z) by (Z.div_mod_to_equations; lia).
  assert (Mb : (0 <= b mod 10 <= 9)%Z) by (Z.div_mod_to_equations; lia).
  rewrite (digit_compare _ _ Da Db), (digit_compare _ _ Ma Mb).
  pose proof (Z.div_mod a 10 ltac:(lia)) as Ea.
  pose proof (Z.div_mod b 10 ltac:(lia)) as Eb.
  destruct (Z.compare_spec (a / 10) (b / 10));
    destruct (Z.compare_spec (a mod 10) (b mod 10));
    destruct (Z.compare_spec a b); try reflexivity; lia.
Qed.

(** Within a day the clock of the specification keeps the order. *)
Lemma TimeFormatter_monotone (x y : Q) :
  (0 <= x)%Q -> (x <= y)%Q -> (y < inject_Z 86400)%Q ->
  String.leb (TimeFormatter x) (TimeFormatter y) = true.
Proof.
  intros H0 Hxy Hday.
  assert (B1 : (0 <= Qfloor x)%Z)
    by (change 0%Z with (Qfloor 0); apply Qfloor_resp_le; exact H0).
  assert (B2 : (Qfloor x <= Qfloor y)%Z) by (apply Qfloor_resp_le; exact Hxy).
  assert (B3 : (Qfloor y < 86400)%Z).
  { rewrite Zlt_Qlt. apply Qle_lt_trans with y; [apply Qfloor_le | exact Hday]. }
  unfold String.leb, TimeFormatter. cbv zeta.
  set (s1 := Qfloor x) in *. set (s2 := Qfloor y) in *.
  set (h1 := (s1 / 3600 mod 24)%Z). set (h2 := (s2 / 3600 mod 24)%Z).
  set (m1 := (s1 / 60 mod 60)%Z). set (m2 := (s2 / 60 mod 60)%Z).
  set (c1 := (s1 mod 60)%Z). set (c2 := (s2 mod 60)%Z).
  assert (Bh1 : (0 <= h1 < 100)%Z) by (unfold h1; Z.div_mod_to_equations; lia).
  assert (Bh2 : (0 <= h2 < 100)%Z) by (unfold h2; Z.div_mod_to_equations; lia).
  assert (Bm1 : (0 <= m1 < 100)%Z) by (unfold m1; Z.div_mod_to_equations; lia).
  assert (Bm2 : (0 <= m2 < 100)%Z) by (unfold m2; Z.div_mod_to_equations; lia).
  assert (Bs1 : (0 <= c1 < 100)%Z) by (unfold c1; Z.div_mod_to_equations; lia).
  assert (Bs2 : (0 <= c2 < 100)%Z) by (unfold c2; Z.div_mod_to_equations; lia).
  assert (Hlex : (h1 < h2 \/ h1 = h2 /\ (m1 < m2 \/ m1 = m2 /\ c1 <= c2))%Z).
  { unfold h1, h2, m1, m2, c1, c2. Z.div_mod_to_equations. lia. }
  rewrite (twoDigits_compare _ _ _ _ Bh1 Bh2).
  destruct (Z.compare_spec h1 h2); [|reflexivity|lia].
  cbn [String.append String.compare]. change (Ascii.compare ":" ":") with Eq.
  cbv iota. rewrite (twoDigits_compare _ _ _ _ Bm1 Bm2).
  destruct (Z.compare_spec m1 m2); [|reflexivity|lia].
  cbn [String.append String.compare]. change (Ascii.compare ":" ":") with Eq.
  cbv iota.
  rewrite <- (append_empty_r (twoDigits c1)), <- (append_empty_r (twoDigits c2)).
  rewrite (twoDigits_compare _ _ _ _ Bs1 Bs2).
  destruct (Z.compare_spec c1 c2); [reflexivity|reflexivity|lia].
Qed.

(** X11.  In a time zone that keeps one offset, an entry whose offset is
    a whole number of milliseconds, whose duration is not negative and
    whose offset plus duration is a double, a whole number of
    milliseconds too, below 24 hours, is normalized to a segment whose
    [start] is not after its [end] in the order of strings. *)
Theorem start_is_not_after_end (w : World) (item : RawEntry) (index : nat) :
  fixedOffset (timeZone w) ->
  wholeMilliseconds (defaultZero (entry_offset item)) ->
  isDouble (defaultZero (entry_offset item) + defaultZero (entry_duration item)) ->
  wholeMilliseconds (defaultZero (entry_offset item)
                     + defaultZero (entry_duration item)) ->
  (0 <= defaultZero (entry_duration item))%Q ->
  (defaultZero (entry_offset item) + defaultZero (entry_duration item)
   < inject_Z 86400)%Q ->
  exists seg,
    normalizeEntry w item index = Return seg /\
    String.leb (seg_start seg) (seg_end seg) = true.
Proof.
  intros [offset Hzone] Hstart Hsum Hend Hd Hday.
  destruct (normalizeEntry_whole w offset item index Hzone Hstart Hsum Hend)
    as [seg [Hseg [Hs He]]].
  exists seg. split; [exact Hseg|]. rewrite Hs, He.
  destruct Hstart as [ms [Hms [Hlo _]]].
  apply TimeFormatter_monotone; [|lra|exact Hday].
  assert (H1000 : (0 <= defaultZero (entry_offset item) * inject_Z 1000)%Q).
  { rewrite Hms. change 0%Q with (inject_Z 0). rewrite <- Zle_Qle. exact Hlo. }
  change (inject_Z 1000) with 1000%Q in H1000. lra.
Qed.

Lemma start_is_not_after_end_witness :
  exists seg,
    normalizeEntry (scriptedWorld freshScript)
      {| entry_text := "N/A"; entry_offset := Some (25 # 10)%Q;
         entry_duration := Some (3 # 1)%Q |} 1 = Return seg /\
    String.leb (seg_start seg) (seg_end seg) = true.
Proof.
  apply start_is_not_after_end.
  - exists 25200000%Z. reflexivity.
  - exists 2500%Z. split; [reflexivity | split; lia].
  - eexists. split; [vm_compute; reflexivity | reflexivity].
  - exists 5500%Z. split; [reflexivity | split; lia].
  - discriminate.
  - reflexivity.
Defined.

(** Past midnight the order is lost: an entry from 23:59:50 that lasts 20
    seconds ends, as a string, before it starts. *)
Example end_before_start_across_midnight :
  exists seg,
    normalizeEntry (scriptedWorld freshScript)
      {| entry_text := "late"; entry_offset := Some (86390 # 1)%Q;
         entry_duration := Some (20 # 1)%Q |} 0 = Return seg /\
    seg_start seg = "23:59:50" /\ seg_end seg = "00:00:10" /\
    String.leb (seg_start seg) (seg_end seg) = false.
Proof. eexists. vm_compute. repeat split. Qed.

(** ** The usage that is tracked *)

Lemma filter_none {A : Type} (p : A -> bool) (l : list A) :
  Forall (fun x => p x = false) l -> filter p l = [].
Proof.
  induction 1 as [|x l Hx _ IH]; cbn; [reflexivity|].
  rewrite Hx. exact IH.
Qed.

Lemma language_events_are_not_tracking (w : World) (message : string) (log : Log) :
  exists lang added,
    resolveUserLanguage w message log = (Return lang, (log ++ added)%list) /\
    Forall (fun ev => isTracking (callOf ev) = false) added.
Proof.
  destruct (resolveUserLanguage_returns w message log) as [lang [added [Hrun Hev]]].
  exists lang, added. split; [exact Hrun|].
  eapply Forall_impl; [|exact Hev]. intros ev [c [Hc Hkind]].
  assert (callOf ev = c) as -> by (destruct Hc as [->|[e' ->]]; reflexivity).
  destruct Hkind as [->|[->|[u ->]]]; reflexivity.
Qed.

(** What follows the generation call tracks the usage at most once, for
    the result and the ids it was given. *)
Lemma afterGeneration_tracking (w : World) (result : GenerateObjectResult)
  (userVideoId : option Z) (videoId : option string) (startTime : Z) (log : Log) :
  exists outcome added,
    afterGeneration w result userVideoId videoId startTime log
    = (outcome, (log ++ added)%list) /\
    List.length (filter (fun ev => isTracking (callOf ev)) added) <= 1 /\
    (forall ev result' info,
        In ev added -> callOf ev = TrackGenerateTextUsage result' info ->
        result' = result /\
        usage_model info = "gpt-5-nano" /\
        usage_provider info = "openai" /\
        usage_operation info = "quick_start_questions" /\
        usage_videoId info = videoId /\
        usage_userVideoId info = userVideoId /\
        (exists user, getCurrentUser w log = Return user /\
                      usage_userId info = user_id user) /\
        usage_requestDuration info
        = (Date_now w (log ++ [Completed GetCurrentUser])%list - startTime)%Z).
Proof.
  unfold afterGeneration, trackUsageBestEffort, trackUsage, persistQuestions.
  unfold_run.
  repeat run_step;
    do 2 eexists; (split; [f_equal; added_events|]);
    (split; [cbn; lia|]);
    intros ev' result' info Hin Hcall; cbn in Hin;
    repeat (destruct Hin as [<-|Hin]; [try discriminate Hcall|]);
    try contradiction;
    cbn in Hcall; injection Hcall as <- <-; cbn;
    repeat split; eexists; split; reflexivity.
Qed.

(** X12.  In a run of [generateQuickStartQuestions] whose generation call
    answered, usage is tracked at most once, after that call: for the
    result it answered, the model gpt-5-nano of the provider openai, the
    operation quick_start_questions, the video and association ids given,
    the current user, and the time from the clock read before the
    generation call to the clock read before tracking. *)
Theorem usage_is_tracked_once (w : World) (segs : list TranscriptSegment)
  (videoTitle videoDescription : option string) (userVideoId : option Z)
  (videoId : option string) (log log1 : Log) (lang : Lang)
  (result : GenerateObjectResult) :
  resolveUserLanguage w quickStartMessage log = (Return lang, log1) ->
  let prompt := buildPrompt w lang segs videoTitle videoDescription in
  generateObject w (log1 ++ [Completed DateNow])%list modelName 1 prompt
  = Return result ->
  let log3 := ((log1 ++ [Completed DateNow])
                 ++ [Completed (GenerateObject modelName 1 prompt)])%list in
  exists outcome added,
    generateQuickStartQuestions w segs videoTitle videoDescription
      userVideoId videoId log = (outcome, (log ++ added)%list) /\
    List.length (filter (fun ev => isTracking (callOf ev)) added) <= 1 /\
    (forall ev result' info,
        In ev added -> callOf ev = TrackGenerateTextUsage result' info ->
        result' = result /\
        usage_model info = "gpt-5-nano" /\
        usage_provider info = "openai" /\
        usage_operation info = "quick_start_questions" /\
        usage_videoId info = videoId /\
        usage_userVideoId info = userVideoId /\
        (exists user, getCurrentUser w log3 = Return user /\
                      usage_userId info = user_id user) /\
        usage_requestDuration info
        = (Date_now w (log3 ++ [Completed GetCurrentUser])%list
           - Date_now w log1)%Z).
Proof.
  intros Hlang prompt Hgen log3.
  destruct (quickStart_after_generation w segs videoTitle videoDescription
              userVideoId videoId log log1 lang result Hlang Hgen)
    as [before [Hlog1 [_ Hrun]]].
  fold prompt in Hrun. fold log3 in Hrun.
  destruct (language_events_are_not_tracking w quickStartMessage log)
    as [lang' [before' [Hrun' Hquiet]]].
  rewrite Hlang in Hrun'. injection Hrun' as _ Hbefore.
  assert (before' = before) as -> by (apply (app_inv_head log); congruence).
  destruct (afterGeneration_tracking w result userVideoId videoId
              (Date_now w log1) log3)
    as [outcome [added [Hafter [Hcount Hinfo]]]].
  exists outcome,
    (before ++ [Completed DateNow; Completed (GenerateObject modelName 1 prompt)]
       ++ added)%list.
  split; [|split].
  - rewrite Hrun, Hafter. f_equal. unfold log3. rewrite Hlog1.
    rewrite <- !app_assoc. reflexivity.
  - rewrite filter_app, (filter_none _ _ Hquiet). exact Hcount.
  - intros ev result' info Hin Hcall.
    apply in_app_or in Hin. destruct Hin as [Hin|Hin].
    { rewrite Forall_forall in Hquiet. specialize (Hquiet ev Hin).
      rewrite Hcall in Hquiet. discriminate Hquiet. }
    cbn in Hin. destruct Hin as [<-|[<-|Hin]]; try discriminate Hcall.
    exact (Hinfo ev result' info Hin Hcall).
Qed.

Lemma usage_is_tracked_once_witness :
  exists outcome added,
    generateQuickStartQuestions (scriptedWorld quietScript) [] None
      (Some "About things") (Some 7%Z) (Some "video-1") []
    = (outcome, ([] ++ added)%list) /\
    List.length (filter (fun ev => isTracking (callOf ev)) added) <= 1 /\
    (forall ev result' info,
        In ev added -> callOf ev = TrackGenerateTextUsage result' info ->
        result' = script_generation quietScript /\
        usage_model info = "gpt-5-nano" /\
        usage_provider info = "openai" /\
        usage_operation info = "quick_start_questions" /\
        usage_videoId info = Some "video-1" /\
        usage_userVideoId info = Some 7%Z /\
        (exists user,
            getCurrentUser (scriptedWorld quietScript)
              (([Completed GetCurrentUser; Completed (GetPreferredLanguage "user-1")]
                  ++ [Completed DateNow])
                 ++ [Completed
                       (GenerateObject modelName 1
                          (buildPrompt (scriptedWorld quietScript) ID [] None
                             (Some "About things")))])%list
            = Return user /\
            usage_userId info = user_id user) /\
        usage_requestDuration info
        = (Date_now (scriptedWorld quietScript)
             ((([Completed GetCurrentUser; Completed (GetPreferredLanguage "user-1")]
                  ++ [Completed DateNow])
                 ++ [Completed
                       (GenerateObject modelName 1
                          (buildPrompt (scriptedWorld quietScript) ID [] None
                             (Some "About things")))])
                ++ [Completed GetCurrentUser])%list
           - Date_now (scriptedWorld quietScript)
               [Completed GetCurrentUser;
                Completed (GetPreferredLanguage "user-1")])%Z).
Proof.
  apply (usage_is_tracked_once (scriptedWorld quietScript) [] None
           (Some "About things") (Some 7%Z) (Some "video-1") []
           [Completed GetCurrentUser; Completed (GetPreferredLanguage "user-1")]
           ID (script_generation quietScript));
    reflexivity.
Defined.

(** ** [encodeURIComponent] and the request of [fetchVideoFromApi] *)

Lemma allChars_app (p : ascii -> bool) (a b : string) :
  allChars p (a ++ b) = allChars p a && allChars p b.
Proof.
  induction a as [|c a IH]; cbn; [reflexivity|].
  rewrite IH. apply andb_assoc.
Qed.

Lemma encodeUnit_safe (c : ascii) : allChars uriSafe (URI.encodeUnit c) = true.
Proof. destruct c as [[] [] [] [] [] [] [] []]; vm_compute; reflexivity. Qed.

Lemma encodeURIComponent_safe (s : string) :
  allChars uriSafe (URI.encodeURIComponent s) = true.
Proof.
  induction s as [|c s IH]; cbn; [reflexivity|].
  rewrite allChars_app, encodeUnit_safe, IH. reflexivity.
Qed.

Lemma allChars_occurs (p : ascii -> bool) (s : string) (c : ascii) :
  allChars p s = true -> p c = false -> occurs c s = false.
Proof.
  induction s as [|d s IH]; cbn; [reflexivity|].
  intros Hall Hc. apply andb_true_iff in Hall. destruct Hall as [Hd Hs].
  rewrite (IH Hs Hc), orb_false_r.
  destruct (Ascii.eqb_spec d c) as [->|]; [congruence | reflexivity].
Qed.

(** X13.  Whatever the video id holds, the value of the [videoUrl]
    parameter of the request is made of unreserved characters and percent
    signs only: no [&], [=], [?], [#], [/], [+] or space of the id reaches
    the address. *)
Theorem request_parameter_is_escaped (w : Details.World) (videoId : string) :
  exists value,
    Details.requestUrl w videoId
    = Details.API_BASE_URL w ++ "/youtube/video?videoUrl=" ++ value /\
    allChars uriSafe value = true /\
    Forall (fun c => occurs c value = false)
      ["&"; "="; "?"; "#"; "/"; "+"; " "; ":"]%char.
Proof.
  exists (URI.encodeURIComponent ("https://www.youtube.com/watch?v=" ++ videoId)).
  split; [reflexivity|].
  pose proof (encodeURIComponent_safe
                ("https://www.youtube.com/watch?v=" ++ videoId)) as Hsafe.
  split; [exact Hsafe|].
  repeat constructor; apply (allChars_occurs uriSafe _ _ Hsafe); reflexivity.
Qed.

Lemma encodeURIComponent_app (a b : string) :
  URI.encodeURIComponent (a ++ b)
  = URI.encodeURIComponent a ++ URI.encodeURIComponent b.
Proof.
  induction a as [|c a IH]; cbn; [reflexivity|].
  rewrite IH, append_assoc. reflexivity.
Qed.

Lemma encodeURIComponent_unreserved (s : string) :
  allChars URI.isUnreserved s = true -> URI.encodeURIComponent s = s.
Proof.
  induction s as [|c s IH]; cbn; [reflexivity|].
  intros Hall. apply andb_true_iff in Hall. destruct Hall as [Hc Hs].
  unfold URI.encodeUnit. rewrite Hc, (IH Hs). reflexivity.
Qed.

(** X14.  A video id made of letters, digits, [-] and [_] (and the other
    unreserved marks) reaches the provider as it is, behind the escaped
    watch address. *)
Theorem request_for_plain_id (w : Details.World) (videoId : string) :
  allChars URI.isUnreserved videoId = true ->
  Details.requestUrl w videoId
  = Details.API_BASE_URL w
      ++ "/youtube/video?videoUrl=https%3A%2F%2Fwww.youtube.com%2Fwatch%3Fv%3D"
      ++ videoId.
Proof.
  intros Hid. unfold Details.requestUrl.
  rewrite encodeURIComponent_app, (encodeURIComponent_unreserved videoId Hid).
  reflexivity.
Qed.

Lemma request_for_plain_id_witness :
  Details.requestUrl (Details.scriptedWorld Details.freshScript) "dQw4w9WgXcQ"
  = "https://api.example.test"
      ++ "/youtube/video?videoUrl=https%3A%2F%2Fwww.youtube.com%2Fwatch%3Fv%3D"
      ++ "dQw4w9WgXcQ".
Proof.
  apply (request_for_plain_id (Details.scriptedWorld Details.freshScript)
           "dQw4w9WgXcQ").
  reflexivity.
Defined.

(** ** Escapes do not collide *)

Lemma In_allUnits (c : ascii) : In c allUnits.
Proof.
  unfold allUnits. rewrite <- (ascii_nat_embedding c).
  apply in_map, in_seq. pose proof (nat_ascii_bounded c). lia.
Qed.

(** No escape of a code unit starts the escape of another one. *)
Lemma escapes_are_apart :
  forallb (fun c =>
             forallb (fun d =>
                        implb (String.prefix (URI.encodeUnit c) (URI.encodeUnit d))
                              (Ascii.eqb c d))
                     allUnits)
          allUnits = true.
Proof. vm_compute. reflexivity. Qed.

Lemma encodeUnit_apart (c d : ascii) :
  String.prefix (URI.encodeUnit c) (URI.encodeUnit d) = true -> c = d.
Proof.
  intros Hpre.
  pose proof (proj1 (forallb_forall _ _) escapes_are_apart c (In_allUnits c))
    as Hc.
  pose proof (proj1 (forallb_forall _ _) Hc d (In_allUnits d)) as Hcd.
  cbv beta in Hcd. rewrite Hpre in Hcd.
  apply Ascii.eqb_eq. exact Hcd.
Qed.

Lemma append_same_start (a b x y : string) :
  a ++ x = b ++ y -> String.prefix a b = true \/ String.prefix b a = true.
Proof.
  revert b; induction a as [|c a IH]; intros b Heq.
  - left. destruct b; reflexivity.
  - destruct b as [|d b]; [right; reflexivity|].
    cbn in Heq. injection Heq as -> Hrest. cbn.
    destruct (ascii_dec d d) as [_|Hne]; [|contradiction].
    exact (IH b Hrest).
Qed.

Lemma append_cancel_l (a x y : string) : a ++ x = a ++ y -> x = y.
Proof.
  induction a as [|c a IH]; cbn; intros Heq; [exact Heq|].
  injection Heq as Hrest. exact (IH Hrest).
Qed.

Lemma encodeURIComponent_injective (a b : string) :
  URI.encodeURIComponent a = URI.encodeURIComponent b -> a = b.
Proof.
  revert b; induction a as [|c a IH]; intros b Heq.
  - destruct b as [|d b]; [reflexivity|]. cbn in Heq.
    destruct d as [[] [] [] [] [] [] [] []]; discriminate Heq.
  - destruct b as [|d b].
    + cbn in Heq. destruct c as [[] [] [] [] [] [] [] []]; discriminate Heq.
    + cbn in Heq.
      assert (c = d) as ->.
      { destruct (append_same_start _ _ _ _ Heq) as [Hpre|Hpre].
        - exact (encodeUnit_apart c d Hpre).
        - symmetry. exact (encodeUnit_apart d c Hpre). }
      f_equal. apply IH. exact (append_cancel_l _ _ _ Heq).
Qed.

(** X15.  Two video ids that differ are never asked for at the same
    address. *)
Theorem request_tells_ids_apart (w : Details.World) (videoId otherId : string) :
  Details.requestUrl w videoId = Details.requestUrl w otherId ->
  videoId = otherId.
Proof.
  unfold Details.requestUrl. intros Heq.
  apply append_cancel_l, append_cancel_l in Heq.
  apply encodeURIComponent_injective in Heq.
  exact (append_cancel_l _ _ _ Heq).
Qed.

Lemma request_tells_ids_apart_witness : "dQw4w9WgXcQ" = "dQw4w9WgXcQ".
Proof.
  apply (request_tells_ids_apart (Details.scriptedWorld Details.freshScript)).
  reflexivity.
Defined.

(** ** [fetchVideoDetails] *)

Module DetailsFacts.
Import Details.

Ltac unfold_details :=
  unfold fetchVideoDetails, fetchVideoDetails_try, fetchVideoFromApi,
    try_catch, bind, ret, throw, console, newDate, evaluate, perform.

Ltac details_cbn :=
  cbn -[requestUrl numberToString refreshedThumbnail firstThumbnail dateOrNull
        storedDetails].

Ltac details_step := next_answer; details_cbn.


(** The details of a stored video are not answered only when its
    publication date is an invalid date, on which [toISOString] throws. *)
Lemma storedDetails_Throw (w : World) (existingVideo : StoredVideo)
  (uv : option UserVideo) (e : Error) :
  storedDetails w existingVideo uv = Throw e ->
  sv_publishedAt existingVideo = Some JS.InvalidDate.
Proof.
  unfold storedDetails, publishedAtOf.
  destruct (sv_publishedAt existingVideo) as [[|t]|]; [reflexivity | discriminate..].
Qed.

Lemma storedDetails_Return (w : World) (existingVideo : StoredVideo)
  (uv : option UserVideo) :
  sv_publishedAt existingVideo <> Some JS.InvalidDate ->
  storedDetails w existingVideo uv
  = Return (detailsOfStored existingVideo uv
              match sv_publishedAt existingVideo with
              | Some (JS.DateOf t) => Some (toISOString w t)
              | _ => None
              end).
Proof.
  unfold storedDetails, publishedAtOf.
  destruct (sv_publishedAt existingVideo) as [[|t]|]; [contradiction | reflexivity..].
Qed.






(** X17.  When the provider answers a status that is not ok, the body is
    not read and no video row is written; the request that was made is
    answered by the placeholder. *)
Theorem provider_error_status (w : World) (videoId : string) (log : Log) :
  (forall l url key response,
      fetch w l url key = Return response -> resp_ok response = false) ->
  exists r added,
    fetchVideoDetails w videoId log = (Return r, (log ++ added)%list) /\
    Forall (fun ev => callOf ev <> ResponseJson /\
                      isVideoUpsert (callOf ev) = false) added /\
    (Exists (fun ev => isNetwork (callOf ev) = true) added ->
     exists before,
       r = placeholderDetails videoId
             (toISOString w (Date_now w (log ++ before)%list))).
Proof.
  intros Hdown. unfold_details.
  repeat details_step;
    try match goal with
        | H : fetch w _ _ _ = Return ?resp, Hok : negb (resp_ok ?resp) = false |- _ =>
            rewrite (Hdown _ _ _ _ H) in Hok; discriminate Hok
        end;
    do 2 eexists; (split; [f_equal; added_events|]);
    (split; [repeat constructor; discriminate|]);
    intros Hex;
    first [ exfalso;
            repeat (apply Exists_cons in Hex;
                    destruct Hex as [Hex|Hex]; [discriminate Hex|]);
            apply Exists_nil in Hex; exact Hex
          | eexists; f_equal; f_equal; f_equal;
            repeat rewrite <- app_assoc; reflexivity ].
Qed.

Lemma provider_error_status_witness :
  exists r added,
    fetchVideoDetails (scriptedWorld notFoundScript) "dQw4w9WgXcQ" []
    = (Return r, ([] ++ added)%list) /\
    Forall (fun ev => callOf ev <> ResponseJson /\
                      isVideoUpsert (callOf ev) = false) added /\
    (Exists (fun ev => isNetwork (callOf ev) = true) added ->
     exists before,
       r = placeholderDetails "dQw4w9WgXcQ"
             (toISOString (scriptedWorld notFoundScript)
                (Date_now (scriptedWorld notFoundScript) ([] ++ before)%list))).
Proof.
  apply (provider_error_status (scriptedWorld notFoundScript) "dQw4w9WgXcQ" []).
  intros l url key response [= <-]. reflexivity.
Defined.

(** X18.  A stored video whose channel title is anything but "Unknown
    Channel", and whose publication date is null or a valid date, is
    answered from the store: no request is made, nothing is written, and
    [video] is the stored row, with a missing description, channel title
    or thumbnail read as the empty string. *)
Theorem known_video_is_served_from_store (w : World) (videoId : string)
  (log : Log) (user : User) (stored : StoredVideo) (uv : option UserVideo) :
  getCurrentUser w log = Return user ->
  VideoRepository_getByYoutubeId w (log ++ [Completed GetCurrentUser])%list videoId
  = Return (Some stored) ->
  sv_channelTitle stored <> Some "Unknown Channel" ->
  sv_publishedAt stored <> Some JS.InvalidDate ->
  UserVideoRepository_getByUserAndYoutubeId w
    ((log ++ [Completed GetCurrentUser])
       ++ [Completed (VideoGetByYoutubeId videoId)])%list (user_id user) videoId
  = Return uv ->
  exists r,
    fetchVideoDetails w videoId log
    = (Return r,
       (log ++ [Completed GetCurrentUser; Completed (VideoGetByYoutubeId videoId);
                Completed (UserVideoGetByUserAndYoutubeId (user_id user) videoId)])%list) /\
    video r = Some stored /\ userVideo r = uv /\ title r = sv_title stored /\
    description r = Some (match sv_description stored with
                          | Some d => d | None => "" end) /\
    channelTitle r = Some (match sv_channelTitle stored with
                           | Some c => c | None => "" end) /\
    publishedAt r = match sv_publishedAt stored with
                    | Some (JS.DateOf t) => Some (toISOString w t)
                    | _ => None
                    end /\
    tags r = Some [].
Proof.
  intros Huser Hstored Hchannel Hdate Hassoc.
  assert (Hknown : isUnknownChannel stored = false).
  { unfold isUnknownChannel. destruct (sv_channelTitle stored) as [c|]; [|reflexivity].
    destruct (String.eqb_spec c "Unknown Channel") as [->|]; [|reflexivity].
    contradiction. }
  unfold_details. rewrite Huser. details_cbn. rewrite Hstored. details_cbn.
  rewrite Hassoc. details_cbn.
  rewrite Hknown, (storedDetails_Return w stored uv Hdate).
  eexists. split; [f_equal; added_events|].
  repeat split.
Qed.

Lemma known_video_is_served_from_store_witness :
  exists r,
    fetchVideoDetails (scriptedWorld knownScript) "dQw4w9WgXcQ" []
    = (Return r,
       ([] ++ [Completed GetCurrentUser;
               Completed (VideoGetByYoutubeId "dQw4w9WgXcQ");
               Completed (UserVideoGetByUserAndYoutubeId (user_id sampleUser)
                            "dQw4w9WgXcQ")])%list) /\
    video r = Some knownVideo /\ userVideo r = None /\
    title r = sv_title knownVideo /\
    description r = Some (match sv_description knownVideo with
                          | Some d => d | None => "" end) /\
    channelTitle r = Some (match sv_channelTitle knownVideo with
                           | Some c => c | None => "" end) /\
    publishedAt r = match sv_publishedAt knownVideo with
                    | Some (JS.DateOf t) =>
                        Some (toISOString (scriptedWorld knownScript) t)
                    | _ => None
                    end /\
    tags r = Some [].
Proof.
  apply (known_video_is_served_from_store (scriptedWorld knownScript)
           "dQw4w9WgXcQ" [] sampleUser knownVideo None);
    [reflexivity | reflexivity | discriminate | discriminate | reflexivity].
Defined.

(** The first candidate that is given and not empty, after candidates
    that are missing or empty; none when all are. *)
Lemma firstTruthy_spec (candidates : list (option string)) :
  match firstTruthy candidates with
  | Some u =>
      u <> "" /\
      exists before after,
        candidates = (before ++ Some u :: after)%list /\ Forall noUrl before
  | None => Forall noUrl candidates
  end.
Proof.
  induction candidates as [|[s|] candidates IH]; cbn [firstTruthy].
  - constructor.
  - destruct (String.eqb_spec s "") as [->|Hs].
    + destruct (firstTruthy candidates) as [u|].
      * destruct IH as [Hu [before [after [-> Hbefore]]]].
        split; [exact Hu|]. exists (Some "" :: before), after.
        split; [reflexivity|]. constructor; [right; reflexivity | exact Hbefore].
      * constructor; [right; reflexivity | exact IH].
    + split; [exact Hs|]. exists [], candidates. split; [reflexivity | constructor].
  - destruct (firstTruthy candidates) as [u|].
    + destruct IH as [Hu [before [after [-> Hbefore]]]].
      split; [exact Hu|]. exists (None :: before), after.
      split; [reflexivity|]. constructor; [left; reflexivity | exact Hbefore].
    + constructor; [left; reflexivity | exact IH].
Qed.

(** X19.  The thumbnail written with a video.  On a refresh it is the
    first url that is given and not empty among the sizes high, medium and
    default, and null when there is none; maxres and standard are not
    looked at.  On the first store it is the first such url among maxres,
    standard, high, medium and default, and the empty string, never null,
    when there is none. *)
Theorem thumbnail_priority (data : ApiVideo) :
  let size := urlOf (api_thumbnails data) in
  match refreshedThumbnail data with
  | Some u =>
      u <> "" /\
      exists before after,
        [size thumbs_high; size thumbs_medium; size thumbs_default]
        = (before ++ Some u :: after)%list /\ Forall noUrl before
  | None =>
      Forall noUrl [size thumbs_high; size thumbs_medium; size thumbs_default]
  end /\
  exists u,
    firstThumbnail data = Some u /\
    (u = "" ->
     Forall noUrl [size thumbs_maxres; size thumbs_standard; size thumbs_high;
                   size thumbs_medium; size thumbs_default]) /\
    (u <> "" ->
     exists before after,
       [size thumbs_maxres; size thumbs_standard; size thumbs_high;
        size thumbs_medium; size thumbs_default]
       = (before ++ Some u :: after)%list /\ Forall noUrl before).
Proof.
  cbn zeta. split.
  - exact (firstTruthy_spec _).
  - unfold firstThumbnail.
    pose proof (firstTruthy_spec
                  [urlOf (api_thumbnails data) thumbs_maxres;
                   urlOf (api_thumbnails data) thumbs_standard;
                   urlOf (api_thumbnails data) thumbs_high;
                   urlOf (api_thumbnails data) thumbs_medium;
                   urlOf (api_thumbnails data) thumbs_default]) as Hspec.
    destruct (firstTruthy _) as [u|]; eexists; (split; [reflexivity|]); cbn.
    + destruct Hspec as [Hu Hfirst]. split; [contradiction | intros _; exact Hfirst].
    + split; [intros _; exact Hspec | contradiction].
Qed.

(** X20.  A stored video whose channel title is "Unknown Channel" is
    refreshed: the provider is asked and one row is written for the
    requested id, with the provider's title, description and channel, the
    publication date read from the provider's text, the refresh thumbnail
    and both dates set.  The details answered are read from the row the
    store gives back, not from the provider's answer; when that row has
    an invalid publication date they are the placeholder. *)
Theorem stale_video_is_refreshed (w : World) (videoId : string) (log : Log)
  (user : User) (stored : StoredVideo) (uv : option UserVideo)
  (response : Response) (data : ApiVideo) (store : StoredVideo -> StoredVideo) :
  getCurrentUser w log = Return user ->
  (forall l, VideoRepository_getByYoutubeId w l videoId = Return (Some stored)) ->
  sv_channelTitle stored = Some "Unknown Channel" ->
  (forall l, UserVideoRepository_getByUserAndYoutubeId w l (user_id user) videoId
             = Return uv) ->
  (forall l url key, fetch w l url key = Return response) ->
  resp_ok response = true ->
  (forall l, Response_json w l = Return data) ->
  (forall l row, VideoRepository_upsert w l row = Return (store row)) ->
  exists r added row,
    fetchVideoDetails w videoId log = (Return r, (log ++ added)%list) /\
    filter (fun ev => isVideoUpsert (callOf ev)) added = [Completed (VideoUpsert row)] /\
    sv_youtubeId row = videoId /\
    sv_title row = api_title data /\
    sv_description row = api_description data /\
    sv_channelTitle row = api_channelTitle data /\
    sv_publishedAt row = dateOrNull w (api_publishedAt data) /\
    sv_thumbnailUrl row = refreshedThumbnail data /\
    sv_createdAt row <> None /\ sv_updatedAt row <> None /\
    match sv_publishedAt (store row) with
    | Some JS.InvalidDate =>
        exists before,
          r = placeholderDetails videoId
                (toISOString w (Date_now w (log ++ before)%list))
    | _ => storedDetails w (store row) uv = Return r
    end.
Proof.
  intros Huser Hstored Hunknown Hassoc Hfetch Hok Hjson Hupsert.
  assert (Hstale : isUnknownChannel stored = true)
    by (unfold isUnknownChannel; rewrite Hunknown; reflexivity).
  unfold_details. rewrite Huser. details_cbn. rewrite Hstored. details_cbn.
  rewrite Hassoc. details_cbn. rewrite Hstale, Hfetch. details_cbn.
  rewrite Hok. details_cbn. rewrite Hjson. details_cbn. rewrite Hupsert.
  repeat rewrite <- app_assoc. cbn [app].
  match goal with
  | |- context [storedDetails w (store ?row) uv] => set (written := row)
  end.
  destruct (storedDetails w (store written) uv) as [details|e] eqn:Hdetails;
    repeat rewrite <- app_assoc; cbn [app].
  - exists details. do 2 eexists. split; [reflexivity|].
    cbn [filter callOf isVideoUpsert].
    split; [reflexivity|]. cbn -[dateOrNull refreshedThumbnail].
    repeat (split; [first [reflexivity | discriminate]|]).
    fold written.
    destruct (sv_publishedAt (store written)) as [[|t]|] eqn:Hdate;
      [|exact Hdetails..].
    unfold storedDetails, publishedAtOf in Hdetails. rewrite Hdate in Hdetails.
    discriminate Hdetails.
  - do 3 eexists. split; [reflexivity|].
    cbn [filter callOf isVideoUpsert].
    split; [reflexivity|]. cbn -[dateOrNull refreshedThumbnail].
    repeat (split; [first [reflexivity | discriminate]|]).
    fold written. rewrite (storedDetails_Throw _ _ _ _ Hdetails).
    eexists. reflexivity.
Qed.

Lemma stale_video_is_refreshed_witness :
  exists r added row,
    fetchVideoDetails (scriptedWorld staleScript) "dQw4w9WgXcQ" []
    = (Return r, ([] ++ added)%list) /\
    filter (fun ev => isVideoUpsert (callOf ev)) added = [Completed (VideoUpsert row)] /\
    sv_youtubeId row = "dQw4w9WgXcQ" /\
    sv_title row = api_title sampleBody /\
    sv_description row = api_description sampleBody /\
    sv_channelTitle row = api_channelTitle sampleBody /\
    sv_publishedAt row = dateOrNull (scriptedWorld staleScript)
                           (api_publishedAt sampleBody) /\
    sv_thumbnailUrl row = refreshedThumbnail sampleBody /\
    sv_createdAt row <> None /\ sv_updatedAt row <> None /\
    match sv_publishedAt (storeAsGiven row) with
    | Some JS.InvalidDate =>
        exists before,
          r = placeholderDetails "dQw4w9WgXcQ"
                (toISOString (scriptedWorld staleScript)
                   (Date_now (scriptedWorld staleScript) ([] ++ before)%list))
    | _ => storedDetails (scriptedWorld staleScript) (storeAsGiven row) None
           = Return r
    end.
Proof.
  apply (stale_video_is_refreshed (scriptedWorld staleScript) "dQw4w9WgXcQ" []
           sampleUser staleVideo None okResponse sampleBody storeAsGiven);
    reflexivity.
Defined.

(** A refresh whose publication date cannot be read: the row is written
    with an invalid date, the store gives it back, and the answer is the
    placeholder. *)
Example unreadable_date_gives_the_placeholder :
  let run := fetchVideoDetails (scriptedWorld undatedScript) "dQw4w9WgXcQ" [] in
  fst run = Return (placeholderDetails "dQw4w9WgXcQ" "1970-01-01T00:00:00.000Z") /\
  existsb (fun ev => match ev with
                     | Completed (VideoUpsert row) =>
                         match sv_publishedAt row with
                         | Some JS.InvalidDate => true
                         | _ => false
                         end
                     | _ => false
                     end) (snd run) = true.
Proof. vm_compute. split; reflexivity. Qed.

(** X21.  A video that is not stored is fetched and written once, for the
    requested id with the provider's title, description and channel, the
    first-store thumbnail and no dates of its own; what is answered is
    the provider's answer as it came (its thumbnails and tags untouched)
    with the association looked up before, and no [video]. *)
Theorem new_video_is_stored_and_echoed (w : World) (videoId : string) (log : Log)
  (user : User) (uv : option UserVideo) (response : Response) (data : ApiVideo)
  (store : StoredVideo -> StoredVideo) :
  getCurrentUser w log = Return user ->
  (forall l, VideoRepository_getByYoutubeId w l videoId = Return None) ->
  (forall l, UserVideoRepository_getByUserAndYoutubeId w l (user_id user) videoId
             = Return uv) ->
  (forall l url key, fetch w l url key = Return response) ->
  resp_ok response = true ->
  (forall l, Response_json w l = Return data) ->
  (forall l row, VideoRepository_upsert w l row = Return (store row)) ->
  exists r added row,
    fetchVideoDetails w videoId log = (Return r, (log ++ added)%list) /\
    filter (fun ev => isVideoUpsert (callOf ev)) added = [Completed (VideoUpsert row)] /\
    sv_youtubeId row = videoId /\
    sv_title row = api_title data /\
    sv_description row = api_description data /\
    sv_channelTitle row = api_channelTitle data /\
    sv_thumbnailUrl row = firstThumbnail data /\
    sv_createdAt row = None /\ sv_updatedAt row = None /\
    title r = api_title data /\
    description r = api_description data /\
    channelTitle r = api_channelTitle data /\
    publishedAt r = api_publishedAt data /\
    thumbnails r = api_thumbnails data /\
    tags r = api_tags data /\
    userVideo r = uv /\ video r = None.
Proof.
  intros Huser Hstored Hassoc Hfetch Hok Hjson Hupsert.
  unfold_details. rewrite Huser. details_cbn. rewrite Hstored. details_cbn.
  rewrite Hassoc. details_cbn. rewrite Hfetch. details_cbn.
  rewrite Hok. details_cbn. rewrite Hjson. details_cbn. rewrite Hupsert.
  repeat rewrite <- app_assoc. cbn [app].
  do 3 eexists. split; [reflexivity|].
  cbn [filter callOf isVideoUpsert].
  split; [reflexivity|]. cbn. repeat split.
Qed.

Lemma new_video_is_stored_and_echoed_witness :
  exists r added row,
    fetchVideoDetails (scriptedWorld freshScript) "dQw4w9WgXcQ" []
    = (Return r, ([] ++ added)%list) /\
    filter (fun ev => isVideoUpsert (callOf ev)) added = [Completed (VideoUpsert row)] /\
    sv_youtubeId row = "dQw4w9WgXcQ" /\
    sv_title row = api_title sampleBody /\
    sv_description row = api_description sampleBody /\
    sv_channelTitle row = api_channelTitle sampleBody /\
    sv_thumbnailUrl row = firstThumbnail sampleBody /\
    sv_createdAt row = None /\ sv_updatedAt row = None /\
    title r = api_title sampleBody /\
    description r = api_description sampleBody /\
    channelTitle r = api_channelTitle sampleBody /\
    publishedAt r = api_publishedAt sampleBody /\
    thumbnails r = api_thumbnails sampleBody /\
    tags r = api_tags sampleBody /\
    userVideo r = None /\ video r = None.
Proof.
  apply (new_video_is_stored_and_echoed (scriptedWorld freshScript) "dQw4w9WgXcQ"
           [] sampleUser None okResponse sampleBody storeAsGiven);
    reflexivity.
Defined.

End DetailsFacts.
